(** * Attendance kiosk: matching, decision pipeline and store

    A shallow embedding of the TypeScript sources of the attendance
    tracker (the hooks [useFaceDetection], [useImageMatching],
    [useAttendanceStore], the component [AttendanceTracker] and the form
    [AttendanceForm]) together with the statements checked against its
    specification and further properties of the code. *)

From Stdlib Require Import Reals Lra Psatz.
From Stdlib Require Import ZArith Lia Bool String Ascii List.
From Stdlib Require Import DecimalString DecimalZ.
Import ListNotations.

Set Implicit Arguments.
Set Warnings "-register-all".

Open Scope string_scope.
Open Scope list_scope.

(** ** JavaScript numbers

    A JavaScript number is modelled as an extended real: a finite real,
    one of the two infinities, or [NaN].  Rounding and the sign of zero
    are not modelled (a zero divisor is taken to be [+0]); every
    comparison with [NaN] is false, as in the language. *)

Inductive number :=
| NaN
| Inf (negative : bool)
| Num (x : R).

Module JS.

Open Scope R_scope.

Definition sign_lt0 (x : R) : bool := if Rlt_dec x 0 then true else false.
Definition is_zero (x : R) : bool := if Req_dec_T x 0 then true else false.

Definition neg (a : number) : number :=
  match a with
  | NaN => NaN
  | Inf s => Inf (negb s)
  | Num x => Num (- x)
  end.

Definition add (a b : number) : number :=
  match a, b with
  | NaN, _ | _, NaN => NaN
  | Inf s, Inf t => if Bool.eqb s t then Inf s else NaN
  | Inf s, Num _ | Num _, Inf s => Inf s
  | Num x, Num y => Num (x + y)
  end.

Definition sub (a b : number) : number := add a (neg b).

Definition mul (a b : number) : number :=
  match a, b with
  | NaN, _ | _, NaN => NaN
  | Inf s, Inf t => Inf (xorb s t)
  | Inf s, Num x | Num x, Inf s =>
      if is_zero x then NaN else Inf (xorb s (sign_lt0 x))
  | Num x, Num y => Num (x * y)
  end.

Definition div (a b : number) : number :=
  match a, b with
  | NaN, _ | _, NaN => NaN
  | Inf _, Inf _ => NaN
  | Inf s, Num y => Inf (xorb s (sign_lt0 y))
  | Num _, Inf _ => Num 0
  | Num x, Num y =>
      if is_zero y
      then (if is_zero x then NaN else Inf (sign_lt0 x))
      else Num (x / y)
  end.

(** [Math.sqrt] *)
Definition Math_sqrt (a : number) : number :=
  match a with
  | NaN => NaN
  | Inf false => Inf false
  | Inf true => NaN
  | Num x => if sign_lt0 x then NaN else Num (sqrt x)
  end.

(** [a < b] *)
Definition lt (a b : number) : bool :=
  match a, b with
  | NaN, _ | _, NaN => false
  | Inf s, Inf t => s && negb t
  | Inf s, Num _ => s
  | Num _, Inf t => negb t
  | Num x, Num y => if Rlt_dec x y then true else false
  end.

(** [a > b] *)
Definition gt (a b : number) : bool := lt b a.

(** [Math.max(a, b)] *)
Definition Math_max (a b : number) : number :=
  match a, b with
  | NaN, _ | _, NaN => NaN
  | _, _ => if lt a b then b else a
  end.

(** [Math.abs] *)
Definition Math_abs (a : number) : number :=
  match a with
  | NaN => NaN
  | Inf _ => Inf false
  | Num x => Num (Rabs x)
  end.

Definition is_NaN (a : number) : bool :=
  match a with NaN => true | _ => false end.

Definition is_finite (a : number) : bool :=
  match a with Num _ => true | _ => false end.

End JS.

(** A [Float32Array]: a sequence of numbers (element rounding to single
    precision is not modelled). *)
Definition Float32Array := list number.

(** ** Cosine confidence ([useImageMatching.compareImages]) *)

(** The accumulation loop of [compareImages]: index [i] runs over
    [features1]; [features2] has the same length when the loop is
    reached. *)
Fixpoint accumulate (f1 f2 : Float32Array) (acc : number * number * number)
  : number * number * number :=
  match f1, f2 with
  | x :: f1', y :: f2' =>
      let '(dotProduct, norm1, norm2) := acc in
      accumulate f1' f2'
        (JS.add dotProduct (JS.mul x y),
         JS.add norm1 (JS.mul x x),
         JS.add norm2 (JS.mul y y))
  | _, _ => acc
  end.

Definition compareImages (features1 features2 : option Float32Array) : number :=
  match features1, features2 with
  | Some f1, Some f2 =>
      if negb (Nat.eqb (length f1) (length f2)) then Num 0
      else
        let '(dotProduct, norm1, norm2) :=
          accumulate f1 f2 (Num 0, Num 0, Num 0) in
        let similarity :=
          JS.div dotProduct (JS.mul (JS.Math_sqrt norm1) (JS.Math_sqrt norm2)) in
        JS.Math_max (Num 0) (JS.div (JS.add similarity (Num 1)) (Num 2))
  | _, _ => Num 0
  end.


(** ** Attendance data ([types/attendance.ts]) *)

Inductive EntryType := ENTRY | EXIT.
Inductive Status := IN | OUT.

(** A [Date] object: an instant in milliseconds since the epoch, or an
    Invalid Date (what [new Date(undefined)] gives). *)
Inductive Date := InvalidDate | Time (ms : Z).

(** An absent vector ([undefined] or [null]; the code only tests
    truthiness) is [None]. *)
Module AttendanceRecord.
Record t := mk {
  id : string;
  name : string;
  email : string;
  image : string;
  timestamp : Date;
  type : EntryType;
  imageFeatures : option Float32Array;
  faceDescriptor : option Float32Array
}.
End AttendanceRecord.

Module AttendeeProfile.
Record t := mk {
  id : string;
  name : string;
  email : string;
  lastImage : string;
  imageFeatures : option Float32Array;
  faceDescriptor : option Float32Array;
  currentStatus : Status;
  lastEntry : option Date;
  lastExit : option Date
}.
End AttendeeProfile.

(** [FaceDetectionResult] / [ImageMatchResult] *)
Record MatchResult := {
  isMatch : bool;
  confidence : number;
  attendeeId : option string
}.

(** The running [bestMatch] of the two matchers. *)
Record BestMatch := {
  best_id : string;
  best_confidence : number
}.

(** One step of the [forEach] loop shared by [findMatchingFace] and
    [findMatchingImage]: the entry replaces [bestMatch] when its
    confidence is strictly greater. *)
Definition forEach_step (compare : option Float32Array -> option Float32Array -> number)
    (query : Float32Array) (bestMatch : BestMatch)
    (entry : string * Float32Array) : BestMatch :=
  let '(id, vector) := entry in
  let confidence := compare (Some query) (Some vector) in
  if JS.gt confidence (best_confidence bestMatch)
  then {| best_id := id; best_confidence := confidence |}
  else bestMatch.

Definition forEach_best compare query (catalog : list (string * Float32Array))
  : BestMatch :=
  fold_left (forEach_step compare query) catalog
    {| best_id := ""; best_confidence := Num 0 |}.

Definition noMatch : MatchResult :=
  {| isMatch := false; confidence := Num 0; attendeeId := None |}.

(** ** Face matcher ([useFaceDetection]) *)

(** [faceapi.euclideanDistance] of the face-api.js library: it throws
    ([None]) when the lengths differ, otherwise the square root of the sum
    of squared differences. *)
Definition euclideanDistance (arr1 arr2 : Float32Array) : option number :=
  if negb (Nat.eqb (length arr1) (length arr2)) then None
  else
    Some (JS.Math_sqrt
            (fold_left (fun res diff => JS.add res (JS.mul diff diff))
               (map (fun '(val, d2) => JS.sub val d2) (combine arr1 arr2))
               (Num 0))).

Definition compareFaces (descriptor1 descriptor2 : option Float32Array) : number :=
  match descriptor1, descriptor2 with
  | Some d1, Some d2 =>
      match euclideanDistance d1 d2 with
      | Some distance => JS.Math_max (Num 0) (JS.sub (Num 1) distance)
      | None => Num 0                      (* caught: 'Face comparison error' *)
      end
  | _, _ => Num 0
  end.

Definition face_threshold : number := Num (6 / 10).

Definition findMatchingFace (isLoaded : bool)
    (newDescriptor : option Float32Array)
    (existingDescriptors : list (string * Float32Array)) : MatchResult :=
  match newDescriptor with
  | None => noMatch
  | Some d =>
      if negb isLoaded then noMatch
      else
        let bestMatch := forEach_best compareFaces d existingDescriptors in
        let threshold := face_threshold in
        {| isMatch := JS.gt (best_confidence bestMatch) threshold;
           confidence := best_confidence bestMatch;
           attendeeId :=
             if JS.gt (best_confidence bestMatch) threshold
             then Some (best_id bestMatch) else None |}
  end.

(** ** Embedding matcher ([useImageMatching]) *)

Definition image_threshold : number := Num (75 / 100).

Definition findMatchingImage (isLoaded : bool)
    (newImageFeatures : option Float32Array)
    (existingImages : list (string * Float32Array)) : MatchResult :=
  match newImageFeatures with
  | None => noMatch
  | Some f =>
      if negb isLoaded then noMatch
      else
        let bestMatch := forEach_best compareImages f existingImages in
        let threshold := image_threshold in
        {| isMatch := JS.gt (best_confidence bestMatch) threshold;
           confidence := best_confidence bestMatch;
           attendeeId :=
             if JS.gt (best_confidence bestMatch) threshold
             then Some (best_id bestMatch) else None |}
  end.

(** ** Pixel comparison ([useImageMatching.simpleImageCompare]) *)

(** The [data] of an [ImageData]: a [Uint8ClampedArray] with one byte
    each for red, green, blue and alpha per pixel.  Reading past its end
    gives [undefined], which the arithmetic takes to [NaN]. *)
Definition Uint8ClampedArray := list Z.

Definition element (data : Uint8ClampedArray) (i : nat) : number :=
  match nth_error data i with
  | Some byte => Num (IZR byte)
  | None => NaN
  end.

(** The loop [for (let i = 0; i < data1.length; i += 4)]; [data1] and
    [data2] are the two arrays from index [i] on. *)
Fixpoint pixel_difference (data1 data2 : Uint8ClampedArray) (totalDiff : number)
  : number :=
  match data1 with
  | [] => totalDiff
  | _ :: rest =>
      let r1 := element data1 0 in
      let g1 := element data1 1 in
      let b1 := element data1 2 in
      let r2 := element data2 0 in
      let g2 := element data2 1 in
      let b2 := element data2 2 in
      let totalDiff :=
        JS.add totalDiff
          (JS.add (JS.add (JS.Math_abs (JS.sub r1 r2)) (JS.Math_abs (JS.sub g1 g2)))
                  (JS.Math_abs (JS.sub b1 b2))) in
      match rest with
      | _ :: _ :: _ :: data1' => pixel_difference data1' (skipn 4 data2) totalDiff
      | _ => totalDiff
      end
  end.

(** The body of [processImages] once both images are drawn, [size]
    being 64. *)
Definition compare_pixels (data1 data2 : Uint8ClampedArray) : number :=
  let totalDiff := pixel_difference data1 data2 (Num 0) in
  let maxDiff := Num (64 * 64 * 3 * 255) in
  let similarity := JS.sub (Num 1) (JS.div totalDiff maxDiff) in
  JS.Math_max (Num 0) similarity.

(** The value the promise of [simpleImageCompare] resolves to.
    [contexts]: both canvases gave a 2d context.  An image is [None]
    when it fails to load or to be drawn, and otherwise the bytes that
    [getImageData(0, 0, 64, 64)] reads after it is drawn. *)
Definition useImageMatching_simpleImageCompare (contexts : bool)
    (image1 image2 : option Uint8ClampedArray) : number :=
  if negb contexts then Num 0
  else
    match image1, image2 with
    | Some data1, Some data2 => compare_pixels data1 data2
    | _, _ => Num 0
    end.

(** ** Durable blobs ([localStorage], [JSON]) *)

(** A parsed JSON text.  The fields of an object are its properties in
    order, each name once. *)
Inductive json :=
| JNull
| JBool (b : bool)
| JNum (x : R)
| JStr (s : string)
| JArr (items : list json)
| JObj (fields : list (string * json)).

(** The content of one [localStorage] entry: a text that [JSON.parse]
    rejects, or a text that parses to the given value ([JSON.stringify]
    writes the latter). *)
Inductive blob :=
| NotJSON (text : string)
| Json (j : json).

Record LocalStorage := {
  attendance_records : option blob;      (* STORAGE_KEYS.RECORDS *)
  attendee_profiles : option blob        (* STORAGE_KEYS.PROFILES *)
}.

Inductive StorageKey := RECORDS | PROFILES.

(** [OtherError]: a plain [Error], as a rejected promise carries. *)
Inductive error := SyntaxError | TypeError | RangeError | OtherError.

Inductive result (A : Type) :=
| Ok (a : A)
| Throw (e : error).
Arguments Ok {A} a.
Arguments Throw {A} e.

Definition bind {A B} (r : result A) (k : A -> result B) : result B :=
  match r with
  | Ok a => k a
  | Throw e => Throw e
  end.

Notation "x <- r ;; k" := (bind r (fun x => k))
  (at level 61, r at next level, right associativity).

Fixpoint mapM {A B} (f : A -> result B) (l : list A) : result (list B) :=
  match l with
  | [] => Ok []
  | a :: l' => b <- f a ;; bs <- mapM f l' ;; Ok (b :: bs)
  end.

(** The conversions of the JavaScript platform that the loader can reach
    and that are not spelled out here: the date-time text of an instant
    and its parser, and the coercions of strings, arrays and objects;
    and whether [localStorage.setItem] throws on a write (the quota is
    exceeded, the storage is disabled). *)
Record Platform := {
  toISOString : Z -> string;
  Date_parse : string -> Date;
  Date_parse_toISOString : forall ms, Date_parse (toISOString ms) = Time ms;
  toISOString_nonempty : forall ms, toISOString ms <> "";
  StringToNumber : string -> number;
  ObjectToNumber : json -> number;           (* [Number(x)], [x] an array or object *)
  ObjectToDate : json -> Date;               (* [new Date(x)], [x] an array or object *)
  TypedArrayFrom : json -> result Float32Array; (* [new Float32Array(x)], [x] not an array *)
  setItem_throws : StorageKey -> blob -> bool
}.

(** A value held by a loaded object: a JSON value kept as parsed, or one
    of the two re-hydrated kinds. *)
Inductive value :=
| VUndefined
| VJson (j : json)
| VDate (d : Date)
| VFloat32Array (a : Float32Array).

(** An object as an ordered list of its properties. *)
Definition object := list (string * value).

Fixpoint assoc {A} (k : string) (l : list (string * A)) : option A :=
  match l with
  | [] => None
  | (k', v) :: l' => if String.eqb k k' then Some v else assoc k l'
  end.

(** [{ ...o, k: v }] *)
Fixpoint set_property (k : string) (v : value) (o : object) : object :=
  match o with
  | [] => [(k, v)]
  | (k', v') :: o' =>
      if String.eqb k k' then (k', v) :: o' else (k', v') :: set_property k v o'
  end.

(** [record.k] for the property names the loader reads (none of them is
    [length] or an index, so only objects have them). *)
Definition get_property (record : json) (k : string) : result (option json) :=
  match record with
  | JNull => Throw TypeError
  | JObj fields => Ok (assoc k fields)
  | _ => Ok None
  end.

(** The name of an index property: the decimal text of the index. *)
Definition index_name (i : nat) : string :=
  NilEmpty.string_of_uint (Nat.to_uint i).

Fixpoint indexed {A} (i : nat) (l : list A) : list (string * A) :=
  match l with
  | [] => []
  | x :: l' => (index_name i, x) :: indexed (S i) l'
  end.

(** [{ ...record }]: the own enumerable properties of a parsed value:
    those of an object, the elements of an array and the characters of a
    string under their indices, none for a number or a boolean. *)
Definition spread (record : json) : object :=
  match record with
  | JObj fields => map (fun '(k, v) => (k, VJson v)) fields
  | JArr items => map (fun '(k, v) => (k, VJson v)) (indexed 0 items)
  | JStr text =>
      map (fun '(k, c) => (k, VJson (JStr (String c EmptyString))))
        (indexed 0 (list_ascii_of_string text))
  | _ => []
  end.

Definition truthy (v : option json) : bool :=
  match v with
  | None | Some JNull => false
  | Some (JBool b) => b
  | Some (JNum x) => negb (JS.is_zero x)
  | Some (JStr s) => negb (String.eqb s "")
  | Some (JArr _) | Some (JObj _) => true
  end.

(** Truncation toward zero. *)
Definition trunc (x : R) : Z :=
  if Rlt_dec x 0 then (- Int_part (- x))%Z else Int_part x.

(** [new Date(v)] *)
Definition new_Date (P : Platform) (v : option json) : Date :=
  match v with
  | None => InvalidDate
  | Some JNull => Time 0
  | Some (JBool b) => Time (if b then 1 else 0)
  | Some (JNum x) =>
      if Rlt_dec 8640000000000000 (Rabs x) then InvalidDate else Time (trunc x)
  | Some (JStr s) => Date_parse P s
  | Some (JArr _ as j) | Some (JObj _ as j) => ObjectToDate P j
  end.

Definition ToNumber (P : Platform) (j : json) : number :=
  match j with
  | JNull => Num 0
  | JBool b => Num (if b then 1 else 0)
  | JNum x => Num x
  | JStr s => StringToNumber P s
  | JArr _ | JObj _ => ObjectToNumber P j
  end.

(** [new Float32Array(j)] *)
Definition new_Float32Array (P : Platform) (j : json) : result Float32Array :=
  match j with
  | JArr items => Ok (map (ToNumber P) items)
  | _ => TypedArrayFrom P j
  end.

(** [x ? new Float32Array(x) : undefined] *)
Definition rehydrate_vector (P : Platform) (x : option json) : result value :=
  match x with
  | Some j =>
      if truthy x then (a <- new_Float32Array P j ;; Ok (VFloat32Array a))
      else Ok VUndefined
  | None => Ok VUndefined
  end.

(** [x ? new Date(x) : undefined] *)
Definition rehydrate_date (P : Platform) (x : option json) : value :=
  if truthy x then VDate (new_Date P x) else VUndefined.

(** The mapping function applied to each parsed record. *)
Definition rehydrate_record (P : Platform) (record : json) : result object :=
  ts <- get_property record "timestamp" ;;
  f <- get_property record "imageFeatures" ;;
  imageFeatures <- rehydrate_vector P f ;;
  d <- get_property record "faceDescriptor" ;;
  faceDescriptor <- rehydrate_vector P d ;;
  Ok (set_property "faceDescriptor" faceDescriptor
        (set_property "imageFeatures" imageFeatures
           (set_property "timestamp" (VDate (new_Date P ts)) (spread record)))).

(** The mapping function applied to each parsed profile. *)
Definition rehydrate_profile (P : Platform) (profile : json) : result object :=
  le <- get_property profile "lastEntry" ;;
  lx <- get_property profile "lastExit" ;;
  f <- get_property profile "imageFeatures" ;;
  imageFeatures <- rehydrate_vector P f ;;
  d <- get_property profile "faceDescriptor" ;;
  faceDescriptor <- rehydrate_vector P d ;;
  Ok (set_property "faceDescriptor" faceDescriptor
        (set_property "imageFeatures" imageFeatures
           (set_property "lastExit" (rehydrate_date P lx)
              (set_property "lastEntry" (rehydrate_date P le) (spread profile))))).

Definition JSON_parse (b : blob) : result json :=
  match b with
  | NotJSON _ => Throw SyntaxError
  | Json j => Ok j
  end.

(** [parsed.map(f)]: only arrays have [map]. *)
Definition array_map {B} (f : json -> result B) (parsed : json) : result (list B) :=
  match parsed with
  | JArr items => mapM f items
  | _ => Throw TypeError
  end.

(** [if (saved)] on the result of [getItem]. *)
Definition saved_truthy (saved : option blob) : bool :=
  match saved with
  | None => false
  | Some (NotJSON text) => negb (String.eqb text "")
  | Some (Json _) => true
  end.

(** What the mount effect leaves behind: the two collections as loaded
    (objects, not yet known to be well-typed) and the error it logged. *)
Record Loaded := {
  loaded_records : list object;
  loaded_profiles : list object;
  logged : option error
}.

(** The mount effect of [useAttendanceStore]: the [try] block sets
    records, then profiles; the [catch] block logs. *)
Definition load (P : Platform) (ls : LocalStorage) : Loaded :=
  let savedRecords := attendance_records ls in
  let savedProfiles := attendee_profiles ls in
  let parsedRecords :=
    match savedRecords with
    | Some b =>
        if saved_truthy savedRecords
        then (j <- JSON_parse b ;; l <- array_map (rehydrate_record P) j ;; Ok (Some l))
        else Ok None
    | None => Ok None
    end in
  match parsedRecords with
  | Throw e => {| loaded_records := []; loaded_profiles := []; logged := Some e |}
  | Ok rs =>
      let records := match rs with Some l => l | None => [] end in
      let parsedProfiles :=
        match savedProfiles with
        | Some b =>
            if saved_truthy savedProfiles
            then (j <- JSON_parse b ;; l <- array_map (rehydrate_profile P) j ;; Ok (Some l))
            else Ok None
        | None => Ok None
        end in
      match parsedProfiles with
      | Throw e => {| loaded_records := records; loaded_profiles := []; logged := Some e |}
      | Ok ps =>
          {| loaded_records := records;
             loaded_profiles := match ps with Some l => l | None => [] end;
             logged := None |}
      end
  end.

(** *** Serialisation *)

(** [JSON.stringify] of one array element: a number that is not finite
    is written as [null]. *)
Definition stringify_number (x : number) : json :=
  match x with
  | Num r => JNum r
  | _ => JNull
  end.

(** [v ? Array.from(v) : undefined], stringified. *)
Definition stringify_vector (v : option Float32Array) : option json :=
  match v with
  | Some a => Some (JArr (map stringify_number a))
  | None => None
  end.

(** A property whose value is [undefined] is not written. *)
Definition property (k : string) (v : option json) : list (string * json) :=
  match v with
  | Some j => [(k, j)]
  | None => []
  end.

Definition EntryType_string (t : EntryType) : string :=
  match t with ENTRY => "ENTRY" | EXIT => "EXIT" end.

Definition Status_string (s : Status) : string :=
  match s with IN => "IN" | OUT => "OUT" end.

(** [toJSON] of a [Date]: its date-time text, [null] for an Invalid
    Date. *)
Definition Date_toJSON (P : Platform) (d : Date) : json :=
  match d with
  | Time ms => JStr (toISOString P ms)
  | InvalidDate => JNull
  end.

(** An optional [Date] property. *)
Definition stringify_date (P : Platform) (d : option Date) : option json :=
  match d with
  | Some date => Some (Date_toJSON P date)
  | None => None
  end.

(** Properties are listed in the order of the interface; the loader
    reads them by name. *)
Definition stringify_record (P : Platform) (r : AttendanceRecord.t) : json :=
  JObj ([("id", JStr (AttendanceRecord.id r));
         ("name", JStr (AttendanceRecord.name r));
         ("email", JStr (AttendanceRecord.email r));
         ("image", JStr (AttendanceRecord.image r));
         ("timestamp", Date_toJSON P (AttendanceRecord.timestamp r));
         ("type", JStr (EntryType_string (AttendanceRecord.type r)))]
        ++ property "imageFeatures" (stringify_vector (AttendanceRecord.imageFeatures r))
        ++ property "faceDescriptor" (stringify_vector (AttendanceRecord.faceDescriptor r))).

Definition stringify_profile (P : Platform) (p : AttendeeProfile.t) : json :=
  JObj ([("id", JStr (AttendeeProfile.id p));
         ("name", JStr (AttendeeProfile.name p));
         ("email", JStr (AttendeeProfile.email p));
         ("lastImage", JStr (AttendeeProfile.lastImage p))]
        ++ property "imageFeatures" (stringify_vector (AttendeeProfile.imageFeatures p))
        ++ property "faceDescriptor" (stringify_vector (AttendeeProfile.faceDescriptor p))
        ++ [("currentStatus", JStr (Status_string (AttendeeProfile.currentStatus p)))]
        ++ property "lastEntry" (stringify_date P (AttendeeProfile.lastEntry p))
        ++ property "lastExit" (stringify_date P (AttendeeProfile.lastExit p))).

(** ** The attendance store ([useAttendanceStore]) *)

Record Store := {
  records : list AttendanceRecord.t;
  profiles : list AttendeeProfile.t
}.

(** What a store operation asks of React and of [localStorage].  The
    operations are closures of one render: they read the [records] and
    [profiles] of that render and hand new values to the state setters;
    the state changes with the next render. *)
Inductive Effect :=
| setRecords (l : list AttendanceRecord.t)
| setProfiles (l : list AttendeeProfile.t)
| setItem (k : StorageKey) (b : blob)
| removeItem (k : StorageKey).

(** [saveRecords] and [saveProfiles]: the [try] block serialises and
    calls [setItem]; when that call throws, the [catch] block logs
    ('Failed to save ...') and the storage is left as it was.  The effect
    [setItem] stands for a call that returned. *)
Definition saveRecords (P : Platform) (newRecords : list AttendanceRecord.t)
  : list Effect :=
  let text := Json (JArr (map (stringify_record P) newRecords)) in
  if setItem_throws P RECORDS text then [] else [setItem RECORDS text].

Definition saveProfiles (P : Platform) (newProfiles : list AttendeeProfile.t)
  : list Effect :=
  let text := Json (JArr (map (stringify_profile P) newProfiles)) in
  if setItem_throws P PROFILES text then [] else [setItem PROFILES text].

(** [Omit<AttendanceRecord, 'id' | 'timestamp'>] *)
Module NewRecord.
Record t := mk {
  name : string;
  email : string;
  image : string;
  type : EntryType;
  imageFeatures : option Float32Array;
  faceDescriptor : option Float32Array
}.
End NewRecord.

(** [uuid] and [now] are what [crypto.randomUUID()] and [new Date()]
    return in this call. *)
Definition addRecord (P : Platform) (records : list AttendanceRecord.t)
    (record : NewRecord.t) (uuid : string) (now : Z)
  : AttendanceRecord.t * list Effect :=
  let newRecord :=
    AttendanceRecord.mk uuid (NewRecord.name record) (NewRecord.email record)
      (NewRecord.image record) (Time now) (NewRecord.type record)
      (NewRecord.imageFeatures record) (NewRecord.faceDescriptor record) in
  let updatedRecords := newRecord :: records in
  (newRecord, setRecords updatedRecords :: saveRecords P updatedRecords).

(** A property of a partial object: not there, or there with a value.
    For the optional properties the value may be [undefined] ([None]);
    for the required ones an explicit [undefined] is left out, so that a
    stored profile stays an [AttendeeProfile]. *)
Inductive supplied (A : Type) :=
| Missing
| Given (v : A).
Arguments Missing {A}.
Arguments Given {A} v.

(** [Partial<AttendeeProfile> & { id: string }] *)
Module ProfileData.
Record t := mk {
  id : string;
  name : supplied string;
  email : supplied string;
  lastImage : supplied string;
  imageFeatures : supplied (option Float32Array);
  faceDescriptor : supplied (option Float32Array);
  currentStatus : supplied Status;
  lastEntry : supplied (option Date);
  lastExit : supplied (option Date)
}.
End ProfileData.

(** One property of [{ ...base, ...over }]. *)
Definition overlay {A} (base : A) (over : supplied A) : A :=
  match over with
  | Missing => base
  | Given v => v
  end.

(** [{ ...profile, ...profileData }] *)
Definition merge (profile : AttendeeProfile.t) (profileData : ProfileData.t)
  : AttendeeProfile.t :=
  AttendeeProfile.mk
    (ProfileData.id profileData)
    (overlay (AttendeeProfile.name profile) (ProfileData.name profileData))
    (overlay (AttendeeProfile.email profile) (ProfileData.email profileData))
    (overlay (AttendeeProfile.lastImage profile) (ProfileData.lastImage profileData))
    (overlay (AttendeeProfile.imageFeatures profile) (ProfileData.imageFeatures profileData))
    (overlay (AttendeeProfile.faceDescriptor profile) (ProfileData.faceDescriptor profileData))
    (overlay (AttendeeProfile.currentStatus profile) (ProfileData.currentStatus profileData))
    (overlay (AttendeeProfile.lastEntry profile) (ProfileData.lastEntry profileData))
    (overlay (AttendeeProfile.lastExit profile) (ProfileData.lastExit profileData)).

(** [{ name: '', email: '', lastImage: '', currentStatus: 'OUT',
       ...profileData, id: profileData.id }] *)
Definition newProfile (profileData : ProfileData.t) : AttendeeProfile.t :=
  AttendeeProfile.mk
    (ProfileData.id profileData)
    (overlay "" (ProfileData.name profileData))
    (overlay "" (ProfileData.email profileData))
    (overlay "" (ProfileData.lastImage profileData))
    (overlay None (ProfileData.imageFeatures profileData))
    (overlay None (ProfileData.faceDescriptor profileData))
    (overlay OUT (ProfileData.currentStatus profileData))
    (overlay None (ProfileData.lastEntry profileData))
    (overlay None (ProfileData.lastExit profileData)).

(** [Array.prototype.findIndex], [None] for [-1]. *)
Fixpoint findIndex {A} (f : A -> bool) (l : list A) : option nat :=
  match l with
  | [] => None
  | a :: l' => if f a then Some O else option_map S (findIndex f l')
  end.

(** [l.map((x, index) => f(x, index))], indices counted from [i]. *)
Fixpoint map_index {A B} (f : A -> nat -> B) (i : nat) (l : list A) : list B :=
  match l with
  | [] => []
  | a :: l' => f a i :: map_index f (S i) l'
  end.

(** The local [updatedProfiles] of [updateProfile]. *)
Definition updatedProfiles (profiles : list AttendeeProfile.t)
    (profileData : ProfileData.t) : list AttendeeProfile.t :=
  let existingIndex :=
    findIndex (fun p => String.eqb (AttendeeProfile.id p) (ProfileData.id profileData))
      profiles in
  match existingIndex with
  | Some existingIndex =>
      map_index (fun profile index =>
                   if Nat.eqb index existingIndex
                   then merge profile profileData else profile)
        0 profiles
  | None => profiles ++ [newProfile profileData]
  end.

Definition updateProfile (P : Platform) (profiles : list AttendeeProfile.t)
    (profileData : ProfileData.t) : list Effect :=
  setProfiles (updatedProfiles profiles profileData)
  :: saveProfiles P (updatedProfiles profiles profileData).

Definition getProfile (profiles : list AttendeeProfile.t) (id : string)
  : option AttendeeProfile.t :=
  find (fun p => String.eqb (AttendeeProfile.id p) id) profiles.

(** [records.slice(0, limit)], [limit] defaulting to 50. *)
Definition getRecentRecords (records : list AttendanceRecord.t)
    (limit : option nat) : list AttendanceRecord.t :=
  firstn (match limit with Some n => n | None => 50%nat end) records.

Definition getImageFeatures (profiles : list AttendeeProfile.t)
  : list (string * Float32Array) :=
  flat_map (fun p =>
              match AttendeeProfile.imageFeatures p with
              | Some features => [(AttendeeProfile.id p, features)]
              | None => []
              end) profiles.

Definition clearAllData : list Effect :=
  [setRecords []; setProfiles []; removeItem RECORDS; removeItem PROFILES].

(** The property names of the object that [useAttendanceStore] returns. *)
Definition useAttendanceStore_returns : list string :=
  ["records"; "profiles"; "addRecord"; "updateProfile"; "getProfile";
   "getRecentRecords"; "getImageFeatures"; "getFaceDescriptors"; "clearAllData"].

(** Destructuring [{ name } = useAttendanceStore()]: whether [name] is
    bound to a member or to [undefined]. *)
Definition store_provides (name : string) : bool :=
  existsb (String.eqb name) useAttendanceStore_returns.

(** The state of the mounted hook together with the storage. *)
Record World := {
  state : Store;
  localStorage : LocalStorage
}.

Definition perform (w : World) (e : Effect) : World :=
  match e with
  | setRecords l =>
      {| state := {| records := l; profiles := profiles (state w) |};
         localStorage := localStorage w |}
  | setProfiles l =>
      {| state := {| records := records (state w); profiles := l |};
         localStorage := localStorage w |}
  | setItem RECORDS b =>
      {| state := state w;
         localStorage := {| attendance_records := Some b;
                            attendee_profiles := attendee_profiles (localStorage w) |} |}
  | setItem PROFILES b =>
      {| state := state w;
         localStorage := {| attendance_records := attendance_records (localStorage w);
                            attendee_profiles := Some b |} |}
  | removeItem RECORDS =>
      {| state := state w;
         localStorage := {| attendance_records := None;
                            attendee_profiles := attendee_profiles (localStorage w) |} |}
  | removeItem PROFILES =>
      {| state := state w;
         localStorage := {| attendance_records := attendance_records (localStorage w);
                            attendee_profiles := None |} |}
  end.

(** The next render: the effects requested during the current one are
    applied in the order of the calls. *)
Definition rerender (w : World) (effects : list Effect) : World :=
  fold_left perform effects w.

(** ** The capture pipeline ([AttendanceTracker.processAttendance]) *)

(** [String.prototype.toLowerCase].  A string is a sequence of
    characters U+0000 to U+00FF, each held in one [ascii]; the cased
    letters among them are A-Z and U+00C0 to U+00DE without the
    multiplication sign U+00D7, each 32 below its lower-case letter. *)
Definition lower (c : ascii) : ascii :=
  let n := N_of_ascii c in
  if ((N.leb 65 n && N.leb n 90)
      || (N.leb 192 n && N.leb n 222 && negb (N.eqb n 215)))%bool
  then ascii_of_N (n + 32) else c.

Fixpoint toLowerCase (s : string) : string :=
  match s with
  | EmptyString => EmptyString
  | String c s' => String (lower c) (toLowerCase s')
  end.

(** The form data held in [currentUser]. *)
Record CurrentUser := {
  user_name : option string;
  user_email : option string
}.

(** What one capture brings from outside the component: the still, what
    the browser and the two extractors make of it, the pixel comparison,
    and the values that [crypto.randomUUID()] and [new Date()] return
    during the run. *)
Record Capture := {
  imageData : string;
  imageLoads : bool;                               (* [img.onload], else [img.onerror] *)
  detected : option Float32Array;                  (* descriptor found by face-api, if any *)
  extracted : result (option Float32Array);        (* the feature extractor's promise *)
  simpleImageCompare : string -> string -> number; (* awaited pixel similarity *)
  new_userId : string;                             (* [crypto.randomUUID()], new attendee *)
  profile_time : Z;                                (* [new Date()] of lastEntry / lastExit *)
  record_id : string;                              (* [crypto.randomUUID()] in [addRecord] *)
  record_time : Z                                  (* [new Date()] in [addRecord] *)
}.

Inductive Outcome :=
| Complete (record : AttendanceRecord.t) (profileData : AttendeeProfile.t)
| CheckoutFailed              (* toast 'Check-out Failed', back to capture *)
| ImageError                  (* toast 'Failed to process the captured image' *)
| Uncaught (e : error).       (* the async handler rejects *)

Definition detectFaceFromImage (isLoaded : bool) (detected : option Float32Array)
  : option Float32Array :=
  if negb isLoaded then None else detected.

Definition extractImageFeatures (isLoaded : bool)
    (extracted : result (option Float32Array)) : result (option Float32Array) :=
  if negb isLoaded then Ok None else extracted.

(** [a || b] on optional vectors and strings. *)
Definition or_else {A} (a b : option A) : option A :=
  match a with Some _ => a | None => b end.

Definition string_or (a : option string) (b : string) : string :=
  match a with
  | Some s => if String.eqb s "" then b else s
  | None => b
  end.

(** Stage 1: face descriptors. *)
Definition face_stage (faceDetectionLoaded : bool)
    (profiles : list AttendeeProfile.t) (cap : Capture)
  : option Float32Array * MatchResult :=
  if faceDetectionLoaded then
    let faceDescriptor := detectFaceFromImage faceDetectionLoaded (detected cap) in
    match faceDescriptor with
    | Some _ =>
        let existingDescriptors :=
          flat_map (fun p =>
                      match AttendeeProfile.faceDescriptor p with
                      | Some d => [(AttendeeProfile.id p, d)]
                      | None => []
                      end) profiles in
        if Nat.ltb 0 (length existingDescriptors) then
          let result := findMatchingFace faceDetectionLoaded faceDescriptor
                          existingDescriptors in
          (faceDescriptor, if isMatch result then result else noMatch)
        else (faceDescriptor, noMatch)
    | None => (None, noMatch)
    end
  else (None, noMatch).

(** Stage 2: image features, tried when stage 1 found no match. *)
Definition image_stage (imageMatchingLoaded : bool)
    (profiles : list AttendeeProfile.t) (cap : Capture) (matchResult : MatchResult)
  : result (option Float32Array * MatchResult) :=
  if negb (isMatch matchResult) then
    if imageMatchingLoaded then
      imageFeatures <- extractImageFeatures imageMatchingLoaded (extracted cap) ;;
      match imageFeatures with
      | Some _ =>
          let existingImages := getImageFeatures profiles in
          let imageMatchResult :=
            findMatchingImage imageMatchingLoaded imageFeatures existingImages in
          Ok (imageFeatures,
              if isMatch imageMatchResult then imageMatchResult else matchResult)
      | None => Ok (None, matchResult)
      end
    else Ok (None, matchResult)
  else Ok (None, matchResult).

Definition simple_threshold : number := Num (8 / 10).

(** Stage 3: pixel comparison against every profile's last image. *)
Definition simple_stage (profiles : list AttendeeProfile.t) (cap : Capture)
    (matchResult : MatchResult) : MatchResult :=
  if (negb (isMatch matchResult) && Nat.ltb 0 (length profiles))%bool then
    let bestSimpleMatch :=
      fold_left
        (fun best profile =>
           if negb (String.eqb (AttendeeProfile.lastImage profile) "") then
             let similarity :=
               simpleImageCompare cap (imageData cap) (AttendeeProfile.lastImage profile) in
             if JS.gt similarity (best_confidence best)
             then {| best_id := AttendeeProfile.id profile; best_confidence := similarity |}
             else best
           else best)
        profiles {| best_id := ""; best_confidence := Num 0 |} in
    if JS.gt (best_confidence bestSimpleMatch) simple_threshold
    then {| isMatch := true;
            confidence := best_confidence bestSimpleMatch;
            attendeeId := Some (best_id bestSimpleMatch) |}
    else matchResult
  else matchResult.

Definition sameDay_threshold : number := Num (7 / 10).

(** The same-day validation of an EXIT.  [getTodayEntryRecord] is the
    binding the component destructures from the store: [None] when the
    store has no such member, and calling it is then a [TypeError].
    The result tells whether the run goes on. *)
Definition sameDay_validation
    (getTodayEntryRecord : option (string -> option AttendanceRecord.t))
    (cap : Capture) (userId : string) (entryType : EntryType) : result bool :=
  match entryType with
  | EXIT =>
      match getTodayEntryRecord with
      | None => Throw TypeError
      | Some lookup =>
          match lookup userId with
          | Some todayEntry =>
              let similarity :=
                simpleImageCompare cap (imageData cap) (AttendanceRecord.image todayEntry) in
              if JS.lt similarity sameDay_threshold then Ok false else Ok true
          | None => Ok true
          end
      end
  | ENTRY => Ok true
  end.

(** [{ ...existing, lastImage, currentStatus, lastEntry | lastExit,
       imageFeatures: imageFeatures || existing.imageFeatures,
       faceDescriptor: faceDescriptor || existing.faceDescriptor }] *)
Definition returning_profile (existing : AttendeeProfile.t) (cap : Capture)
    (entryType : EntryType) (imageFeatures faceDescriptor : option Float32Array)
  : AttendeeProfile.t :=
  AttendeeProfile.mk
    (AttendeeProfile.id existing)
    (AttendeeProfile.name existing)
    (AttendeeProfile.email existing)
    (imageData cap)
    (or_else imageFeatures (AttendeeProfile.imageFeatures existing))
    (or_else faceDescriptor (AttendeeProfile.faceDescriptor existing))
    (match entryType with ENTRY => IN | EXIT => OUT end)
    (match entryType with
     | ENTRY => Some (Time (profile_time cap))
     | EXIT => AttendeeProfile.lastEntry existing
     end)
    (match entryType with
     | ENTRY => AttendeeProfile.lastExit existing
     | EXIT => Some (Time (profile_time cap))
     end).

(** The transition of a known attendee: toggle, validate, update. *)
Definition known_attendee getTodayEntryRecord (cap : Capture)
    (existing : AttendeeProfile.t) (userId : string)
    (imageFeatures faceDescriptor : option Float32Array)
  : result (option (EntryType * AttendeeProfile.t)) :=
  let entryType :=
    match AttendeeProfile.currentStatus existing with
    | OUT => ENTRY
    | IN => EXIT
    end in
  goes_on <- sameDay_validation getTodayEntryRecord cap userId entryType ;;
  if goes_on
  then Ok (Some (entryType,
                 returning_profile existing cap entryType imageFeatures faceDescriptor))
  else Ok None.

(** Identity and transition: [None] when the same-day validation turns
    the capture away. *)
Definition resolve getTodayEntryRecord (profiles : list AttendeeProfile.t)
    (currentUser : CurrentUser) (cap : Capture) (matchResult : MatchResult)
    (imageFeatures faceDescriptor : option Float32Array)
  : result (option (EntryType * AttendeeProfile.t)) :=
  let matched :=
    if isMatch matchResult then
      match attendeeId matchResult with
      | Some id => if String.eqb id "" then None else Some id
      | None => None
      end
    else None in
  match matched with
  | Some userId =>
      match getProfile profiles userId with
      | Some existingProfile =>
          known_attendee getTodayEntryRecord cap existingProfile userId
            imageFeatures faceDescriptor
      | None => Throw TypeError
      end
  | None =>
      let existingProfileByEmail :=
        find (fun p =>
                match user_email currentUser with
                | Some e => String.eqb (toLowerCase (AttendeeProfile.email p)) (toLowerCase e)
                | None => false
                end) profiles in
      match existingProfileByEmail with
      | Some existing =>
          known_attendee getTodayEntryRecord cap existing (AttendeeProfile.id existing)
            imageFeatures faceDescriptor
      | None =>
          Ok (Some (ENTRY,
                    AttendeeProfile.mk
                      (new_userId cap)
                      (string_or (user_name currentUser) "Unknown User")
                      (string_or (user_email currentUser) "unknown@example.com")
                      (imageData cap)
                      imageFeatures
                      faceDescriptor
                      IN
                      (Some (Time (profile_time cap)))
                      None))
      end
  end.

(** A complete profile passed where a partial one is expected. *)
Definition whole (p : AttendeeProfile.t) : ProfileData.t :=
  ProfileData.mk
    (AttendeeProfile.id p)
    (Given (AttendeeProfile.name p))
    (Given (AttendeeProfile.email p))
    (Given (AttendeeProfile.lastImage p))
    (Given (AttendeeProfile.imageFeatures p))
    (Given (AttendeeProfile.faceDescriptor p))
    (Given (AttendeeProfile.currentStatus p))
    (Given (AttendeeProfile.lastEntry p))
    (Given (AttendeeProfile.lastExit p)).

(** One run of [processAttendance] in a render whose store state is
    [store]: its outcome and the store effects it requests. *)
Definition processAttendance (P : Platform) (store : Store)
    (getTodayEntryRecord : option (string -> option AttendanceRecord.t))
    (currentUser : CurrentUser) (faceDetectionLoaded imageMatchingLoaded : bool)
    (cap : Capture) : Outcome * list Effect :=
  if negb (imageLoads cap) then (ImageError, [])
  else
    let profiles := profiles store in
    let '(faceDescriptor, matchResult) := face_stage faceDetectionLoaded profiles cap in
    match image_stage imageMatchingLoaded profiles cap matchResult with
    | Throw e => (Uncaught e, [])
    | Ok (imageFeatures, matchResult) =>
        let matchResult := simple_stage profiles cap matchResult in
        match resolve getTodayEntryRecord profiles currentUser cap matchResult
                imageFeatures faceDescriptor with
        | Throw e => (Uncaught e, [])
        | Ok None => (CheckoutFailed, [])
        | Ok (Some (entryType, profileData)) =>
            let '(record, recordEffects) :=
              addRecord P (records store)
                (NewRecord.mk (AttendeeProfile.name profileData)
                   (AttendeeProfile.email profileData)
                   (imageData cap) entryType imageFeatures faceDescriptor)
                (record_id cap) (record_time cap) in
            (Complete record profileData,
             recordEffects ++ updateProfile P profiles (whole profileData))
        end
    end.

(** The component as written: [getTodayEntryRecord] is destructured from
    [useAttendanceStore()], whose returned object has no member of that
    name ([useAttendanceStore_returns]), so the binding is [undefined]. *)
Definition AttendanceTracker_processAttendance (P : Platform) (store : Store) :=
  processAttendance P store None.

(** The two values the component derives from the store at each render:
    [getRecentRecords(20)] and
    [profiles.filter(p => p.currentStatus === 'IN').length]. *)
Definition recentRecords (store : Store) : list AttendanceRecord.t :=
  getRecentRecords (records store) (Some 20%nat).

Definition currentlyPresent (store : Store) : nat :=
  length (filter (fun p =>
                    match AttendeeProfile.currentStatus p with
                    | IN => true
                    | OUT => false
                    end) (profiles store)).

(** [handleClearData]: the store is asked to clear. *)
Definition handleClearData : list Effect := clearAllData.

(** ** The form ([AttendanceForm]) and its handler in the component *)

Record FormData := {
  form_name : string;
  form_email : string
}.

(** [String.prototype.trim]: the white space and the line terminators
    among the characters U+0000 to U+00FF are tab, line feed, vertical
    tab, form feed, carriage return, space and the no-break space
    U+00A0. *)
Definition is_white_space (c : ascii) : bool :=
  let n := N_of_ascii c in
  (N.eqb n 32 || (N.leb 9 n && N.leb n 13) || N.eqb n 160)%bool.

Fixpoint trimStart (s : string) : string :=
  match s with
  | EmptyString => EmptyString
  | String c s' => if is_white_space c then trimStart s' else s
  end.

Fixpoint trimEnd (s : string) : string :=
  match s with
  | EmptyString => EmptyString
  | String c s' =>
      match trimEnd s' with
      | EmptyString => if is_white_space c then EmptyString else String c EmptyString
      | rest => String c rest
      end
  end.

Definition trim (s : string) : string := trimStart (trimEnd s).

(** [s.includes(sub)] *)
Fixpoint includes (s sub : string) : bool :=
  (String.prefix sub s ||
   match s with
   | EmptyString => false
   | String _ s' => includes s' sub
   end)%bool.

(** A string used as a condition. *)
Definition truthy_string (s : string) : bool := negb (String.eqb s "").

(** [isValid], which enables the submit button. *)
Definition isValid (formData : FormData) : bool :=
  (truthy_string (trim (form_name formData)) &&
   truthy_string (trim (form_email formData)) &&
   includes (form_email formData) "@")%bool.

(** [handleSubmit]: what [onSubmit] is called with, if it is called. *)
Definition handleSubmit (formData : FormData) : option FormData :=
  if (truthy_string (trim (form_name formData)) &&
      truthy_string (trim (form_email formData)))%bool
  then Some formData
  else None.

Inductive Step := form | capture | processing | complete.

(** [handleFormSubmit] of the component, the form's [onSubmit]:
    [setCurrentUser(formData); setStep('capture')]. *)
Definition handleFormSubmit (formData : FormData) : CurrentUser * Step :=
  ({| user_name := Some (form_name formData);
      user_email := Some (form_email formData) |},
   capture).

(** ** The input tensor of the feature extractor ([extractImageFeatures]) *)

(** [pixels[k] = v] on a typed array: a write past the end is ignored. *)
Fixpoint typed_store (pixels : Float32Array) (k : nat) (v : number) : Float32Array :=
  match pixels, k with
  | [], _ => []
  | _ :: rest, O => v :: rest
  | x :: rest, S k' => x :: typed_store rest k' v
  end.

(** The loop [for (let i = 0; i < imageData.data.length; i += 4)];
    [data] is the array from index [i] on, [pixelIndex] is [i / 4] and
    [plane] is [size * size]. *)
Fixpoint normalise (plane : nat) (data : Uint8ClampedArray) (pixelIndex : nat)
    (pixels : Float32Array) : Float32Array :=
  match data with
  | [] => pixels
  | _ :: rest =>
      let pixels :=
        typed_store pixels pixelIndex (JS.div (element data 0) (Num 255)) in
      let pixels :=
        typed_store pixels (pixelIndex + plane) (JS.div (element data 1) (Num 255)) in
      let pixels :=
        typed_store pixels (pixelIndex + plane * 2)
          (JS.div (element data 2) (Num 255)) in
      match rest with
      | _ :: _ :: _ :: data' => normalise plane data' (S pixelIndex) pixels
      | _ => pixels
      end
  end.

(** What the extractor is called with, [size] being 224: a new
    [Float32Array(size * size * 3)], zero-filled, after the loop. *)
Definition input_tensor (data : Uint8ClampedArray) : Float32Array :=
  normalise (224 * 224) data 0 (repeat (Num 0) (224 * 224 * 3)).

(** ** Loaded objects read at their declared types

    [setRecords(parsedRecords)] and [setProfiles(parsedProfiles)] take the
    loaded objects for [AttendanceRecord]s and [AttendeeProfile]s without
    a check.  The readings below say when a loaded object is one. *)

Definition get_value (o : object) (k : string) : value :=
  match assoc k o with
  | Some v => v
  | None => VUndefined
  end.

Definition as_string (v : value) : option string :=
  match v with
  | VJson (JStr s) => Some s
  | _ => None
  end.

Definition as_instant (v : value) : option Date :=
  match v with
  | VDate d => Some d
  | _ => None
  end.


Definition as_optional_vector (v : value) : option (option Float32Array) :=
  match v with
  | VFloat32Array a => Some (Some a)
  | VUndefined => Some None
  | _ => None
  end.

Definition as_EntryType (v : value) : option EntryType :=
  match as_string v with
  | Some s =>
      if String.eqb s "ENTRY" then Some ENTRY
      else if String.eqb s "EXIT" then Some EXIT else None
  | None => None
  end.


Definition obind {A B} (o : option A) (k : A -> option B) : option B :=
  match o with
  | Some a => k a
  | None => None
  end.

Definition as_AttendanceRecord (o : object) : option AttendanceRecord.t :=
  obind (as_string (get_value o "id")) (fun id =>
  obind (as_string (get_value o "name")) (fun name =>
  obind (as_string (get_value o "email")) (fun email =>
  obind (as_string (get_value o "image")) (fun image =>
  obind (as_instant (get_value o "timestamp")) (fun timestamp =>
  obind (as_EntryType (get_value o "type")) (fun type =>
  obind (as_optional_vector (get_value o "imageFeatures")) (fun imageFeatures =>
  obind (as_optional_vector (get_value o "faceDescriptor")) (fun faceDescriptor =>
  Some (AttendanceRecord.mk id name email image timestamp type
          imageFeatures faceDescriptor))))))))).


(** Every element of every vector present is a finite number. *)
Definition finite_vector (v : option Float32Array) : Prop :=
  match v with
  | Some a => Forall (fun x => JS.is_finite x = true) a
  | None => True
  end.





(** [setItem] takes the serialisation of the two collections: neither
    of the two writes throws. *)
Definition written (P : Platform) (s : Store) : Prop :=
  setItem_throws P RECORDS (Json (JArr (map (stringify_record P) (records s))))
  = false /\
  setItem_throws P PROFILES (Json (JArr (map (stringify_profile P) (profiles s))))
  = false.

(** The storage after [saveRecords] and [saveProfiles] of the two
    collections. *)
Definition persisted (P : Platform) (s : Store) : LocalStorage :=
  localStorage
    (rerender {| state := s;
                 localStorage := {| attendance_records := None;
                                    attendee_profiles := None |} |}
       (saveRecords P (records s) ++ saveProfiles P (profiles s))).

(** ** A platform for the examples

    Closed examples need one platform.  In this one the date-time text of
    an instant is stood for by the letter T followed by the decimal
    rendering of its milliseconds, and the coercions of ill-typed leaves
    are constant; no statement below depends on that choice. *)

Definition example_toISOString (ms : Z) : string :=
  String "T" (NilEmpty.string_of_int (Z.to_int ms)).

Definition example_Date_parse (s : string) : Date :=
  match s with
  | String "T" digits =>
      match NilEmpty.int_of_string digits with
      | Some d => Time (Z.of_int d)
      | None => InvalidDate
      end
  | _ => InvalidDate
  end.

Definition example_platform : Platform.
Proof.
  refine {| toISOString := example_toISOString;
            Date_parse := example_Date_parse;
            StringToNumber := fun _ => NaN;
            ObjectToNumber := fun _ => NaN;
            ObjectToDate := fun _ => InvalidDate;
            TypedArrayFrom := fun _ => Ok [];
            setItem_throws := fun _ _ => false |}.
  - intros ms. unfold example_Date_parse, example_toISOString.
    rewrite NilEmpty.isi, DecimalZ.of_to. reflexivity.
  - intros ms. discriminate.
Defined.

(** The same platform over a storage that takes no write: every
    [setItem] throws (the quota is exceeded). *)
Definition full_storage_platform : Platform :=
  {| toISOString := toISOString example_platform;
     Date_parse := Date_parse example_platform;
     Date_parse_toISOString := Date_parse_toISOString example_platform;
     toISOString_nonempty := toISOString_nonempty example_platform;
     StringToNumber := StringToNumber example_platform;
     ObjectToNumber := ObjectToNumber example_platform;
     ObjectToDate := ObjectToDate example_platform;
     TypedArrayFrom := TypedArrayFrom example_platform;
     setItem_throws := fun _ _ => true |}.

(** ** Notions and data used in the statements *)

(** The dot product and the cosine similarity of two real vectors. *)
Fixpoint dot (xs ys : list R) : R :=
  match xs, ys with
  | x :: xs', y :: ys' => (x * y + dot xs' ys')%R
  | _, _ => 0%R
  end.

Definition cosineSimilarity (xs ys : list R) : R :=
  (dot xs ys / (sqrt (dot xs xs) * sqrt (dot ys ys)))%R.

(** Two one-element vectors. *)
Definition unit_vector : Float32Array := [Num 1].

Definition zero_vector : Float32Array := [Num 0].

(** The profile of Ann, who is IN since instant 5. *)
Definition ann : AttendeeProfile.t :=
  AttendeeProfile.mk "a" "Ann" "ann@x.com" "data:image/jpeg;base64,ann"
    None None IN (Some (Time 5)) None.



(** The profile of Cara, who is OUT and has image features, and a
    store with the two profiles. *)
Definition cara : AttendeeProfile.t :=
  AttendeeProfile.mk "c" "Cara" "cara@x.com" "data:image/jpeg;base64,cara"
    (Some [Num 1]) None OUT (Some (Time 1)) (Some (Time 2)).

(** [{ id: 'c', currentStatus: 'IN', lastEntry: new Date(8) }] *)
Definition cara_checks_in : ProfileData.t :=
  ProfileData.mk "c" Missing Missing Missing Missing Missing
    (Given IN) (Given (Some (Time 8))) Missing.

(** [{ id: 'd', name: 'Dan' }] *)
Definition dan_named : ProfileData.t :=
  ProfileData.mk "d" (Given "Dan") Missing Missing Missing Missing
    Missing Missing Missing.

(** One insertion: what [addRecord] is given, and the id and time the
    platform hands out during the call. *)
Definition Insertion : Type := NewRecord.t * string * Z.

Definition inserted (P : Platform) (w : World) (i : Insertion) :=
  let '(record, uuid, now) := i in
  addRecord P (records (state w)) record uuid now.

(** Insertions made one per render: each call is made on the hook as
    re-rendered after the previous one. *)
Definition insert_each_render (P : Platform) (w : World) (l : list Insertion)
  : World :=
  fold_left (fun w i => rerender w (snd (inserted P w i))) l w.

(** Insertions made from one render: every call uses the [addRecord] of
    that render, which closes over its [records]. *)
Definition insert_same_render (P : Platform) (w : World) (l : list Insertion)
  : World :=
  rerender w (flat_map (fun i => snd (inserted P w i)) l).

(** The record built from an insertion. *)
Definition record_of (i : Insertion) : AttendanceRecord.t :=
  let '(record, uuid, now) := i in
  AttendanceRecord.mk uuid (NewRecord.name record) (NewRecord.email record)
    (NewRecord.image record) (Time now) (NewRecord.type record)
    (NewRecord.imageFeatures record) (NewRecord.faceDescriptor record).

(** A freshly mounted hook over an empty storage. *)
Definition empty_world : World :=
  {| state := {| records := []; profiles := [] |};
     localStorage := {| attendance_records := None; attendee_profiles := None |} |}.

(** Two insertions, in the manner of the integration test. *)
Definition user0 : Insertion :=
  (NewRecord.mk "User 0" "user0@example.com" "data:image/jpeg;base64,user0"
     ENTRY None None, "uuid-0", 1000%Z).

Definition user1 : Insertion :=
  (NewRecord.mk "User 1" "user1@example.com" "data:image/jpeg;base64,user1"
     EXIT None None, "uuid-1", 2000%Z).

(** The record of Ann's entry of today, and the store holding it with
    her profile. *)
Definition ann_entry : AttendanceRecord.t :=
  AttendanceRecord.mk "r1" "Ann" "ann@x.com" "data:image/jpeg;base64,ann"
    (Time 5) ENTRY None None.

Definition ann_present : Store :=
  {| records := [ann_entry]; profiles := [ann] |}.

(** The form as Ann fills it in. *)
Definition ann_form : CurrentUser :=
  {| user_name := Some "Ann"; user_email := Some "ann@x.com" |}.

(** A capture whose pixel similarity to Ann's stored image is 0.9; no
    extractor is loaded, so she is matched by the pixel comparison. *)
Definition ann_leaving : Capture :=
  {| imageData := "data:image/jpeg;base64,ann2";
     imageLoads := true;
     detected := None;
     extracted := Ok None;
     simpleImageCompare := fun _ _ => Num (9 / 10);
     new_userId := "uuid-profile";
     profile_time := 6%Z;
     record_id := "uuid-record";
     record_time := 7%Z |}.

(** Ann's first capture: no extractor is loaded and nothing is stored. *)
Definition ann_arriving : Capture :=
  {| imageData := "data:image/jpeg;base64,ann";
     imageLoads := true;
     detected := None;
     extracted := Ok None;
     simpleImageCompare := fun _ _ => Num 0;
     new_userId := "uuid-profile";
     profile_time := 4%Z;
     record_id := "uuid-record";
     record_time := 5%Z |}.

(** A record of an earlier visit of Cara, with image features, and a
    store with two records and two profiles. *)
Definition cara_visit : AttendanceRecord.t :=
  AttendanceRecord.mk "r0" "Cara" "cara@x.com" "data:image/jpeg;base64,cara"
    (Time 1) ENTRY (Some [Num 1]) None.

Definition front_desk : Store :=
  {| records := [ann_entry; cara_visit]; profiles := [ann; cara] |}.

(** A world that holds this store, saved.  Cara comes back: the
    extractor is loaded and gives her capture the features stored with
    her profile.  The record of her entry, and her profile after it. *)
Definition front_desk_world : World :=
  {| state := front_desk; localStorage := persisted example_platform front_desk |}.

Definition cara_form : CurrentUser :=
  {| user_name := Some "Cara"; user_email := Some "cara@x.com" |}.

Definition cara_arriving : Capture :=
  {| imageData := "data:image/jpeg;base64,cara2";
     imageLoads := true;
     detected := None;
     extracted := Ok (Some unit_vector);
     simpleImageCompare := fun _ _ => Num 0;
     new_userId := "uuid-profile";
     profile_time := 8%Z;
     record_id := "uuid-record";
     record_time := 9%Z |}.

Definition cara_entry : AttendanceRecord.t :=
  AttendanceRecord.mk "uuid-record" "Cara" "cara@x.com" "data:image/jpeg;base64,cara2"
    (Time 9) ENTRY (Some unit_vector) None.

Definition cara_present : AttendeeProfile.t :=
  AttendeeProfile.mk "c" "Cara" "cara@x.com" "data:image/jpeg;base64,cara2"
    (Some unit_vector) None IN (Some (Time 8)) (Some (Time 2)).

(** What the run of her capture asks of the store. *)
Definition cara_effects : list Effect :=
  setRecords (cara_entry :: records front_desk)
  :: saveRecords example_platform (cara_entry :: records front_desk)
  ++ setProfiles [ann; cara_present]
  :: saveProfiles example_platform [ann; cara_present].

(** A record whose timestamp is an Invalid Date, as the loader makes of
    a stored object without a timestamp. *)
Definition undated_record : AttendanceRecord.t :=
  AttendanceRecord.mk "r1" "Ann" "ann@x.com" "data:image/jpeg;base64,ann"
    InvalidDate ENTRY None None.





(** The records entry holds Ann's record as saved, the profiles entry a
    text that is not JSON. *)
Definition profiles_corrupt_storage : LocalStorage :=
  {| attendance_records :=
       attendance_records (persisted example_platform ann_present);
     attendee_profiles := Some (NotJSON "invalid json data") |}.


(** The lookup the component expects from the store, as a store that
    knew of Ann's entry of today would answer it. *)
Definition lookup_today (attendeeId : string) : option AttendanceRecord.t :=
  if String.eqb attendeeId "a" then Some ann_entry else None.

(** Ann, recognised by her email, with the given pixel similarity. *)
Definition ann_leaving_with (similarity : R) : Capture :=
  {| imageData := "data:image/jpeg;base64,ann2";
     imageLoads := true;
     detected := None;
     extracted := Ok None;
     simpleImageCompare := fun _ _ => Num similarity;
     new_userId := "uuid-profile";
     profile_time := 6%Z;
     record_id := "uuid-record";
     record_time := 7%Z |}.

(** The squared Euclidean distance of two real vectors. *)
Fixpoint squaredDistance (xs ys : list R) : R :=
  match xs, ys with
  | x :: xs', y :: ys' => ((x - y) * (x - y) + squaredDistance xs' ys')%R
  | _, _ => 0%R
  end.

(** What [getImageData(0, 0, 64, 64)] can read: four bytes for each of
    the 64 x 64 pixels. *)
Definition canvas_data (image : option Uint8ClampedArray) : Prop :=
  match image with
  | Some data =>
      length data = (4 * (64 * 64))%nat /\
      Forall (fun byte => (0 <= byte <= 255)%Z) data
  | None => True
  end.

(** Two canvases of one colour: all bytes 0, all bytes 255. *)
Definition black_canvas : Uint8ClampedArray := repeat 0%Z (4 * (64 * 64)).

Definition white_canvas : Uint8ClampedArray := repeat 255%Z (4 * (64 * 64)).


(** A capture on which the feature extractor's promise rejects. *)
Definition rejected_capture : Capture :=
  {| imageData := "data:image/jpeg;base64,ann";
     imageLoads := true;
     detected := None;
     extracted := Throw OtherError;
     simpleImageCompare := fun _ _ => Num 0;
     new_userId := "uuid-profile";
     profile_time := 4%Z;
     record_id := "uuid-record";
     record_time := 5%Z |}.

(** One colour channel (0 red, 1 green, 2 blue) of RGBA bytes, each
    byte divided by 255. *)
Fixpoint channel (c : nat) (data : Uint8ClampedArray) : Float32Array :=
  match data with
  | r :: g :: b :: _ :: data' =>
      Num (IZR (match c with O => r | S O => g | _ => b end) / 255)
      :: channel c data'
  | _ => []
  end.

(** A form as Ann submits it. *)
Definition ann_submits : FormData :=
  {| form_name := "Ann"; form_email := "ann@x.com" |}.

(** A number between 0 and 1. *)
Definition in_unit_interval (a : number) : Prop :=
  exists x, a = Num x /\ (0 <= x <= 1)%R.

(** * Properties *)

(** ** Comparison of numbers *)

Ltac real_cases :=
  repeat match goal with
         | |- context [Rlt_dec ?a ?b] => destruct (Rlt_dec a b)
         | H : context [Rlt_dec ?a ?b] |- _ => destruct (Rlt_dec a b)
         | |- context [Req_dec_T ?a ?b] => destruct (Req_dec_T a b)
         | H : context [Req_dec_T ?a ?b] |- _ => destruct (Req_dec_T a b)
         end.

Lemma lt_irrefl (a : number) : JS.lt a a = false.
Proof.
  destruct a as [|s|x]; simpl; try reflexivity.
  - destruct s; reflexivity.
  - real_cases; [lra | reflexivity].
Qed.

Lemma lt_trans (a b c : number) :
  JS.lt a b = true -> JS.lt b c = true -> JS.lt a c = true.
Proof.
  destruct a as [|s|x], b as [|t|y], c as [|u|z]; simpl;
    try destruct s; try destruct t; try destruct u; simpl;
    try congruence; real_cases; try congruence; lra.
Qed.

(** ** The scan of the matchers *)

Section Scan.

Variable compare : option Float32Array -> option Float32Array -> number.
Variable query : Float32Array.

Let step := forEach_step compare query.
Let conf (entry : string * Float32Array) := compare (Some query) (Some (snd entry)).

(** A later [bestMatch] never has a smaller confidence. *)
Lemma step_above (b : BestMatch) entry x :
  JS.lt (best_confidence (step b entry)) x = true ->
  JS.lt (best_confidence b) x = true.
Proof.
  unfold step, forEach_step. destruct entry as [id v].
  destruct (JS.gt _ _) eqn:G; simpl; auto.
  intros H. unfold JS.gt in G. eapply lt_trans; eauto.
Qed.

Lemma fold_above catalog : forall (b : BestMatch) x,
  JS.lt (best_confidence (fold_left step catalog b)) x = true ->
  JS.lt (best_confidence b) x = true.
Proof.
  induction catalog as [|e l IH]; simpl; intros b x H; auto.
  apply IH in H. eapply step_above; eauto.
Qed.

(** No entry of the catalog beats the final [bestMatch]. *)
Lemma fold_maximal catalog : forall (b : BestMatch) entry,
  In entry catalog ->
  JS.gt (conf entry) (best_confidence (fold_left step catalog b)) = false.
Proof.
  induction catalog as [|e l IH]; simpl; intros b entry HIn; [tauto|].
  destruct HIn as [->|HIn]; [|auto].
  destruct (JS.gt _ _) eqn:G; auto.
  unfold JS.gt in G. apply fold_above in G.
  unfold step, forEach_step, conf in *. destruct entry as [id v]. simpl in *.
  destruct (JS.gt (compare (Some query) (Some v)) (best_confidence b)) eqn:G'; simpl in G.
  - rewrite lt_irrefl in G. discriminate.
  - unfold JS.gt in G'. congruence.
Qed.

(** The final [bestMatch] is the initial one or comes from an entry. *)
Lemma fold_origin catalog : forall (b : BestMatch),
  fold_left step catalog b = b \/
  exists id v, In (id, v) catalog /\
    fold_left step catalog b =
      {| best_id := id; best_confidence := compare (Some query) (Some v) |}.
Proof.
  induction catalog as [|e l IH]; simpl; intros b; auto.
  destruct (IH (step b e)) as [E | (id & v & HIn & E)].
  - rewrite E. unfold step, forEach_step. destruct e as [id v].
    destruct (JS.gt _ _); auto. right. exists id, v. auto.
  - right. exists id, v. auto.
Qed.

Lemma step_not_NaN (b : BestMatch) entry :
  JS.is_NaN (best_confidence b) = false ->
  JS.is_NaN (best_confidence (step b entry)) = false.
Proof.
  unfold step, forEach_step. destruct entry as [id v].
  destruct (JS.gt _ _) eqn:G; simpl; auto.
  intros _. unfold JS.gt in G.
  destruct (compare (Some query) (Some v)); simpl in *; auto.
  destruct (best_confidence b) as [|[]|]; discriminate.
Qed.

(** Below a number that is not [NaN]: not above means at most. *)
Lemma not_above_below (t c bc : number) :
  JS.is_NaN bc = false ->
  JS.lt t c = true -> JS.lt bc c = false -> JS.lt t bc = true.
Proof.
  destruct t as [|s|x], c as [|u|z], bc as [|w|y]; simpl;
    try destruct s; try destruct u; try destruct w; simpl;
    try congruence; real_cases; try congruence; intros; lra.
Qed.

(** The final confidence exceeds [t] exactly when the initial one or
    that of some entry does. *)
Lemma fold_exceeds catalog t : forall (b : BestMatch),
  JS.is_NaN (best_confidence b) = false ->
  (JS.gt (best_confidence (fold_left step catalog b)) t = true <->
   JS.gt (best_confidence b) t = true \/
   exists entry, In entry catalog /\ JS.gt (conf entry) t = true).
Proof.
  induction catalog as [|e l IH]; simpl; intros b Hb.
  - split; [auto | intros [H | (x & [] & _)]; auto].
  - rewrite (IH _ (step_not_NaN b e Hb)).
    unfold step, forEach_step, conf. destruct e as [id v]. simpl.
    destruct (JS.gt (compare (Some query) (Some v)) (best_confidence b)) eqn:G; simpl.
    + split.
      * intros [H | (x & HIn & H)]; right.
        -- exists (id, v). auto.
        -- exists x. auto.
      * intros [H | (x & [<- | HIn] & H)]; simpl in *.
        -- left. unfold JS.gt in *. eapply lt_trans; eauto.
        -- auto.
        -- right. exists x. auto.
    + split.
      * intros [H | (x & HIn & H)]; [auto|]. right. exists x. auto.
      * intros [H | (x & [<- | HIn] & H)]; simpl in *.
        -- auto.
        -- left. unfold JS.gt in *. eapply not_above_below; eauto.
        -- right. exists x. auto.
Qed.

End Scan.

Arguments JS.gt : simpl never.
Arguments face_threshold : simpl never.
Arguments image_threshold : simpl never.

Ltac js_unfold :=
  unfold face_threshold, image_threshold in *;
  unfold JS.gt, JS.lt, JS.Math_max, JS.div, JS.mul, JS.add, JS.sub, JS.neg,
    JS.Math_sqrt, JS.sign_lt0, JS.is_zero in *.

(** A match above a threshold that is not negative comes from an entry
    of the catalog, and its confidence is that entry's. *)
Lemma best_from_catalog compare query catalog (t : R) :
  (0 <= t)%R ->
  JS.gt (best_confidence (forEach_best compare query catalog)) (Num t) = true ->
  exists vec,
    In (best_id (forEach_best compare query catalog), vec) catalog /\
    compare (Some query) (Some vec)
    = best_confidence (forEach_best compare query catalog).
Proof.
  intros Ht G. unfold forEach_best in *.
  destruct (fold_origin compare query catalog
              {| best_id := ""; best_confidence := Num 0 |})
    as [E | (id & v & HIn & E)].
  - rewrite E in G. simpl in G. js_unfold. real_cases; [lra | discriminate].
  - rewrite E. simpl. eauto.
Qed.

Lemma best_maximal compare query catalog id vec :
  In (id, vec) catalog ->
  JS.gt (compare (Some query) (Some vec))
        (best_confidence (forEach_best compare query catalog)) = false.
Proof.
  intros HIn.
  apply (fold_maximal compare query catalog
           {| best_id := ""; best_confidence := Num 0 |} (id, vec) HIn).
Qed.

Lemma best_exceeds compare query catalog (t : R) :
  (0 <= t)%R ->
  (JS.gt (best_confidence (forEach_best compare query catalog)) (Num t) = true <->
   exists id vec, In (id, vec) catalog /\
     JS.gt (compare (Some query) (Some vec)) (Num t) = true).
Proof.
  intros Ht. unfold forEach_best.
  rewrite fold_exceeds by reflexivity. simpl. split.
  - intros [H | ((id, v) & HIn & H)].
    + js_unfold. real_cases; [lra | discriminate].
    + exists id, v. auto.
  - intros (id & v & HIn & H). right. exists (id, v). auto.
Qed.

Lemma face_threshold_nonneg : (0 <= 6 / 10)%R.
Proof. lra. Qed.

Lemma image_threshold_nonneg : (0 <= 75 / 100)%R.
Proof. lra. Qed.

Lemma gt_zero_threshold (t : R) : (0 <= t)%R -> JS.gt (Num 0) (Num t) = false.
Proof. intros. js_unfold. real_cases; [lra | reflexivity]. Qed.

(** ** C10 *)

(** C10.  In the result of [findMatchingFace] and of [findMatchingImage],
    [attendeeId] is defined exactly when [isMatch] is true; when defined
    it is the id of a catalog entry whose confidence against the query is
    the reported confidence, and no catalog entry has a greater one. *)
Theorem matchers_attendeeId :
  forall (isLoaded : bool) (query : option Float32Array)
         (catalog : list (string * Float32Array)),
    ((attendeeId (findMatchingFace isLoaded query catalog) <> None <->
      isMatch (findMatchingFace isLoaded query catalog) = true) /\
     (forall id, attendeeId (findMatchingFace isLoaded query catalog) = Some id ->
        exists q vec,
          query = Some q /\ In (id, vec) catalog /\
          compareFaces (Some q) (Some vec)
          = confidence (findMatchingFace isLoaded query catalog) /\
          forall id' vec', In (id', vec') catalog ->
            JS.gt (compareFaces (Some q) (Some vec'))
                  (confidence (findMatchingFace isLoaded query catalog)) = false))
    /\
    ((attendeeId (findMatchingImage isLoaded query catalog) <> None <->
      isMatch (findMatchingImage isLoaded query catalog) = true) /\
     (forall id, attendeeId (findMatchingImage isLoaded query catalog) = Some id ->
        exists q vec,
          query = Some q /\ In (id, vec) catalog /\
          compareImages (Some q) (Some vec)
          = confidence (findMatchingImage isLoaded query catalog) /\
          forall id' vec', In (id', vec') catalog ->
            JS.gt (compareImages (Some q) (Some vec'))
                  (confidence (findMatchingImage isLoaded query catalog)) = false)).
Proof.
  intros isLoaded query catalog.
  split.
  - unfold findMatchingFace.
    destruct query as [q|]; [destruct isLoaded|];
      cbn [negb isMatch confidence attendeeId noMatch];
      try (split; [split; [congruence | discriminate] | discriminate]).
    destruct (JS.gt (best_confidence (forEach_best compareFaces q catalog))
                face_threshold) eqn:G.
    + split; [split; [reflexivity | discriminate]|].
      intros id E. injection E as <-.
      destruct (best_from_catalog compareFaces q catalog face_threshold_nonneg G)
        as (vec & HIn & Hc).
      exists q, vec. repeat split; auto.
      intros id' vec' HIn'. eapply best_maximal; eauto.
    + split; [split; [congruence | discriminate] | discriminate].
  - unfold findMatchingImage.
    destruct query as [q|]; [destruct isLoaded|];
      cbn [negb isMatch confidence attendeeId noMatch];
      try (split; [split; [congruence | discriminate] | discriminate]).
    destruct (JS.gt (best_confidence (forEach_best compareImages q catalog))
                image_threshold) eqn:G.
    + split; [split; [reflexivity | discriminate]|].
      intros id E. injection E as <-.
      destruct (best_from_catalog compareImages q catalog image_threshold_nonneg G)
        as (vec & HIn & Hc).
      exists q, vec. repeat split; auto.
      intros id' vec' HIn'. eapply best_maximal; eauto.
    + split; [split; [congruence | discriminate] | discriminate].
Qed.

(** ** C2 *)

Lemma compareImages_same_unit :
  compareImages (Some unit_vector) (Some unit_vector) = Num 1.
Proof.
  unfold compareImages, unit_vector. cbn [length Nat.eqb negb accumulate].
  cbn [JS.add JS.mul].
  replace (0 + 1 * 1)%R with 1%R by lra.
  unfold JS.Math_sqrt, JS.sign_lt0.
  destruct (Rlt_dec 1 0); [lra|].
  rewrite sqrt_1. cbn [JS.mul].
  unfold JS.div, JS.is_zero.
  destruct (Req_dec_T (1 * 1) 0); [lra|].
  cbn [JS.add].
  destruct (Req_dec_T 2 0); [lra|].
  unfold JS.Math_max, JS.lt.
  destruct (Rlt_dec 0 ((1 / (1 * 1) + 1) / 2)).
  - f_equal. field.
  - exfalso. apply n1. replace ((1 / (1 * 1) + 1) / 2)%R with 1%R by field. lra.
Qed.

Lemma compareFaces_same_unit :
  compareFaces (Some unit_vector) (Some unit_vector) = Num 1.
Proof.
  unfold compareFaces, euclideanDistance, unit_vector.
  cbn [length Nat.eqb negb combine map fold_left JS.sub JS.neg JS.add JS.mul].
  replace (0 + (1 + - (1)) * (1 + - (1)))%R with 0%R by lra.
  unfold JS.Math_sqrt, JS.sign_lt0.
  destruct (Rlt_dec 0 0); [lra|].
  rewrite sqrt_0. cbn [JS.sub JS.neg JS.add].
  unfold JS.Math_max, JS.lt.
  destruct (Rlt_dec 0 (1 + - 0)).
  - f_equal. lra.
  - exfalso. lra.
Qed.

(** Cara's capture at the front desk: the embedding stage names her,
    and the run completes with the record of her entry. *)
Lemma cara_recognised :
  image_stage true (profiles front_desk) cara_arriving noMatch
  = Ok (Some unit_vector,
        {| isMatch := true; confidence := Num 1; attendeeId := Some "c" |}).
Proof.
  unfold image_stage, findMatchingImage, forEach_best.
  cbn [isMatch noMatch negb extractImageFeatures extracted cara_arriving bind
       getImageFeatures profiles front_desk flat_map AttendeeProfile.imageFeatures
       AttendeeProfile.id ann cara app fold_left forEach_step best_confidence].
  change [Num 1] with unit_vector. rewrite compareImages_same_unit.
  unfold JS.gt, JS.lt, image_threshold.
  destruct (Rlt_dec 0 1) as [_|N]; [|exfalso; lra].
  cbn [best_confidence best_id].
  destruct (Rlt_dec (75 / 100) 1) as [_|N]; [|exfalso; lra].
  reflexivity.
Qed.

Lemma cara_arrives :
  processAttendance example_platform front_desk None cara_form false true cara_arriving
  = (Complete cara_entry cara_present, cara_effects).
Proof.
  unfold processAttendance.
  cbn [imageLoads cara_arriving negb face_stage].
  change (image_stage true (profiles front_desk)
            {| imageData := "data:image/jpeg;base64,cara2";
               imageLoads := true;
               detected := None;
               extracted := Ok (Some unit_vector);
               simpleImageCompare := fun _ _ => Num 0;
               new_userId := "uuid-profile";
               profile_time := 8%Z;
               record_id := "uuid-record";
               record_time := 9%Z |} noMatch)
    with (image_stage true (profiles front_desk) cara_arriving noMatch).
  rewrite cara_recognised.
  reflexivity.
Qed.

(** The claim of C2 fails when the model is not loaded: the embedding
    matcher reports no match although the only catalog entry has
    confidence 1 against the query. *)
Lemma matcher_not_loaded_counterexample :
  ~ (isMatch (findMatchingImage false (Some unit_vector) [("a", unit_vector)]) = true <->
     exists id vec, In (id, vec) [("a", unit_vector)] /\
       JS.gt (compareImages (Some unit_vector) (Some vec)) image_threshold = true).
Proof.
  intros [_ H].
  assert (E : isMatch (findMatchingImage false (Some unit_vector) [("a", unit_vector)]) = true).
  { apply H. exists "a", unit_vector. split; [left; reflexivity|].
    rewrite compareImages_same_unit. js_unfold. real_cases; [reflexivity | lra]. }
  discriminate E.
Qed.

(** C2 (amended).  With the matcher's model loaded, [isMatch] is true
    exactly when some catalog entry's confidence against the query
    strictly exceeds the threshold (0.6 for faces, 0.75 for image
    features); a reported confidence equal to the threshold is not a
    match; and a matcher that is not loaded, an absent query or an empty
    catalog give [{ isMatch: false, confidence: 0 }]. *)
Theorem matchers_threshold :
  forall (isLoaded : bool) (query : option Float32Array)
         (catalog : list (string * Float32Array)),
    ((isLoaded = true ->
      (isMatch (findMatchingFace isLoaded query catalog) = true <->
       exists q id vec, query = Some q /\ In (id, vec) catalog /\
         JS.gt (compareFaces (Some q) (Some vec)) face_threshold = true)) /\
     (confidence (findMatchingFace isLoaded query catalog) = face_threshold ->
      isMatch (findMatchingFace isLoaded query catalog) = false) /\
     (isLoaded = false \/ query = None \/ catalog = [] ->
      findMatchingFace isLoaded query catalog = noMatch))
    /\
    ((isLoaded = true ->
      (isMatch (findMatchingImage isLoaded query catalog) = true <->
       exists q id vec, query = Some q /\ In (id, vec) catalog /\
         JS.gt (compareImages (Some q) (Some vec)) image_threshold = true)) /\
     (confidence (findMatchingImage isLoaded query catalog) = image_threshold ->
      isMatch (findMatchingImage isLoaded query catalog) = false) /\
     (isLoaded = false \/ query = None \/ catalog = [] ->
      findMatchingImage isLoaded query catalog = noMatch)).
Proof.
  intros isLoaded query catalog. split.
  - unfold findMatchingFace. split; [|split].
    + intros ->. destruct query as [q|]; cbn [negb isMatch noMatch]; split.
      * intros G. apply (best_exceeds _ _ _ face_threshold_nonneg) in G.
        destruct G as (id & vec & HIn & G). exists q, id, vec. auto.
      * intros (q' & id & vec & E & HIn & G). injection E as <-.
        apply (best_exceeds _ _ _ face_threshold_nonneg). eauto.
      * discriminate.
      * intros (q' & _ & _ & E & _). discriminate.
    + destruct query as [q|]; [destruct isLoaded|];
        cbn [negb isMatch confidence noMatch]; auto.
      intros ->. unfold JS.gt. apply lt_irrefl.
    + intros [-> | [-> | ->]]; [destruct query; reflexivity | reflexivity |].
      destruct query as [q|]; [destruct isLoaded|]; cbn [negb]; try reflexivity.
      unfold forEach_best. cbn [fold_left best_confidence best_id].
      unfold face_threshold.
      rewrite (gt_zero_threshold face_threshold_nonneg). reflexivity.
  - unfold findMatchingImage. split; [|split].
    + intros ->. destruct query as [q|]; cbn [negb isMatch noMatch]; split.
      * intros G. apply (best_exceeds _ _ _ image_threshold_nonneg) in G.
        destruct G as (id & vec & HIn & G). exists q, id, vec. auto.
      * intros (q' & id & vec & E & HIn & G). injection E as <-.
        apply (best_exceeds _ _ _ image_threshold_nonneg). eauto.
      * discriminate.
      * intros (q' & _ & _ & E & _). discriminate.
    + destruct query as [q|]; [destruct isLoaded|];
        cbn [negb isMatch confidence noMatch]; auto.
      intros ->. unfold JS.gt. apply lt_irrefl.
    + intros [-> | [-> | ->]]; [destruct query; reflexivity | reflexivity |].
      destruct query as [q|]; [destruct isLoaded|]; cbn [negb]; try reflexivity.
      unfold forEach_best. cbn [fold_left best_confidence best_id].
      unfold image_threshold.
      rewrite (gt_zero_threshold image_threshold_nonneg). reflexivity.
Qed.

(** The amended statement at a loaded face matcher and a catalog holding
    the query itself. *)
Lemma matchers_threshold_witness :
  isMatch (findMatchingFace true (Some unit_vector) [("a", unit_vector)]) = true.
Proof.
  apply (proj1 (proj1 (matchers_threshold true (Some unit_vector) [("a", unit_vector)]))
           eq_refl).
  exists unit_vector, "a", unit_vector.
  split; [reflexivity|]. split; [left; reflexivity|].
  rewrite compareFaces_same_unit. unfold face_threshold, JS.gt, JS.lt.
  destruct (Rlt_dec (6 / 10) 1); [reflexivity | lra].
Defined.

(** ** C9 *)

(** C9.  [compareImages] on two vectors of equal length whose elements
    are all zero: the two norms are zero, the similarity is [0 / 0], and
    the confidence returned is [NaN], not a value in [0, 1]. *)
Theorem compareImages_zero_vector :
  compareImages (Some zero_vector) (Some zero_vector) = NaN.
Proof.
  unfold compareImages, zero_vector.
  cbn [length Nat.eqb negb accumulate JS.add JS.mul].
  replace (0 + 0 * 0)%R with 0%R by lra.
  unfold JS.Math_sqrt, JS.sign_lt0.
  destruct (Rlt_dec 0 0); [lra|].
  rewrite sqrt_0. cbn [JS.mul].
  unfold JS.div, JS.is_zero.
  destruct (Req_dec_T (0 * 0) 0) as [_|N]; [|exfalso; apply N; lra].
  destruct (Req_dec_T 0 0) as [_|N]; [|exfalso; apply N; lra].
  reflexivity.
Qed.

(** The same for two empty vectors. *)
Lemma compareImages_empty :
  compareImages (Some []) (Some []) = NaN.
Proof.
  unfold compareImages.
  cbn [length Nat.eqb negb accumulate].
  unfold JS.Math_sqrt, JS.sign_lt0.
  destruct (Rlt_dec 0 0); [lra|].
  rewrite sqrt_0. cbn [JS.mul].
  unfold JS.div, JS.is_zero.
  destruct (Req_dec_T (0 * 0) 0) as [_|N]; [|exfalso; apply N; lra].
  destruct (Req_dec_T 0 0) as [_|N]; [|exfalso; apply N; lra].
  reflexivity.
Qed.

(** Away from zero norms the confidence is the cosine confidence and
    lies in [0, 1]. *)
Section Cosine.

Open Scope R_scope.

Lemma dot_self_nonneg xs : 0 <= dot xs xs.
Proof. induction xs as [|x xs IH]; simpl; nra. Qed.

Lemma cauchy_schwarz : forall xs ys,
  length xs = length ys ->
  dot xs ys * dot xs ys <= dot xs xs * dot ys ys.
Proof.
  induction xs as [|x xs IH]; intros [|y ys] L; simpl in *; try discriminate.
  - lra.
  - injection L as L. specialize (IH ys L).
    pose proof (dot_self_nonneg xs) as A.
    pose proof (dot_self_nonneg ys) as B.
    set (D := dot xs ys) in *. set (a := dot xs xs) in *. set (b := dot ys ys) in *.
    assert (H : 2 * (x * y * D) <= x * x * b + y * y * a).
    { destruct (Req_dec b 0) as [Eb | Nb].
      - assert (D = 0) by nra. subst D. rewrite H, Eb. nra.
      - assert (0 < b) by lra.
        pose proof (Rle_0_sqr (x * b - y * D)) as S. unfold Rsqr in S.
        assert (0 <= b * (x * x * b + y * y * a - 2 * (x * y * D))) by nra.
        nra. }
    nra.
Qed.

Lemma accumulate_finite : forall xs ys d a b,
  length xs = length ys ->
  accumulate (map Num xs) (map Num ys) (Num d, Num a, Num b)
  = (Num (d + dot xs ys), Num (a + dot xs xs), Num (b + dot ys ys)).
Proof.
  induction xs as [|x xs IH]; intros [|y ys] d a b L; simpl in *; try discriminate.
  - f_equal; [f_equal|]; f_equal; lra.
  - injection L as L. rewrite IH by assumption.
    f_equal; [f_equal|]; f_equal; lra.
Qed.

Lemma cosine_bounds xs ys :
  length xs = length ys -> dot xs xs <> 0 -> dot ys ys <> 0 ->
  -1 <= cosineSimilarity xs ys <= 1.
Proof.
  intros L Hx Hy. unfold cosineSimilarity.
  pose proof (cauchy_schwarz xs ys L) as CS.
  pose proof (dot_self_nonneg xs) as A.
  pose proof (dot_self_nonneg ys) as B.
  assert (Sx : 0 < sqrt (dot xs xs)) by (apply sqrt_lt_R0; lra).
  assert (Sy : 0 < sqrt (dot ys ys)) by (apply sqrt_lt_R0; lra).
  set (s := sqrt (dot xs xs) * sqrt (dot ys ys)).
  assert (Hs : 0 < s) by (unfold s; nra).
  assert (Es : s * s = dot xs xs * dot ys ys).
  { unfold s.
    replace (sqrt (dot xs xs) * sqrt (dot ys ys) * (sqrt (dot xs xs) * sqrt (dot ys ys)))
      with ((sqrt (dot xs xs) * sqrt (dot xs xs)) * (sqrt (dot ys ys) * sqrt (dot ys ys)))
      by ring.
    rewrite !sqrt_sqrt by assumption. reflexivity. }
  assert (Hd : - s <= dot xs ys <= s) by (split; nra).
  split.
  - apply Rmult_le_reg_r with s; [assumption|].
    unfold Rdiv. rewrite Rmult_assoc, Rinv_l by lra. lra.
  - apply Rmult_le_reg_r with s; [assumption|].
    unfold Rdiv. rewrite Rmult_assoc, Rinv_l by lra. lra.
Qed.

(** For vectors of finite numbers, of equal length and non-zero norm,
    [compareImages] returns [max(0, (cosineSimilarity + 1) / 2)], a
    number in [0, 1]. *)
Lemma compareImages_cosine xs ys :
  length xs = length ys -> dot xs xs <> 0 -> dot ys ys <> 0 ->
  compareImages (Some (map Num xs)) (Some (map Num ys))
  = Num (Rmax 0 ((cosineSimilarity xs ys + 1) / 2)) /\
  0 <= Rmax 0 ((cosineSimilarity xs ys + 1) / 2) <= 1.
Proof.
  intros L Hx Hy.
  pose proof (cosine_bounds xs ys L Hx Hy) as [Lo Hi].
  pose proof (dot_self_nonneg xs) as A.
  pose proof (dot_self_nonneg ys) as B.
  assert (Sx : 0 < sqrt (dot xs xs)) by (apply sqrt_lt_R0; lra).
  assert (Sy : 0 < sqrt (dot ys ys)) by (apply sqrt_lt_R0; lra).
  split.
  - unfold compareImages. rewrite !length_map, L, Nat.eqb_refl. cbn [negb].
    rewrite accumulate_finite by assumption.
    rewrite !Rplus_0_l.
    unfold JS.Math_sqrt, JS.sign_lt0.
    destruct (Rlt_dec (dot xs xs) 0); [lra|].
    destruct (Rlt_dec (dot ys ys) 0); [lra|].
    cbn [JS.mul]. unfold JS.div, JS.is_zero.
    destruct (Req_dec_T (sqrt (dot xs xs) * sqrt (dot ys ys)) 0); [nra|].
    cbn [JS.add].
    destruct (Req_dec_T 2 0); [lra|].
    fold (cosineSimilarity xs ys).
    unfold JS.Math_max, JS.lt.
    destruct (Rlt_dec 0 ((cosineSimilarity xs ys + 1) / 2)); f_equal.
    + rewrite Rmax_right; lra.
    + rewrite Rmax_left; lra.
  - split.
    + apply Rmax_l.
    + apply Rmax_lub; lra.
Qed.

(** When the lengths differ or a vector is absent the confidence is 0. *)
Lemma compareImages_mismatch (f1 f2 : option Float32Array) :
  (f1 = None \/ f2 = None \/
   exists a b, f1 = Some a /\ f2 = Some b /\ length a <> length b) ->
  compareImages f1 f2 = Num 0.
Proof.
  intros [-> | [-> | (a & b & -> & -> & N)]].
  - reflexivity.
  - destruct f1; reflexivity.
  - unfold compareImages. apply Nat.eqb_neq in N. rewrite N. reflexivity.
Qed.

End Cosine.

(** ** C5 *)

Lemma find_findIndex {A} (f : A -> bool) (l : list A) (a : A) :
  find f l = Some a ->
  exists i, findIndex f l = Some i /\ nth_error l i = Some a.
Proof.
  induction l as [|x l IH]; simpl; [discriminate|].
  destruct (f x).
  - intros E. injection E as <-. exists O. auto.
  - intros E. destruct (IH E) as (i & Hi & Hn).
    exists (S i). rewrite Hi. auto.
Qed.

Lemma find_none_findIndex {A} (f : A -> bool) (l : list A) :
  find f l = None -> findIndex f l = None.
Proof.
  induction l as [|x l IH]; simpl; [reflexivity|].
  destruct (f x); [discriminate|]. intros E. rewrite (IH E). reflexivity.
Qed.





Lemma updatedProfiles_new (profiles : list AttendeeProfile.t) (p : ProfileData.t) :
  getProfile profiles (ProfileData.id p) = None ->
  updatedProfiles profiles p = profiles ++ [newProfile p].
Proof.
  intros E. unfold updatedProfiles, getProfile in *.
  rewrite (find_none_findIndex _ _ E). reflexivity.
Qed.







(** ** C6 *)

(** [addRecord] gives the new record the id and the time obtained in the
    call, puts it in front of the records of its render and writes the
    new list to storage. *)
Lemma addRecord_prepends (P : Platform) records record uuid now :
  addRecord P records record uuid now
  = (record_of (record, uuid, now),
     setRecords (record_of (record, uuid, now) :: records)
     :: saveRecords P (record_of (record, uuid, now) :: records)).
Proof. reflexivity. Qed.

(** What the effects of the store operations leave after the next
    render. *)
Lemma addRecord_rerender (P : Platform) (w : World) records0 record uuid now :
  state (rerender w (snd (addRecord P records0 record uuid now)))
  = {| records := record_of (record, uuid, now) :: records0;
       profiles := profiles (state w) |} /\
  attendee_profiles
    (localStorage (rerender w (snd (addRecord P records0 record uuid now))))
  = attendee_profiles (localStorage w) /\
  attendance_records
    (localStorage (rerender w (snd (addRecord P records0 record uuid now))))
  = if setItem_throws P RECORDS
         (Json (JArr (map (stringify_record P)
                        (record_of (record, uuid, now) :: records0))))
    then attendance_records (localStorage w)
    else Some (Json (JArr (map (stringify_record P)
                             (record_of (record, uuid, now) :: records0)))).
Proof.
  unfold addRecord, saveRecords, rerender. cbv zeta. cbn [snd record_of].
  destruct (setItem_throws P RECORDS _); cbn; auto.
Qed.

(** The effects of a completed run of the pipeline. *)
Lemma run_rerender (P : Platform) (w : World)
    (rs : list AttendanceRecord.t) (ps : list AttendeeProfile.t) :
  state (rerender w (setRecords rs :: saveRecords P rs
                     ++ setProfiles ps :: saveProfiles P ps))
  = {| records := rs; profiles := ps |} /\
  attendance_records
    (localStorage (rerender w (setRecords rs :: saveRecords P rs
                               ++ setProfiles ps :: saveProfiles P ps)))
  = (if setItem_throws P RECORDS (Json (JArr (map (stringify_record P) rs)))
     then attendance_records (localStorage w)
     else Some (Json (JArr (map (stringify_record P) rs)))) /\
  attendee_profiles
    (localStorage (rerender w (setRecords rs :: saveRecords P rs
                               ++ setProfiles ps :: saveProfiles P ps)))
  = (if setItem_throws P PROFILES (Json (JArr (map (stringify_profile P) ps)))
     then attendee_profiles (localStorage w)
     else Some (Json (JArr (map (stringify_profile P) ps)))).
Proof.
  unfold saveRecords, saveProfiles, rerender. cbv zeta.
  destruct (setItem_throws P RECORDS _), (setItem_throws P PROFILES _); cbn; auto.
Qed.

Lemma insert_each_render_records (P : Platform) (l : list Insertion) :
  forall w,
    records (state (insert_each_render P w l))
    = rev (map record_of l) ++ records (state w).
Proof.
  induction l as [|i l IH]; intros w; [reflexivity|].
  unfold insert_each_render in *. cbn [fold_left]. rewrite IH.
  destruct i as [[record uuid] now]. cbn [inserted].
  rewrite (proj1 (addRecord_rerender P w (records (state w)) record uuid now)).
  cbn [records map rev]. rewrite <- app_assoc. reflexivity.
Qed.

(** With one insertion per render, [getRecentRecords(k)] returns the
    last [k] records inserted, most recent first, for every [k] up to the
    number of insertions. *)
Lemma getRecentRecords_each_render (P : Platform) (w : World)
    (l : list Insertion) (k : nat) :
  (k <= length l)%nat ->
  getRecentRecords (records (state (insert_each_render P w l))) (Some k)
  = firstn k (rev (map record_of l)).
Proof.
  intros Hk. unfold getRecentRecords. rewrite insert_each_render_records.
  rewrite firstn_app.
  replace (k - length (rev (map record_of l)))%nat with 0%nat
    by (rewrite length_rev, length_map; lia).
  cbn [firstn]. apply app_nil_r.
Qed.

(** C6.  Two records inserted from one render of the hook, as the
    integration test does with twenty-five: both calls put their record
    in front of the records of that render, the second [setRecords]
    replaces what the first one set, and [getRecentRecords(2)] returns the
    second record alone instead of the last two inserted. *)
Theorem addRecord_same_render :
  records (state (insert_same_render example_platform empty_world [user0; user1]))
  = [record_of user1] /\
  getRecentRecords
    (records (state (insert_same_render example_platform empty_world [user0; user1])))
    (Some 2%nat)
  = [record_of user1] /\
  [record_of user1] <> [record_of user1; record_of user0].
Proof. repeat split. discriminate. Qed.

(** ** The pipeline's writes *)

Lemma merge_whole (existing p : AttendeeProfile.t) : merge existing (whole p) = p.
Proof. destruct p; reflexivity. Qed.

Lemma newProfile_whole (p : AttendeeProfile.t) : newProfile (whole p) = p.
Proof. destruct p; reflexivity. Qed.



Lemma known_attendee_status g cap existing userId imageFeatures faceDescriptor t p :
  known_attendee g cap existing userId imageFeatures faceDescriptor = Ok (Some (t, p)) ->
  (AttendeeProfile.currentStatus p = IN <-> t = ENTRY) /\
  AttendeeProfile.id p = AttendeeProfile.id existing /\
  AttendeeProfile.name p = AttendeeProfile.name existing /\
  AttendeeProfile.email p = AttendeeProfile.email existing.
Proof.
  unfold known_attendee.
  destruct (sameDay_validation _ _ _ _) as [[|]|]; cbn [bind]; try discriminate.
  intros E. injection E as <- <-.
  destruct (AttendeeProfile.currentStatus existing); cbn; repeat split;
    congruence.
Qed.

Lemma resolve_status g profiles currentUser cap matchResult imageFeatures faceDescriptor t p :
  resolve g profiles currentUser cap matchResult imageFeatures faceDescriptor
  = Ok (Some (t, p)) ->
  AttendeeProfile.currentStatus p = IN <-> t = ENTRY.
Proof.
  unfold resolve.
  destruct (if isMatch matchResult then _ else None) as [userId|].
  - destruct (getProfile profiles userId); [|discriminate].
    intros E. apply known_attendee_status in E. tauto.
  - destruct (find _ profiles).
    + intros E. apply known_attendee_status in E. tauto.
    + intros E. injection E as <- <-. cbn. tauto.
Qed.

(** What a completed run has written. *)
Lemma processAttendance_complete P store g currentUser fl il cap r p effects :
  processAttendance P store g currentUser fl il cap = (Complete r p, effects) ->
  exists t imageFeatures faceDescriptor,
    r = AttendanceRecord.mk (record_id cap) (AttendeeProfile.name p)
          (AttendeeProfile.email p) (imageData cap) (Time (record_time cap)) t
          imageFeatures faceDescriptor /\
    (AttendeeProfile.currentStatus p = IN <-> t = ENTRY) /\
    effects
    = setRecords (r :: records store) :: saveRecords P (r :: records store)
      ++ setProfiles (updatedProfiles (profiles store) (whole p))
         :: saveProfiles P (updatedProfiles (profiles store) (whole p)).
Proof.
  unfold processAttendance.
  destruct (imageLoads cap); cbn [negb]; [|discriminate].
  destruct (face_stage fl (profiles store) cap) as [faceDescriptor m1].
  destruct (image_stage il (profiles store) cap m1) as [[imageFeatures m2]|];
    [|discriminate].
  destruct (resolve g (profiles store) currentUser cap
              (simple_stage (profiles store) cap m2) imageFeatures faceDescriptor)
    as [[[t q]|]|] eqn:R; try discriminate.
  intros E. injection E as <- <- <-.
  exists t, imageFeatures, faceDescriptor.
  repeat split; try (apply (proj1 (resolve_status _ _ _ _ _ _ _ R)));
    try (apply (proj2 (resolve_status _ _ _ _ _ _ _ R))).
Qed.

(** A run that does not complete requests nothing of the store. *)
Lemma processAttendance_incomplete P store g currentUser fl il cap o effects :
  processAttendance P store g currentUser fl il cap = (o, effects) ->
  (forall r p, o <> Complete r p) ->
  effects = [].
Proof.
  unfold processAttendance.
  destruct (imageLoads cap); cbn [negb]; [|intros E; injection E; auto].
  destruct (face_stage fl (profiles store) cap) as [faceDescriptor m1].
  destruct (image_stage il (profiles store) cap m1) as [[imageFeatures m2]|];
    [|intros E; injection E; auto].
  destruct (resolve g (profiles store) currentUser cap
              (simple_stage (profiles store) cap m2) imageFeatures faceDescriptor)
    as [[[t q]|]|].
  - unfold addRecord. intros E. injection E as <- _. intros N.
    exfalso. eapply N. reflexivity.
  - intros E; injection E; auto.
  - intros E; injection E; auto.
Qed.

(** ** C3 *)

(** C3.  The object returned by [useAttendanceStore] has no member named
    [getTodayEntryRecord]: the name that [AttendanceTracker] destructures
    from it is bound to [undefined]. *)
Theorem getTodayEntryRecord_not_provided :
  store_provides "getTodayEntryRecord" = false /\
  ~ In "getTodayEntryRecord" useAttendanceStore_returns.
Proof.
  split; [reflexivity|].
  unfold useAttendanceStore_returns. simpl.
  intros H. repeat (destruct H as [H|H]; [discriminate|]). exact H.
Qed.

(** ** C1 *)

(** The same-day validation as written, for a store that does provide
    the lookup: an EXIT is turned away when the similarity to today's
    entry image is below 0.7 and goes on otherwise. *)
Lemma known_attendee_exit lookup cap existing userId imageFeatures faceDescriptor
    todayEntry :
  AttendeeProfile.currentStatus existing = IN ->
  lookup userId = Some todayEntry ->
  (JS.lt (simpleImageCompare cap (imageData cap) (AttendanceRecord.image todayEntry))
         sameDay_threshold = true ->
   known_attendee (Some lookup) cap existing userId imageFeatures faceDescriptor
   = Ok None) /\
  (JS.lt (simpleImageCompare cap (imageData cap) (AttendanceRecord.image todayEntry))
         sameDay_threshold = false ->
   known_attendee (Some lookup) cap existing userId imageFeatures faceDescriptor
   = Ok (Some (EXIT, returning_profile existing cap EXIT imageFeatures faceDescriptor))).
Proof.
  intros S L. unfold known_attendee, sameDay_validation. rewrite S, L.
  split; intros ->; reflexivity.
Qed.

(** The two cases of the specification's scenario, with a lookup
    supplied: at similarity 0.65 the run is turned away and requests
    nothing of the store; at 0.75 it completes with one EXIT record. *)
Lemma gate_rejects_at_065 :
  processAttendance example_platform ann_present (Some lookup_today) ann_form
    false false (ann_leaving_with (65 / 100))
  = (CheckoutFailed, []).
Proof.
  unfold processAttendance.
  cbn [imageLoads ann_leaving_with negb face_stage image_stage isMatch noMatch bind].
  unfold simple_stage.
  cbn [isMatch noMatch negb profiles ann_present length Nat.ltb Nat.leb andb
       fold_left AttendeeProfile.lastImage ann String.eqb Ascii.eqb Bool.eqb
       simpleImageCompare ann_leaving_with best_confidence best_id AttendeeProfile.id].
  unfold JS.gt, JS.lt, simple_threshold.
  destruct (Rlt_dec 0 (65 / 100)) as [_|N]; [|exfalso; lra].
  cbn [best_confidence].
  destruct (Rlt_dec (8 / 10) (65 / 100)) as [N|_]; [exfalso; lra|].
  cbn.
  rewrite (proj1 (known_attendee_exit lookup_today (ann_leaving_with (65 / 100))
                    ann "a" None None (todayEntry := ann_entry) eq_refl eq_refl)).
  - reflexivity.
  - cbn. unfold JS.lt, sameDay_threshold.
    destruct (Rlt_dec (65 / 100) (7 / 10)) as [_|N]; [reflexivity | exfalso; lra].
Qed.

Lemma gate_accepts_at_075 :
  exists r p effects,
    processAttendance example_platform ann_present (Some lookup_today) ann_form
      false false (ann_leaving_with (75 / 100))
    = (Complete r p, effects) /\
    AttendanceRecord.type r = EXIT /\
    AttendeeProfile.currentStatus p = OUT /\
    records (state (rerender {| state := ann_present;
                                localStorage := persisted example_platform ann_present |}
                      effects))
    = [r; ann_entry].
Proof.
  unfold processAttendance.
  cbn [imageLoads ann_leaving_with negb face_stage image_stage isMatch noMatch bind].
  unfold simple_stage.
  cbn [isMatch noMatch negb profiles ann_present length Nat.ltb Nat.leb andb
       fold_left AttendeeProfile.lastImage ann String.eqb Ascii.eqb Bool.eqb
       simpleImageCompare ann_leaving_with best_confidence best_id AttendeeProfile.id].
  unfold JS.gt, JS.lt, simple_threshold.
  destruct (Rlt_dec 0 (75 / 100)) as [_|N]; [|exfalso; lra].
  cbn [best_confidence].
  destruct (Rlt_dec (8 / 10) (75 / 100)) as [N|_]; [exfalso; lra|].
  cbn.
  rewrite (proj2 (known_attendee_exit lookup_today (ann_leaving_with (75 / 100))
                    ann "a" None None (todayEntry := ann_entry) eq_refl eq_refl)).
  - do 3 eexists. repeat split.
  - cbn. unfold JS.lt, sameDay_threshold.
    destruct (Rlt_dec (75 / 100) (7 / 10)) as [N|_]; [exfalso; lra | reflexivity].
Qed.

(** With the binding [undefined], a known attendee who is IN cannot be
    checked out: the validation throws. *)
Lemma known_attendee_undefined cap existing userId imageFeatures faceDescriptor :
  AttendeeProfile.currentStatus existing = IN ->
  known_attendee None cap existing userId imageFeatures faceDescriptor
  = Throw TypeError.
Proof. intros S. unfold known_attendee. rewrite S. reflexivity. Qed.

Lemma known_attendee_undefined_entry cap existing userId imageFeatures faceDescriptor t p :
  known_attendee None cap existing userId imageFeatures faceDescriptor
  = Ok (Some (t, p)) ->
  t = ENTRY.
Proof.
  unfold known_attendee.
  destruct (AttendeeProfile.currentStatus existing); cbn; [discriminate|].
  intros E. injection E as <- _. reflexivity.
Qed.

(** No run of the component as written completes with an EXIT record. *)
Lemma AttendanceTracker_never_checks_out P store currentUser fl il cap r p effects :
  AttendanceTracker_processAttendance P store currentUser fl il cap
  = (Complete r p, effects) ->
  AttendanceRecord.type r = ENTRY.
Proof.
  unfold AttendanceTracker_processAttendance, processAttendance.
  destruct (imageLoads cap); cbn [negb]; [|discriminate].
  destruct (face_stage fl (profiles store) cap) as [faceDescriptor m1].
  destruct (image_stage il (profiles store) cap m1) as [[imageFeatures m2]|];
    [|discriminate].
  destruct (resolve None (profiles store) currentUser cap
              (simple_stage (profiles store) cap m2) imageFeatures faceDescriptor)
    as [[[t q]|]|] eqn:R; try discriminate.
  intros E. injection E as <- _ _. cbn.
  unfold resolve in R.
  destruct (if isMatch (simple_stage (profiles store) cap m2) then _ else None)
    as [userId|].
  - destruct (getProfile (profiles store) userId); [|discriminate].
    eapply known_attendee_undefined_entry; eauto.
  - destruct (find _ (profiles store)).
    + eapply known_attendee_undefined_entry; eauto.
    + injection R as <- _. reflexivity.
Qed.

(** C1.  Ann is IN and is matched, so the transition resolves to EXIT;
    the pixel confidence against the image of her entry of today is 0.9,
    at least 0.7.  The run is not accepted: calling the [undefined]
    [getTodayEntryRecord] throws before any comparison, and no EXIT
    record is written. *)
Theorem exit_run_throws :
  AttendanceTracker_processAttendance example_platform ann_present ann_form
    false false ann_leaving
  = (Uncaught TypeError, []).
Proof.
  unfold AttendanceTracker_processAttendance, processAttendance.
  cbn [imageLoads ann_leaving negb face_stage image_stage isMatch noMatch bind].
  unfold simple_stage.
  cbn [isMatch noMatch negb profiles ann_present length Nat.ltb Nat.leb andb
       fold_left AttendeeProfile.lastImage ann String.eqb Ascii.eqb Bool.eqb
       simpleImageCompare ann_leaving best_confidence best_id AttendeeProfile.id].
  unfold JS.gt, JS.lt, simple_threshold.
  destruct (Rlt_dec 0 (9 / 10)) as [_|N]; [|exfalso; lra].
  cbn [best_confidence].
  destruct (Rlt_dec (8 / 10) (9 / 10)) as [_|N]; [|exfalso; lra].
  reflexivity.
Qed.

(** ** C4 *)

Lemma known_attendee_id g cap existing userId imageFeatures faceDescriptor t p :
  known_attendee g cap existing userId imageFeatures faceDescriptor = Ok (Some (t, p)) ->
  AttendeeProfile.id p = AttendeeProfile.id existing.
Proof. intros E. apply known_attendee_status in E. tauto. Qed.






(** ** C7 *)







Lemma LocalStorage_eta (ls : LocalStorage) (a b : option blob) :
  attendance_records ls = a -> attendee_profiles ls = b ->
  ls = {| attendance_records := a; attendee_profiles := b |}.
Proof. destruct ls. cbn. congruence. Qed.

(** The storage written by the two saves when neither write throws. *)
Lemma persisted_written (P : Platform) (s : Store) :
  written P s ->
  persisted P s
  = {| attendance_records :=
         Some (Json (JArr (map (stringify_record P) (records s))));
       attendee_profiles :=
         Some (Json (JArr (map (stringify_profile P) (profiles s)))) |}.
Proof.
  intros [Wr Wp]. unfold persisted, saveRecords, saveProfiles. cbv zeta.
  rewrite Wr, Wp. reflexivity.
Qed.



(** It fails as well for an Invalid Date, which is written as [null]
    and comes back as the epoch. *)
Lemma roundtrip_invalid_date :
  map as_AttendanceRecord
    (loaded_records
       (load example_platform
          (persisted example_platform {| records := [undated_record]; profiles := [] |})))
  = [Some (AttendanceRecord.mk "r1" "Ann" "ann@x.com" "data:image/jpeg;base64,ann"
             (Time 0) ENTRY None None)].
Proof. reflexivity. Qed.

(** And nothing comes back when [setItem] throws: the entry is not
    written. *)
Lemma persisted_not_written (P : Platform) (s : Store) :
  setItem_throws P RECORDS (Json (JArr (map (stringify_record P) (records s))))
  = true ->
  attendance_records (persisted P s) = None /\
  loaded_records (load P (persisted P s)) = [].
Proof.
  intros W. unfold persisted, saveRecords, saveProfiles. cbv zeta. rewrite W.
  destruct (setItem_throws P PROFILES _); cbn; auto.
  split; [reflexivity|].
  destruct (mapM (rehydrate_profile P) (map (stringify_profile P) (profiles s)));
    reflexivity.
Qed.



(** ** C8 *)








(** When only the profiles entry is unreadable, the records loaded
    before the error stay. *)
Lemma load_profiles_corrupt_only :
  map as_AttendanceRecord
    (loaded_records (load example_platform profiles_corrupt_storage))
  = [Some ann_entry] /\
  loaded_profiles (load example_platform profiles_corrupt_storage) = [] /\
  logged (load example_platform profiles_corrupt_storage) = Some SyntaxError.
Proof. repeat split. Qed.


(** * Further properties *)

(** ** The face confidence ([compareFaces]) *)

Section FaceConfidence.

Open Scope R_scope.

Lemma finite_reals (a : Float32Array) :
  Forall (fun x => JS.is_finite x = true) a -> exists xs, a = map Num xs.
Proof.
  induction 1 as [|x a Hx _ (xs & ->)]; [exists []; reflexivity|].
  destruct x as [| |r]; try discriminate. exists (r :: xs). reflexivity.
Qed.

Lemma squaredDistance_nonneg xs : forall ys, 0 <= squaredDistance xs ys.
Proof.
  induction xs as [|x xs IH]; intros [|y ys]; simpl; try lra.
  specialize (IH ys). pose proof (Rle_0_sqr (x - y)) as S. unfold Rsqr in S. lra.
Qed.

Lemma squaredDistance_same xs : squaredDistance xs xs = 0.
Proof. induction xs as [|x xs IH]; simpl; [reflexivity | rewrite IH; ring]. Qed.

Lemma euclidean_fold xs : forall ys s,
  fold_left (fun res diff => JS.add res (JS.mul diff diff))
    (map (fun '(val, d2) => JS.sub val d2) (combine (map Num xs) (map Num ys)))
    (Num s)
  = Num (s + squaredDistance xs ys).
Proof.
  induction xs as [|x xs IH]; intros [|y ys] s; simpl;
    try (f_equal; lra).
  rewrite IH. f_equal. unfold Rminus. ring.
Qed.

(** On descriptors of finite numbers and equal length the confidence is
    [max(0, 1 - distance)]. *)
Lemma compareFaces_finite xs ys :
  length xs = length ys ->
  compareFaces (Some (map Num xs)) (Some (map Num ys))
  = Num (Rmax 0 (1 - sqrt (squaredDistance xs ys))).
Proof.
  intros L. unfold compareFaces, euclideanDistance.
  rewrite !length_map, L, Nat.eqb_refl. cbn [negb].
  rewrite euclidean_fold, Rplus_0_l.
  pose proof (squaredDistance_nonneg xs ys) as Q.
  unfold JS.Math_sqrt, JS.sign_lt0.
  destruct (Rlt_dec (squaredDistance xs ys) 0); [lra|].
  cbn [JS.sub JS.neg JS.add]. unfold JS.Math_max, JS.lt.
  destruct (Rlt_dec 0 (1 + - sqrt (squaredDistance xs ys))); f_equal.
  - rewrite Rmax_right; lra.
  - rewrite Rmax_left; lra.
Qed.

(** X1.  For descriptors that hold finite numbers only, [compareFaces]
    returns a number between 0 and 1, whatever their lengths. *)
Theorem compareFaces_range (descriptor1 descriptor2 : option Float32Array) :
  finite_vector descriptor1 -> finite_vector descriptor2 ->
  exists x, compareFaces descriptor1 descriptor2 = Num x /\ 0 <= x <= 1.
Proof.
  destruct descriptor1 as [a|], descriptor2 as [b|]; cbn [finite_vector];
    intros Fa Fb; try (exists 0; split; [reflexivity | lra]).
  destruct (finite_reals Fa) as (xs & ->), (finite_reals Fb) as (ys & ->).
  destruct (Nat.eq_dec (length xs) (length ys)) as [L|N].
  - exists (Rmax 0 (1 - sqrt (squaredDistance xs ys))).
    split; [exact (compareFaces_finite xs ys L)|].
    pose proof (sqrt_pos (squaredDistance xs ys)).
    split; [apply Rmax_l | apply Rmax_lub; lra].
  - exists 0. split; [|lra]. unfold compareFaces, euclideanDistance.
    rewrite !length_map. apply Nat.eqb_neq in N. rewrite N. reflexivity.
Qed.

Lemma compareFaces_range_witness :
  exists x, compareFaces (Some unit_vector) (Some zero_vector) = Num x /\ 0 <= x <= 1.
Proof.
  apply (compareFaces_range (Some unit_vector) (Some zero_vector));
    repeat constructor.
Defined.

Lemma square_difference_sym (x y : number) :
  JS.mul (JS.sub x y) (JS.sub x y) = JS.mul (JS.sub y x) (JS.sub y x).
Proof.
  destruct x as [|s|x], y as [|t|y]; try reflexivity.
  - destruct s, t; reflexivity.
  - destruct s; reflexivity.
  - destruct t; reflexivity.
  - cbn. f_equal. ring.
Qed.

Lemma euclidean_fold_sym (a : Float32Array) : forall (b : Float32Array) acc,
  fold_left (fun res diff => JS.add res (JS.mul diff diff))
    (map (fun '(val, d2) => JS.sub val d2) (combine a b)) acc
  = fold_left (fun res diff => JS.add res (JS.mul diff diff))
      (map (fun '(val, d2) => JS.sub val d2) (combine b a)) acc.
Proof.
  induction a as [|x a IH]; intros [|y b] acc; try reflexivity.
  cbn [combine map fold_left]. rewrite (square_difference_sym x y). apply IH.
Qed.

(** X2.  [compareFaces] does not depend on the order of its two
    arguments. *)
Theorem compareFaces_symmetric (descriptor1 descriptor2 : option Float32Array) :
  compareFaces descriptor1 descriptor2 = compareFaces descriptor2 descriptor1.
Proof.
  destruct descriptor1 as [a|], descriptor2 as [b|]; try reflexivity.
  unfold compareFaces, euclideanDistance.
  rewrite (Nat.eqb_sym (length a) (length b)).
  rewrite (euclidean_fold_sym a b). reflexivity.
Qed.

(** X3.  A descriptor of finite numbers compared with itself has
    confidence 1, so a loaded face matcher always finds a match for a
    descriptor that the catalog holds. *)
Theorem enrolled_descriptor_matches (d : Float32Array)
    (catalog : list (string * Float32Array)) (id : string) :
  Forall (fun x => JS.is_finite x = true) d ->
  In (id, d) catalog ->
  compareFaces (Some d) (Some d) = Num 1 /\
  isMatch (findMatchingFace true (Some d) catalog) = true.
Proof.
  intros F HIn.
  assert (E : compareFaces (Some d) (Some d) = Num 1).
  { destruct (finite_reals F) as (xs & ->).
    etransitivity; [exact (compareFaces_finite xs xs eq_refl)|].
    rewrite squaredDistance_same, sqrt_0. f_equal. rewrite Rmax_right; lra. }
  split; [exact E|].
  unfold findMatchingFace. cbn [negb isMatch]. unfold face_threshold.
  apply best_exceeds; [lra|]. exists id, d. split; [assumption|].
  rewrite E. unfold JS.gt, JS.lt. destruct (Rlt_dec (6 / 10) 1); [reflexivity | lra].
Qed.

Lemma enrolled_descriptor_matches_witness :
  compareFaces (Some unit_vector) (Some unit_vector) = Num 1 /\
  isMatch (findMatchingFace true (Some unit_vector) [("a", unit_vector)]) = true.
Proof.
  apply (enrolled_descriptor_matches (d := unit_vector) [("a", unit_vector)] "a").
  - repeat constructor.
  - left. reflexivity.
Defined.

End FaceConfidence.

(** ** The cosine confidence ([compareImages]) *)

Section CosineConfidence.

Open Scope R_scope.

Lemma mul_comm (a b : number) : JS.mul a b = JS.mul b a.
Proof.
  destruct a as [|s|x], b as [|t|y]; simpl; try reflexivity.
  - rewrite xorb_comm. reflexivity.
  - f_equal. apply Rmult_comm.
Qed.

Lemma accumulate_swap (f1 : Float32Array) : forall (f2 : Float32Array) d n1 n2,
  accumulate f2 f1 (d, n2, n1)
  = let '(d', a, b) := accumulate f1 f2 (d, n1, n2) in (d', b, a).
Proof.
  induction f1 as [|x f1 IH]; intros [|y f2] d n1 n2; try reflexivity.
  cbn [accumulate]. rewrite (mul_comm y x). apply IH.
Qed.

(** X4.  [compareImages] does not depend on the order of its two
    arguments. *)
Theorem compareImages_symmetric (features1 features2 : option Float32Array) :
  compareImages features1 features2 = compareImages features2 features1.
Proof.
  destruct features1 as [f1|], features2 as [f2|]; try reflexivity.
  unfold compareImages. rewrite (Nat.eqb_sym (length f1) (length f2)).
  destruct (Nat.eqb (length f2) (length f1)); [|reflexivity]. cbn [negb].
  rewrite (accumulate_swap f1 f2).
  destruct (accumulate f1 f2 (Num 0, Num 0, Num 0)) as [[d a] b].
  rewrite (mul_comm (JS.Math_sqrt b) (JS.Math_sqrt a)). reflexivity.
Qed.

Lemma dot_self_zero xs : dot xs xs = 0 -> Forall (fun x => x = 0) xs.
Proof.
  induction xs as [|x xs IH]; simpl; intros E; constructor.
  - pose proof (dot_self_nonneg xs). pose proof (Rle_0_sqr x) as S. unfold Rsqr in S.
    assert (Z : x * x = 0) by lra.
    destruct (Rmult_integral _ _ Z); assumption.
  - apply IH. pose proof (dot_self_nonneg xs). pose proof (Rle_0_sqr x) as S.
    unfold Rsqr in S. lra.
Qed.

Lemma nonzero_norm xs :
  Exists (fun x => x <> Num 0) (map Num xs) -> dot xs xs <> 0.
Proof.
  intros Ex Z. apply dot_self_zero in Z.
  apply Exists_exists in Ex. destruct Ex as (x & HIn & N).
  apply in_map_iff in HIn. destruct HIn as (r & <- & HIn).
  rewrite Forall_forall in Z. rewrite (Z r HIn) in N. apply N. reflexivity.
Qed.

(** The cosine confidence of a vector of finite numbers, not all zero,
    with itself. *)
Lemma compareImages_same (f : Float32Array) :
  Forall (fun x => JS.is_finite x = true) f ->
  Exists (fun x => x <> Num 0) f ->
  compareImages (Some f) (Some f) = Num 1.
Proof.
  intros F Ex.
  destruct (finite_reals F) as (xs & ->).
  pose proof (nonzero_norm xs Ex) as N.
  etransitivity; [exact (proj1 (compareImages_cosine xs xs eq_refl N N))|].
  f_equal. unfold cosineSimilarity.
  pose proof (dot_self_nonneg xs) as A.
  rewrite sqrt_sqrt by assumption.
  replace (dot xs xs / dot xs xs) with 1 by (field; assumption).
  rewrite Rmax_right; lra.
Qed.

(** X5.  A feature vector of finite numbers, not all zero, compared with
    itself has a confidence above the threshold 0.75 of
    [findMatchingImage], so a loaded embedding matcher always finds a
    match for a vector that the catalog holds.  (The quotient of the
    code is 1 up to the rounding of the square roots; the statement asks
    for no more than the threshold.) *)
Theorem enrolled_features_match (f : Float32Array)
    (catalog : list (string * Float32Array)) (id : string) :
  Forall (fun x => JS.is_finite x = true) f ->
  Exists (fun x => x <> Num 0) f ->
  In (id, f) catalog ->
  JS.gt (compareImages (Some f) (Some f)) image_threshold = true /\
  isMatch (findMatchingImage true (Some f) catalog) = true.
Proof.
  intros F Ex HIn.
  assert (G : JS.gt (compareImages (Some f) (Some f)) image_threshold = true).
  { rewrite (compareImages_same F Ex). unfold JS.gt, JS.lt, image_threshold.
    destruct (Rlt_dec (75 / 100) 1); [reflexivity | lra]. }
  split; [exact G|].
  unfold findMatchingImage. cbn [negb isMatch]. unfold image_threshold.
  apply best_exceeds; [lra|]. exists id, f. split; [assumption | exact G].
Qed.

Lemma enrolled_features_match_witness :
  JS.gt (compareImages (Some [Num 3; Num 4]) (Some [Num 3; Num 4])) image_threshold
  = true /\
  isMatch (findMatchingImage true (Some [Num 3; Num 4])
             [("a", unit_vector); ("c", [Num 3; Num 4])]) = true.
Proof.
  apply (@enrolled_features_match [Num 3; Num 4]
           [("a", unit_vector); ("c", [Num 3; Num 4])] "c").
  - repeat constructor.
  - left. intros E. injection E as E. lra.
  - right. left. reflexivity.
Defined.

End CosineConfidence.

(** ** The scan of the matchers, continued *)

Section ScanOrder.

Variable compare : option Float32Array -> option Float32Array -> number.
Variable query : Float32Array.

Let step := forEach_step compare query.
Let conf (entry : string * Float32Array) := compare (Some query) (Some (snd entry)).

Lemma fold_not_NaN catalog : forall (b : BestMatch),
  JS.is_NaN (best_confidence b) = false ->
  JS.is_NaN (best_confidence (fold_left step catalog b)) = false.
Proof.
  induction catalog as [|e l IH]; simpl; intros b Hb; [assumption|].
  apply IH. apply step_not_NaN. assumption.
Qed.

(** The final [bestMatch] is the initial one, or it is the first entry
    of the catalog that has the final confidence, and that confidence is
    strictly greater than the initial one. *)
Lemma fold_first catalog : forall (b : BestMatch),
  fold_left step catalog b = b \/
  exists l1 id v l2,
    catalog = l1 ++ (id, v) :: l2 /\
    fold_left step catalog b
    = {| best_id := id; best_confidence := compare (Some query) (Some v) |} /\
    JS.gt (compare (Some query) (Some v)) (best_confidence b) = true /\
    forall entry, In entry l1 -> conf entry <> compare (Some query) (Some v).
Proof.
  induction catalog as [|e l IH]; simpl; intros b; [auto|].
  destruct e as [id0 v0].
  destruct (IH (step b (id0, v0))) as [E | (l1 & id & v & l2 & -> & E & G & Hl1)].
  - rewrite E. unfold step, forEach_step.
    destruct (JS.gt (compare (Some query) (Some v0)) (best_confidence b)) eqn:G0; [|auto].
    right. exists [], id0, v0, l. repeat split; auto.
  - right. exists ((id0, v0) :: l1), id, v, l2.
    split; [reflexivity|]. split; [exact E|].
    unfold step, forEach_step in G.
    destruct (JS.gt (compare (Some query) (Some v0)) (best_confidence b)) eqn:G0;
      cbn [best_confidence] in G.
    + split.
      * unfold JS.gt in *. eapply lt_trans; eauto.
      * intros entry [<- | HIn]; [|auto].
        unfold conf. cbn [snd]. intros C. rewrite C in G.
        unfold JS.gt in G. rewrite lt_irrefl in G. discriminate.
    + split; [exact G|].
      intros entry [<- | HIn]; [|auto].
      unfold conf. cbn [snd]. intros C. rewrite C in G0. congruence.
Qed.

End ScanOrder.

Lemma best_first compare query catalog (t : R) :
  (0 <= t)%R ->
  JS.gt (best_confidence (forEach_best compare query catalog)) (Num t) = true ->
  exists l1 vec l2,
    catalog = l1 ++ (best_id (forEach_best compare query catalog), vec) :: l2 /\
    compare (Some query) (Some vec)
    = best_confidence (forEach_best compare query catalog) /\
    forall id' vec', In (id', vec') l1 ->
      compare (Some query) (Some vec')
      <> best_confidence (forEach_best compare query catalog).
Proof.
  intros Ht G. unfold forEach_best in *.
  destruct (fold_first compare query catalog
              {| best_id := ""; best_confidence := Num 0 |})
    as [E | (l1 & id & v & l2 & Hc & E & _ & Hl1)].
  - rewrite E in G. simpl in G. js_unfold. real_cases; [lra | discriminate].
  - rewrite E. cbn [best_id best_confidence].
    exists l1, v, l2. repeat split; auto.
    intros id' vec' HIn. apply (Hl1 (id', vec') HIn).
Qed.

Lemma best_defined compare query catalog :
  JS.is_NaN (best_confidence (forEach_best compare query catalog)) = false /\
  JS.lt (best_confidence (forEach_best compare query catalog)) (Num 0) = false.
Proof.
  unfold forEach_best. split.
  - apply fold_not_NaN. reflexivity.
  - destruct (JS.lt _ (Num 0)) eqn:L; [|reflexivity].
    apply fold_above in L. cbn [best_confidence] in L.
    rewrite lt_irrefl in L. discriminate.
Qed.

(** X7.  Whatever the pairwise confidences are, [NaN] included, the
    confidence reported by [findMatchingFace] and by [findMatchingImage]
    is a number that is not [NaN] and not below 0. *)
Theorem matchers_confidence_defined :
  forall (isLoaded : bool) (query : option Float32Array)
         (catalog : list (string * Float32Array)),
    (JS.is_NaN (confidence (findMatchingFace isLoaded query catalog)) = false /\
     JS.lt (confidence (findMatchingFace isLoaded query catalog)) (Num 0) = false) /\
    (JS.is_NaN (confidence (findMatchingImage isLoaded query catalog)) = false /\
     JS.lt (confidence (findMatchingImage isLoaded query catalog)) (Num 0) = false).
Proof.
  intros isLoaded query catalog.
  assert (Z : JS.lt (Num 0) (Num 0) = false) by apply lt_irrefl.
  split.
  - unfold findMatchingFace.
    destruct query as [q|]; [destruct isLoaded|];
      cbn [negb confidence noMatch JS.is_NaN]; auto.
    apply best_defined.
  - unfold findMatchingImage.
    destruct query as [q|]; [destruct isLoaded|];
      cbn [negb confidence noMatch JS.is_NaN]; auto.
    apply best_defined.
Qed.

(** X8.  Among the catalog entries that have the reported confidence
    the matchers report the first: the entry named by [attendeeId] has
    that confidence and no entry before it has. *)
Theorem matchers_first_seen_wins :
  forall (isLoaded : bool) (query : option Float32Array)
         (catalog : list (string * Float32Array)),
    (forall id, attendeeId (findMatchingFace isLoaded query catalog) = Some id ->
       exists q l1 vec l2,
         query = Some q /\ catalog = l1 ++ (id, vec) :: l2 /\
         compareFaces (Some q) (Some vec)
         = confidence (findMatchingFace isLoaded query catalog) /\
         forall id' vec', In (id', vec') l1 ->
           compareFaces (Some q) (Some vec')
           <> confidence (findMatchingFace isLoaded query catalog)) /\
    (forall id, attendeeId (findMatchingImage isLoaded query catalog) = Some id ->
       exists q l1 vec l2,
         query = Some q /\ catalog = l1 ++ (id, vec) :: l2 /\
         compareImages (Some q) (Some vec)
         = confidence (findMatchingImage isLoaded query catalog) /\
         forall id' vec', In (id', vec') l1 ->
           compareImages (Some q) (Some vec')
           <> confidence (findMatchingImage isLoaded query catalog)).
Proof.
  intros isLoaded query catalog. split.
  - unfold findMatchingFace.
    destruct query as [q|]; [destruct isLoaded|];
      cbn [negb confidence attendeeId noMatch]; try discriminate.
    destruct (JS.gt (best_confidence (forEach_best compareFaces q catalog))
                face_threshold) eqn:G; [|discriminate].
    intros id E. injection E as <-.
    destruct (best_first compareFaces q catalog face_threshold_nonneg G)
      as (l1 & vec & l2 & Hc & Hv & Hl1).
    exists q, l1, vec, l2. auto.
  - unfold findMatchingImage.
    destruct query as [q|]; [destruct isLoaded|];
      cbn [negb confidence attendeeId noMatch]; try discriminate.
    destruct (JS.gt (best_confidence (forEach_best compareImages q catalog))
                image_threshold) eqn:G; [|discriminate].
    intros id E. injection E as <-.
    destruct (best_first compareImages q catalog image_threshold_nonneg G)
      as (l1 & vec & l2 & Hc & Hv & Hl1).
    exists q, l1, vec, l2. auto.
Qed.

(** ** The pixel comparison ([simpleImageCompare]) *)

Section PixelComparison.

Open Scope R_scope.

Lemma byte_difference (x y : Z) :
  (0 <= x <= 255)%Z -> (0 <= y <= 255)%Z ->
  0 <= Rabs (IZR x + - IZR y) <= 255.
Proof.
  intros [X0 X1] [Y0 Y1].
  apply IZR_le in X0, X1, Y0, Y1.
  unfold Rabs. destruct (Rcase_abs _); lra.
Qed.

Lemma abs_sub_sym (x y : R) : Rabs (x + - y) = Rabs (y + - x).
Proof. apply Rabs_minus_sym. Qed.

Ltac four_bytes data H :=
  destruct data as [|? [|? [|? [|? data]]]]; try discriminate H;
  injection H as H.

(** Over [n] pixels of two arrays of bytes the loop adds at most
    [3 * 255] per pixel. *)
Lemma pixel_difference_bounded (n : nat) : forall data1 data2 a,
  length data1 = (4 * n)%nat -> length data2 = (4 * n)%nat ->
  Forall (fun byte => (0 <= byte <= 255)%Z) data1 ->
  Forall (fun byte => (0 <= byte <= 255)%Z) data2 ->
  exists d,
    pixel_difference data1 data2 (Num a) = Num (a + d) /\
    0 <= d <= 765 * IZR (Z.of_nat n).
Proof.
  induction n as [|n IH]; intros data1 data2 a L1 L2 F1 F2.
  - destruct data1; [|discriminate]. exists 0. split; [cbn; f_equal; lra | cbn; lra].
  - replace (4 * S n)%nat with (S (S (S (S (4 * n))))) in L1, L2 by lia.
    four_bytes data1 L1. four_bytes data2 L2.
    repeat match goal with
           | H : Forall _ (_ :: _) |- _ =>
               apply Forall_cons_iff in H; destruct H
           end.
    cbn [pixel_difference element nth_error skipn JS.sub JS.neg JS.add JS.Math_abs].
    match goal with
    | |- context [pixel_difference data1 data2 (Num ?acc)] =>
        destruct (IH data1 data2 acc) as (d & E & D0 & D1); auto; rewrite E
    end.
    repeat match goal with
           | X : (0 <= ?x <= 255)%Z, Y : (0 <= ?y <= 255)%Z |- _ =>
               lazymatch goal with
               | _ : 0 <= Rabs (IZR x + - IZR y) <= 255 |- _ => fail
               | _ => pose proof (byte_difference X Y)
               end
           end.
    eexists. split; [f_equal; rewrite Rplus_assoc; reflexivity|].
    rewrite Nat2Z.inj_succ, succ_IZR. lra.
Qed.

(** X9.  On the bytes of two 64 x 64 canvases, and also when an image
    fails to load or a canvas has no context, [simpleImageCompare]
    resolves to a number between 0 and 1. *)
Theorem simpleImageCompare_range (contexts : bool)
    (image1 image2 : option Uint8ClampedArray) :
  canvas_data image1 -> canvas_data image2 ->
  exists x,
    useImageMatching_simpleImageCompare contexts image1 image2 = Num x /\
    0 <= x <= 1.
Proof.
  unfold useImageMatching_simpleImageCompare.
  destruct contexts, image1 as [data1|], image2 as [data2|]; cbn [negb canvas_data];
    intros C1 C2; try (exists 0; split; [reflexivity | lra]).
  destruct C1 as [L1 F1], C2 as [L2 F2].
  destruct (@pixel_difference_bounded (64 * 64) data1 data2 0 L1 L2 F1 F2)
    as (d & E & D0 & D1).
  replace (Z.of_nat (64 * 64)) with 4096%Z in D1 by reflexivity.
  unfold compare_pixels. rewrite E.
  unfold JS.div, JS.is_zero.
  destruct (Req_dec_T (64 * 64 * 3 * 255) 0); [lra|].
  cbn [JS.sub JS.neg JS.add]. unfold JS.Math_max, JS.lt.
  assert (0 <= (0 + d) / (64 * 64 * 3 * 255) <= 1).
  { split.
    - apply Rmult_le_pos; [lra|]. apply Rlt_le, Rinv_0_lt_compat. lra.
    - apply Rmult_le_reg_r with (64 * 64 * 3 * 255); [lra|].
      unfold Rdiv. rewrite Rmult_assoc, Rinv_l by lra. lra. }
  destruct (Rlt_dec 0 (1 + - ((0 + d) / (64 * 64 * 3 * 255)))).
  - eexists. split; [reflexivity | lra].
  - exists 0. split; [reflexivity | lra].
Qed.

Lemma canvas_data_repeat (byte : Z) :
  (0 <= byte <= 255)%Z -> canvas_data (Some (repeat byte (4 * (64 * 64)))).
Proof.
  intros B. split; [apply repeat_length|].
  apply Forall_forall. intros b Hb. apply repeat_spec in Hb. subst b. exact B.
Qed.

Lemma simpleImageCompare_range_witness :
  exists x,
    useImageMatching_simpleImageCompare true (Some black_canvas) (Some white_canvas)
    = Num x /\
    0 <= x <= 1.
Proof.
  apply (simpleImageCompare_range true (Some black_canvas) (Some white_canvas));
    apply canvas_data_repeat; lia.
Defined.

Lemma pixel_difference_same (n : nat) : forall data a,
  length data = (4 * n)%nat -> pixel_difference data data (Num a) = Num a.
Proof.
  induction n as [|n IH]; intros data a L.
  - destruct data; [reflexivity | discriminate].
  - replace (4 * S n)%nat with (S (S (S (S (4 * n))))) in L by lia.
    four_bytes data L.
    cbn [pixel_difference element nth_error skipn JS.sub JS.neg JS.add JS.Math_abs].
    rewrite IH by assumption. f_equal.
    rewrite !Rplus_opp_r, Rabs_R0. lra.
Qed.

(** X10.  An image compared with itself: the promise resolves to 1. *)
Theorem simpleImageCompare_identical (n : nat) (data : Uint8ClampedArray) :
  length data = (4 * n)%nat ->
  useImageMatching_simpleImageCompare true (Some data) (Some data) = Num 1.
Proof.
  intros L. unfold useImageMatching_simpleImageCompare, compare_pixels. cbn [negb].
  rewrite (@pixel_difference_same n data 0 L).
  unfold JS.div, JS.is_zero.
  destruct (Req_dec_T (64 * 64 * 3 * 255) 0); [lra|].
  cbn [JS.sub JS.neg JS.add]. unfold JS.Math_max, JS.lt.
  replace (1 + - (0 / (64 * 64 * 3 * 255))) with 1 by (unfold Rdiv; ring).
  destruct (Rlt_dec 0 1); [reflexivity | lra].
Qed.

Lemma simpleImageCompare_identical_witness :
  useImageMatching_simpleImageCompare true (Some white_canvas) (Some white_canvas)
  = Num 1.
Proof.
  apply (@simpleImageCompare_identical (64 * 64) white_canvas).
  apply repeat_length.
Defined.

Lemma pixel_difference_sym (n : nat) : forall data1 data2 acc,
  length data1 = (4 * n)%nat -> length data2 = (4 * n)%nat ->
  pixel_difference data1 data2 acc = pixel_difference data2 data1 acc.
Proof.
  induction n as [|n IH]; intros data1 data2 acc L1 L2.
  - destruct data1, data2; try discriminate. reflexivity.
  - replace (4 * S n)%nat with (S (S (S (S (4 * n))))) in L1, L2 by lia.
    four_bytes data1 L1. four_bytes data2 L2.
    cbn [pixel_difference element nth_error skipn JS.sub JS.neg JS.add JS.Math_abs].
    rewrite (IH data1 data2) by assumption.
    do 3 f_equal. f_equal; [f_equal|]; apply abs_sub_sym.
Qed.

(** X11.  On two arrays that hold the same whole number of pixels the
    pixel comparison does not depend on the order of the two images. *)
Theorem simpleImageCompare_symmetric (n : nat) (contexts : bool)
    (data1 data2 : Uint8ClampedArray) :
  length data1 = (4 * n)%nat -> length data2 = (4 * n)%nat ->
  useImageMatching_simpleImageCompare contexts (Some data1) (Some data2)
  = useImageMatching_simpleImageCompare contexts (Some data2) (Some data1).
Proof.
  intros L1 L2. unfold useImageMatching_simpleImageCompare, compare_pixels.
  rewrite (@pixel_difference_sym n data1 data2 (Num 0) L1 L2). reflexivity.
Qed.

Lemma simpleImageCompare_symmetric_witness :
  useImageMatching_simpleImageCompare true (Some black_canvas) (Some white_canvas)
  = useImageMatching_simpleImageCompare true (Some white_canvas) (Some black_canvas).
Proof.
  apply (@simpleImageCompare_symmetric (64 * 64) true black_canvas white_canvas);
    apply repeat_length.
Defined.

End PixelComparison.

(** ** The store operations, continued *)

Lemma map_index_after {A} (target : nat) (g : A -> A) (l : list A) : forall k,
  (target < k)%nat ->
  map_index (fun x index => if Nat.eqb index target then g x else x) k l = l.
Proof.
  induction l as [|x l IH]; intros k H; simpl; [reflexivity|].
  rewrite IH by lia. destruct (Nat.eqb_spec k target); [lia | reflexivity].
Qed.

(** [map_index] with a function that changes the element at the first
    index satisfying [f]: the list splits around that element. *)
Lemma map_index_split {A} (f : A -> bool) (g : A -> A) (l : list A) : forall k i,
  findIndex f l = Some i ->
  exists l1 a l2,
    l = l1 ++ a :: l2 /\ f a = true /\ (forall x, In x l1 -> f x = false) /\
    map_index (fun x index => if Nat.eqb index (k + i) then g x else x) k l
    = l1 ++ g a :: l2.
Proof.
  induction l as [|x l IH]; intros k i; simpl; [discriminate|].
  destruct (f x) eqn:F.
  - intros E. injection E as <-. exists [], x, l.
    rewrite Nat.add_0_r, Nat.eqb_refl.
    split; [reflexivity|]. split; [assumption|]. split; [intros y []|].
    simpl. f_equal. apply map_index_after. lia.
  - destruct (findIndex f l) as [j|] eqn:Fj; [|discriminate].
    intros E. injection E as <-.
    destruct (IH (S k) j eq_refl) as (l1 & a & l2 & -> & Fa & Hl1 & M).
    exists (x :: l1), a, l2.
    split; [reflexivity|]. split; [assumption|].
    split; [intros y [<- | H]; auto|].
    replace (k + S j)%nat with (S k + j)%nat by lia. rewrite M.
    destruct (Nat.eqb_spec k (S k + j)); [lia | reflexivity].
Qed.

Lemma find_app {A} (f : A -> bool) (l l' : list A) :
  find f (l ++ l') = match find f l with Some a => Some a | None => find f l' end.
Proof.
  induction l as [|x l IH]; simpl; [reflexivity|].
  destruct (f x); [reflexivity | assumption].
Qed.

Lemma find_all_false {A} (f : A -> bool) (l : list A) :
  (forall x, In x l -> f x = false) -> find f l = None.
Proof.
  induction l as [|x l IH]; simpl; intros H; [reflexivity|].
  rewrite (H x) by auto. apply IH. auto.
Qed.

(** When a profile with the id exists, [updateProfile] replaces the
    first one and leaves the list around it as it is. *)
Lemma updatedProfiles_split (profiles : list AttendeeProfile.t)
    (pd : ProfileData.t) (existing : AttendeeProfile.t) :
  getProfile profiles (ProfileData.id pd) = Some existing ->
  exists l1 l2,
    profiles = l1 ++ existing :: l2 /\
    (forall q, In q l1 -> AttendeeProfile.id q <> ProfileData.id pd) /\
    AttendeeProfile.id existing = ProfileData.id pd /\
    updatedProfiles profiles pd = l1 ++ merge existing pd :: l2.
Proof.
  intros E. unfold getProfile in E.
  destruct (find_findIndex _ _ E) as (i & Hi & _).
  destruct (map_index_split _ (fun x => merge x pd) profiles 0 Hi)
    as (l1 & a & l2 & Hp & Fa & Hl1 & M).
  cbn [Nat.add] in M.
  assert (a = existing) as ->.
  { rewrite Hp, find_app, (find_all_false _ _ Hl1) in E. simpl in E.
    rewrite Fa in E. congruence. }
  exists l1, l2. split; [assumption|]. split.
  - intros q HIn. apply String.eqb_neq. auto.
  - split; [apply String.eqb_eq; assumption|].
    unfold updatedProfiles. rewrite Hi. exact M.
Qed.

Lemma getProfile_none_ids (profiles : list AttendeeProfile.t) (id : string) :
  getProfile profiles id = None <-> ~ In id (map AttendeeProfile.id profiles).
Proof.
  unfold getProfile. induction profiles as [|p l IH]; simpl; [tauto|].
  destruct (String.eqb_spec (AttendeeProfile.id p) id) as [E|N].
  - split; [discriminate | intros H; exfalso; auto].
  - rewrite IH. tauto.
Qed.

Lemma updatedProfiles_ids (profiles : list AttendeeProfile.t) (pd : ProfileData.t) :
  map AttendeeProfile.id (updatedProfiles profiles pd)
  = match getProfile profiles (ProfileData.id pd) with
    | Some _ => map AttendeeProfile.id profiles
    | None => map AttendeeProfile.id profiles ++ [ProfileData.id pd]
    end.
Proof.
  destruct (getProfile profiles (ProfileData.id pd)) as [existing|] eqn:E.
  - destruct (updatedProfiles_split profiles pd E) as (l1 & l2 & -> & _ & Hid & ->).
    rewrite !map_app. cbn [map merge AttendeeProfile.id]. rewrite Hid. reflexivity.
  - rewrite (updatedProfiles_new profiles pd E), map_app. reflexivity.
Qed.

(** X12.  [updateProfile] keeps the ids of the profiles distinct: it
    changes no id, drops no profile and adds a profile only under an id
    that no profile has. *)
Theorem updateProfile_unique_ids (profiles : list AttendeeProfile.t)
    (pd : ProfileData.t) :
  NoDup (map AttendeeProfile.id profiles) ->
  NoDup (map AttendeeProfile.id (updatedProfiles profiles pd)) /\
  In (ProfileData.id pd) (map AttendeeProfile.id (updatedProfiles profiles pd)) /\
  (forall id, In id (map AttendeeProfile.id profiles) ->
     In id (map AttendeeProfile.id (updatedProfiles profiles pd))) /\
  (length (updatedProfiles profiles pd) <= S (length profiles))%nat.
Proof.
  intros N.
  assert (L : length (map AttendeeProfile.id (updatedProfiles profiles pd))
              = length (updatedProfiles profiles pd)) by apply length_map.
  rewrite updatedProfiles_ids in *.
  destruct (getProfile profiles (ProfileData.id pd)) as [existing|] eqn:E.
  - split; [assumption|]. split; [|split; [auto|]].
    + unfold getProfile in E. apply find_some in E. destruct E as [HIn Hid].
      apply String.eqb_eq in Hid. rewrite <- Hid. apply in_map. assumption.
    + rewrite <- L, length_map. lia.
  - apply getProfile_none_ids in E.
    split; [|split; [|split]].
    + apply NoDup_app; [assumption | repeat constructor; auto |].
      intros a HIn [<- | []]. auto.
    + apply in_or_app. right. left. reflexivity.
    + intros id HIn. apply in_or_app. auto.
    + rewrite <- L, length_app, length_map. simpl. lia.
Qed.

Lemma updateProfile_unique_ids_witness :
  (NoDup (map AttendeeProfile.id (updatedProfiles [ann; cara] dan_named)) /\
   In "d" (map AttendeeProfile.id (updatedProfiles [ann; cara] dan_named)) /\
   length (updatedProfiles [ann; cara] dan_named) = 3%nat) /\
  (NoDup (map AttendeeProfile.id (updatedProfiles [ann; cara] cara_checks_in)) /\
   In "c" (map AttendeeProfile.id (updatedProfiles [ann; cara] cara_checks_in)) /\
   length (updatedProfiles [ann; cara] cara_checks_in) = 2%nat).
Proof.
  assert (N : NoDup (map AttendeeProfile.id [ann; cara])).
  { repeat constructor.
    - intros [E | []]. discriminate E.
    - intros []. }
  split.
  - destruct (@updateProfile_unique_ids [ann; cara] dan_named N)
      as (H1 & H2 & _).
    repeat split; [exact H1 | exact H2].
  - destruct (@updateProfile_unique_ids [ann; cara] cara_checks_in N)
      as (H1 & H2 & _).
    repeat split; [exact H1 | exact H2].
Defined.

Lemma getProfile_updatedProfiles_other (profiles : list AttendeeProfile.t)
    (pd : ProfileData.t) (id : string) :
  id <> ProfileData.id pd ->
  getProfile (updatedProfiles profiles pd) id = getProfile profiles id.
Proof.
  intros N.
  destruct (getProfile profiles (ProfileData.id pd)) as [existing|] eqn:E.
  - destruct (updatedProfiles_split profiles pd E) as (l1 & l2 & -> & _ & Hid & ->).
    unfold getProfile. rewrite !find_app. cbn [find merge AttendeeProfile.id].
    rewrite Hid.
    destruct (String.eqb_spec (ProfileData.id pd) id); [congruence | reflexivity].
  - rewrite (updatedProfiles_new profiles pd E).
    unfold getProfile. rewrite find_app. cbn [find newProfile AttendeeProfile.id].
    destruct (String.eqb_spec (ProfileData.id pd) id); [congruence|].
    destruct (find _ profiles); reflexivity.
Qed.

(** X13.  [updateProfile] touches one profile: for every other id,
    [getProfile] returns after the call what it returned before.  So a
    completed run of the pipeline leaves the profile of every attendee
    but the one it resolved as it was. *)
Theorem updateProfile_other_profiles :
  (forall (profiles : list AttendeeProfile.t) (pd : ProfileData.t) (id : string),
     id <> ProfileData.id pd ->
     getProfile (updatedProfiles profiles pd) id = getProfile profiles id) /\
  (forall (P : Platform) (w : World)
          (g : option (string -> option AttendanceRecord.t))
          (currentUser : CurrentUser) (fl il : bool) (cap : Capture)
          (r : AttendanceRecord.t) (p : AttendeeProfile.t) (effects : list Effect)
          (id : string),
     processAttendance P (state w) g currentUser fl il cap = (Complete r p, effects) ->
     id <> AttendeeProfile.id p ->
     getProfile (profiles (state (rerender w effects))) id
     = getProfile (profiles (state w)) id).
Proof.
  split; [exact getProfile_updatedProfiles_other|].
  intros P w g currentUser fl il cap r p effects id E N.
  destruct (processAttendance_complete _ _ _ _ _ _ _ E) as (t & f & d & _ & _ & ->).
  rewrite (proj1 (run_rerender P w _ _)). cbn [profiles].
  apply getProfile_updatedProfiles_other. exact N.
Qed.

Lemma updateProfile_other_profiles_witness :
  getProfile (updatedProfiles [ann; cara] cara_checks_in) "a" = Some ann /\
  getProfile (profiles (state (rerender front_desk_world cara_effects))) "a" = Some ann.
Proof.
  split.
  - rewrite (proj1 updateProfile_other_profiles [ann; cara] cara_checks_in "a");
      [reflexivity | discriminate].
  - rewrite (proj2 updateProfile_other_profiles example_platform front_desk_world
               None cara_form false true cara_arriving cara_entry cara_present
               cara_effects "a" cara_arrives);
      [reflexivity | discriminate].
Defined.

(** X14.  The catalog of [getImageFeatures] (and of its alias
    [getFaceDescriptors]) holds an entry exactly for the profiles that
    have image features, under the profile's id and in the order of the
    profiles. *)
Theorem getImageFeatures_entries (profiles : list AttendeeProfile.t) :
  (forall id features,
     In (id, features) (getImageFeatures profiles) <->
     exists p, In p profiles /\ AttendeeProfile.id p = id /\
               AttendeeProfile.imageFeatures p = Some features) /\
  (forall l1 l2,
     getImageFeatures (l1 ++ l2) = getImageFeatures l1 ++ getImageFeatures l2) /\
  (length (getImageFeatures profiles) <= length profiles)%nat.
Proof.
  split; [|split].
  - intros id features. unfold getImageFeatures. rewrite in_flat_map. split.
    + intros (p & HIn & H). exists p. split; [assumption|].
      destruct (AttendeeProfile.imageFeatures p); [|destruct H].
      destruct H as [H | []]. injection H as <- <-. auto.
    + intros (p & HIn & <- & E). exists p. split; [assumption|].
      rewrite E. left. reflexivity.
  - intros l1 l2. apply flat_map_app.
  - unfold getImageFeatures. induction profiles as [|p l IH]; simpl; [lia|].
    rewrite length_app. destruct (AttendeeProfile.imageFeatures p); simpl; lia.
Qed.

(** X16.  [clearAllData] (the component's [handleClearData]): after the
    next render both collections are empty and both storage entries are
    gone, so that a hook mounted afterwards loads two empty collections
    and logs nothing. *)
Theorem clearAllData_then_reload (P : Platform) (w : World) :
  rerender w handleClearData = empty_world /\
  load P (localStorage (rerender w handleClearData))
  = {| loaded_records := []; loaded_profiles := []; logged := None |}.
Proof. split; reflexivity. Qed.

(** ** The three matching stages of the pipeline *)

Lemma getProfile_some_ids (profiles : list AttendeeProfile.t) (id : string) :
  In id (map AttendeeProfile.id profiles) ->
  exists p, getProfile profiles id = Some p /\ AttendeeProfile.id p = id.
Proof.
  intros HIn. destruct (getProfile profiles id) as [p|] eqn:E.
  - exists p. split; [reflexivity|].
    unfold getProfile in E. apply find_some in E. apply String.eqb_eq. tauto.
  - apply getProfile_none_ids in E. contradiction.
Qed.

(** A match result names a stored profile when, if it is a match, its
    [attendeeId] is the id of one of the profiles. *)
Lemma face_stage_stored fl (profiles : list AttendeeProfile.t) cap :
  isMatch (snd (face_stage fl profiles cap)) = true ->
  exists id, attendeeId (snd (face_stage fl profiles cap)) = Some id /\
             In id (map AttendeeProfile.id profiles).
Proof.
  unfold face_stage. destruct fl; [|discriminate].
  destruct (detectFaceFromImage true (detected cap)) as [d|]; [|discriminate].
  destruct (Nat.ltb 0 _); [|discriminate].
  cbn [snd].
  destruct (isMatch (findMatchingFace true (Some d) _)) eqn:M; [|discriminate].
  intros _. unfold findMatchingFace in *. cbn [negb isMatch attendeeId] in *.
  rewrite M. eexists. split; [reflexivity|].
  destruct (best_from_catalog compareFaces d _ face_threshold_nonneg M)
    as (vec & HIn & _).
  apply in_flat_map in HIn. destruct HIn as (p & Hp & H).
  destruct (AttendeeProfile.faceDescriptor p); [|destruct H].
  destruct H as [H | []]. injection H as H _. rewrite <- H.
  apply in_map. assumption.
Qed.

Lemma image_stage_stored il (profiles : list AttendeeProfile.t) cap m1 f m2 :
  image_stage il profiles cap m1 = Ok (f, m2) ->
  (isMatch m1 = true ->
   exists id, attendeeId m1 = Some id /\ In id (map AttendeeProfile.id profiles)) ->
  isMatch m2 = true ->
  exists id, attendeeId m2 = Some id /\ In id (map AttendeeProfile.id profiles).
Proof.
  unfold image_stage.
  destruct (isMatch m1) eqn:M1; cbn [negb].
  { intros E. injection E as _ <-. intros H _. auto. }
  destruct il; [|intros E; injection E as _ <-; congruence].
  cbn [extractImageFeatures negb].
  destruct (extracted cap) as [[v|]|]; cbn [bind];
    [|intros E; injection E as _ <-; congruence | discriminate].
  destruct (isMatch (findMatchingImage true (Some v) (getImageFeatures profiles)))
    eqn:M; [|intros E; injection E as _ <-; congruence].
  intros E. injection E as _ <-. intros _ _.
  unfold findMatchingImage in *. cbn [negb isMatch attendeeId] in *.
  rewrite M. eexists. split; [reflexivity|].
  destruct (best_from_catalog compareImages v _ image_threshold_nonneg M)
    as (vec & HIn & _).
  apply in_flat_map in HIn. destruct HIn as (p & Hp & H).
  destruct (AttendeeProfile.imageFeatures p); [|destruct H].
  destruct H as [H | []]. injection H as H _. rewrite <- H.
  apply in_map. assumption.
Qed.

(** The running best of the pixel stage is the initial one or carries
    the id of a profile. *)
Lemma simple_fold_origin cap (l : list AttendeeProfile.t) : forall (b : BestMatch),
  let best :=
    fold_left
      (fun best profile =>
         if negb (String.eqb (AttendeeProfile.lastImage profile) "") then
           let similarity :=
             simpleImageCompare cap (imageData cap) (AttendeeProfile.lastImage profile) in
           if JS.gt similarity (best_confidence best)
           then {| best_id := AttendeeProfile.id profile; best_confidence := similarity |}
           else best
         else best) l b in
  best = b \/ In (best_id best) (map AttendeeProfile.id l).
Proof.
  induction l as [|p l IH]; intros b; cbn [fold_left map]; [auto|].
  match goal with
  | |- context [fold_left ?f l ?b'] => destruct (IH b') as [E | HIn]
  end.
  - cbv zeta in E. rewrite E.
    destruct (negb _); [|auto].
    destruct (JS.gt _ _); [|auto].
    right. left. reflexivity.
  - right. right. exact HIn.
Qed.

Lemma simple_stage_stored (profiles : list AttendeeProfile.t) cap m2 :
  (isMatch m2 = true ->
   exists id, attendeeId m2 = Some id /\ In id (map AttendeeProfile.id profiles)) ->
  isMatch (simple_stage profiles cap m2) = true ->
  exists id, attendeeId (simple_stage profiles cap m2) = Some id /\
             In id (map AttendeeProfile.id profiles).
Proof.
  intros H. unfold simple_stage.
  destruct (negb (isMatch m2) && Nat.ltb 0 (length profiles))%bool; [|assumption].
  match goal with
  | |- context [JS.gt (best_confidence ?best) simple_threshold] =>
      destruct (JS.gt (best_confidence best) simple_threshold) eqn:G; [|assumption]
  end.
  intros _. cbn [attendeeId]. eexists. split; [reflexivity|].
  destruct (simple_fold_origin cap profiles {| best_id := ""; best_confidence := Num 0 |})
    as [E | HIn]; [|exact HIn].
  cbv zeta in E. rewrite E in G. cbn [best_confidence] in G.
  unfold simple_threshold in G. rewrite gt_zero_threshold in G by lra. discriminate.
Qed.

(** X17.  A match reported by any of the three stages (face, image
    features, pixels) names a stored profile, so the [getProfile(userId)!]
    of the pipeline is never [undefined]. *)
Theorem match_names_stored_profile (fl il : bool)
    (profiles : list AttendeeProfile.t) (cap : Capture)
    (imageFeatures : option Float32Array) (matchResult : MatchResult) :
  image_stage il profiles cap (snd (face_stage fl profiles cap))
  = Ok (imageFeatures, matchResult) ->
  isMatch (simple_stage profiles cap matchResult) = true ->
  exists id p,
    attendeeId (simple_stage profiles cap matchResult) = Some id /\
    getProfile profiles id = Some p /\
    AttendeeProfile.id p = id.
Proof.
  intros I M.
  pose proof (@image_stage_stored il profiles cap _ _ _ I
                (@face_stage_stored fl profiles cap)) as S.
  destruct (@simple_stage_stored profiles cap matchResult S M) as (id & E & HIn).
  destruct (@getProfile_some_ids profiles id HIn) as (p & G & Hid).
  exists id, p. auto.
Qed.

Lemma ann_leaving_matched :
  isMatch (simple_stage (profiles ann_present) ann_leaving noMatch) = true.
Proof.
  unfold simple_stage.
  cbn [isMatch noMatch negb profiles ann_present length Nat.ltb Nat.leb andb
       fold_left AttendeeProfile.lastImage ann String.eqb Ascii.eqb Bool.eqb
       simpleImageCompare ann_leaving best_confidence best_id AttendeeProfile.id].
  unfold JS.gt, JS.lt, simple_threshold.
  destruct (Rlt_dec 0 (9 / 10)) as [_|N]; [|exfalso; lra].
  cbn [best_confidence].
  destruct (Rlt_dec (8 / 10) (9 / 10)) as [_|N]; [|exfalso; lra].
  reflexivity.
Qed.

Lemma match_names_stored_profile_witness :
  exists id p,
    attendeeId (simple_stage (profiles ann_present) ann_leaving noMatch) = Some id /\
    getProfile (profiles ann_present) id = Some p /\
    AttendeeProfile.id p = id.
Proof.
  apply (@match_names_stored_profile false false (profiles ann_present)
           ann_leaving None noMatch).
  - reflexivity.
  - apply ann_leaving_matched.
Defined.

(** ** Errors of a run *)

Lemma known_attendee_throws g cap existing userId imageFeatures faceDescriptor e :
  known_attendee g cap existing userId imageFeatures faceDescriptor = Throw e ->
  g = None /\ e = TypeError.
Proof.
  unfold known_attendee, sameDay_validation.
  destruct (AttendeeProfile.currentStatus existing); cbn [bind]; [|discriminate].
  destruct g as [lookup|].
  - destruct (lookup userId); [destruct (JS.lt _ _)|]; discriminate.
  - intros E. injection E as <-. auto.
Qed.

Lemma resolve_throws g (profiles : list AttendeeProfile.t) currentUser cap
    matchResult imageFeatures faceDescriptor e :
  (isMatch matchResult = true ->
   exists id, attendeeId matchResult = Some id /\
              In id (map AttendeeProfile.id profiles)) ->
  resolve g profiles currentUser cap matchResult imageFeatures faceDescriptor
  = Throw e ->
  g = None /\ e = TypeError.
Proof.
  intros S. unfold resolve. destruct (isMatch matchResult).
  - destruct (S eq_refl) as (id & -> & HIn).
    destruct (String.eqb id "").
    + destruct (find _ profiles); [apply known_attendee_throws | discriminate].
    + destruct (getProfile_some_ids profiles id HIn) as (p & -> & _).
      apply known_attendee_throws.
  - destruct (find _ profiles); [apply known_attendee_throws | discriminate].
Qed.

Lemma image_stage_throws il (profiles : list AttendeeProfile.t) cap matchResult e :
  image_stage il profiles cap matchResult = Throw e ->
  il = true /\ extracted cap = Throw e.
Proof.
  unfold image_stage.
  destruct (negb (isMatch matchResult)); [|discriminate].
  destruct il; [|discriminate]. cbn [extractImageFeatures negb].
  destruct (extracted cap) as [[v|]|e']; cbn [bind]; try discriminate.
  intros E. injection E as <-. auto.
Qed.

(** X18.  A run of [processAttendance] ends in an uncaught error in two
    cases only: the feature extractor's promise rejects while the image
    stage runs, or [getTodayEntryRecord] is not a function.  It has then
    asked nothing of the store. *)
Theorem uncaught_only_from (P : Platform) (store : Store)
    (g : option (string -> option AttendanceRecord.t))
    (currentUser : CurrentUser) (fl il : bool) (cap : Capture)
    (e : error) (effects : list Effect) :
  processAttendance P store g currentUser fl il cap = (Uncaught e, effects) ->
  effects = [] /\
  ((il = true /\ extracted cap = Throw e) \/ (g = None /\ e = TypeError)).
Proof.
  unfold processAttendance.
  destruct (imageLoads cap); cbn [negb]; [|discriminate].
  pose proof (@face_stage_stored fl (profiles store) cap) as S1.
  destruct (face_stage fl (profiles store) cap) as [faceDescriptor m1].
  cbn [snd] in S1.
  destruct (image_stage il (profiles store) cap m1) as [[imageFeatures m2]|e'] eqn:I.
  - pose proof (@simple_stage_stored (profiles store) cap m2
                  (@image_stage_stored il (profiles store) cap _ _ _ I S1)) as S3.
    destruct (resolve g (profiles store) currentUser cap
                (simple_stage (profiles store) cap m2) imageFeatures faceDescriptor)
      as [[[t q]|]|e''] eqn:R; try discriminate.
    intros E. injection E as <- <-. split; [reflexivity|]. right.
    eapply resolve_throws; eauto.
  - intros E. injection E as <- <-. split; [reflexivity|]. left.
    eapply image_stage_throws; eauto.
Qed.

Lemma uncaught_only_from_witness :
  (@nil Effect) = [] /\
  ((true = true /\ extracted rejected_capture = Throw OtherError) \/
   (Some lookup_today = None /\ OtherError = TypeError)).
Proof.
  exact (@uncaught_only_from example_platform (state empty_world) (Some lookup_today)
           ann_form false true rejected_capture OtherError [] eq_refl).
Defined.

(** ** The transition of a completed run *)

Lemma known_attendee_transition g cap existing userId imageFeatures faceDescriptor t p :
  known_attendee g cap existing userId imageFeatures faceDescriptor = Ok (Some (t, p)) ->
  p = returning_profile existing cap t imageFeatures faceDescriptor /\
  t = match AttendeeProfile.currentStatus existing with OUT => ENTRY | IN => EXIT end.
Proof.
  unfold known_attendee.
  destruct (sameDay_validation _ _ _ _) as [[|]|]; cbn [bind]; try discriminate.
  intros E. injection E as <- <-. auto.
Qed.

Lemma resolve_transition g (profiles : list AttendeeProfile.t) currentUser cap
    matchResult imageFeatures faceDescriptor t p :
  resolve g profiles currentUser cap matchResult imageFeatures faceDescriptor
  = Ok (Some (t, p)) ->
  (t = ENTRY /\
   p = AttendeeProfile.mk (new_userId cap)
         (string_or (user_name currentUser) "Unknown User")
         (string_or (user_email currentUser) "unknown@example.com")
         (imageData cap) imageFeatures faceDescriptor IN
         (Some (Time (profile_time cap))) None) \/
  (exists existing,
     In existing profiles /\
     p = returning_profile existing cap t imageFeatures faceDescriptor /\
     t = match AttendeeProfile.currentStatus existing with
         | OUT => ENTRY
         | IN => EXIT
         end).
Proof.
  unfold resolve.
  destruct (if isMatch matchResult then _ else None) as [userId|].
  - destruct (getProfile profiles userId) as [existing|] eqn:G; [|discriminate].
    intros E. right. exists existing. split.
    + unfold getProfile in G. apply find_some in G. tauto.
    + eapply known_attendee_transition; eauto.
  - destruct (find _ profiles) as [existing|] eqn:F.
    + intros E. right. exists existing. split.
      * apply find_some in F. tauto.
      * eapply known_attendee_transition; eauto.
    + intros E. injection E as <- <-. left. auto.
Qed.

(** What a completed run resolved and wrote. *)
Lemma processAttendance_transition P store g currentUser fl il cap r p effects :
  processAttendance P store g currentUser fl il cap = (Complete r p, effects) ->
  exists t imageFeatures faceDescriptor matchResult,
    r = AttendanceRecord.mk (record_id cap) (AttendeeProfile.name p)
          (AttendeeProfile.email p) (imageData cap) (Time (record_time cap)) t
          imageFeatures faceDescriptor /\
    resolve g (profiles store) currentUser cap matchResult
      imageFeatures faceDescriptor
    = Ok (Some (t, p)) /\
    (imageFeatures = None \/ extracted cap = Ok imageFeatures) /\
    (faceDescriptor = None \/ faceDescriptor = detected cap) /\
    effects
    = setRecords (r :: records store) :: saveRecords P (r :: records store)
      ++ setProfiles (updatedProfiles (profiles store) (whole p))
         :: saveProfiles P (updatedProfiles (profiles store) (whole p)).
Proof.
  unfold processAttendance.
  destruct (imageLoads cap); cbn [negb]; [|discriminate].
  assert (D : fst (face_stage fl (profiles store) cap) = None \/
              fst (face_stage fl (profiles store) cap) = detected cap).
  { unfold face_stage. destruct fl; [|auto]. cbn [detectFaceFromImage negb].
    destruct (detected cap); [|auto].
    destruct (Nat.ltb 0 _); auto. }
  destruct (face_stage fl (profiles store) cap) as [faceDescriptor m1].
  cbn [fst snd] in *.
  destruct (image_stage il (profiles store) cap m1) as [[imageFeatures m2]|] eqn:I;
    [|discriminate].
  assert (F : imageFeatures = None \/ extracted cap = Ok imageFeatures).
  { revert I. unfold image_stage.
    destruct (negb (isMatch m1)); [|intros E; injection E; auto].
    destruct il; [|intros E; injection E; auto].
    cbn [extractImageFeatures negb].
    destruct (extracted cap) as [[v|]|]; cbn [bind]; try discriminate;
      intros E; injection E; intros; subst; auto. }
  cbn [snd].
  destruct (resolve g (profiles store) currentUser cap
              (simple_stage (profiles store) cap m2) imageFeatures faceDescriptor)
    as [[[t q]|]|] eqn:R; try discriminate.
  intros E. injection E as <- <- <-.
  exists t, imageFeatures, faceDescriptor, (simple_stage (profiles store) cap m2).
  auto 6.
Qed.

(** X19.  The profile of a completed run is a new attendee's, checked
    in under the id drawn for it with the form's name and email (or the
    two defaults), or it is a stored profile toggled: name, email and id
    kept, IN after an ENTRY from OUT with [lastEntry] set and [lastExit]
    kept, OUT after an EXIT from IN with [lastExit] set and [lastEntry]
    kept.  Either way the capture becomes the profile's last image. *)
Theorem completed_run_transition (P : Platform) (store : Store)
    (g : option (string -> option AttendanceRecord.t))
    (currentUser : CurrentUser) (fl il : bool) (cap : Capture)
    (r : AttendanceRecord.t) (p : AttendeeProfile.t) (effects : list Effect) :
  processAttendance P store g currentUser fl il cap = (Complete r p, effects) ->
  AttendeeProfile.lastImage p = imageData cap /\
  AttendanceRecord.image r = imageData cap /\
  ((AttendanceRecord.type r = ENTRY /\
    AttendeeProfile.id p = new_userId cap /\
    AttendeeProfile.name p = string_or (user_name currentUser) "Unknown User" /\
    AttendeeProfile.email p
    = string_or (user_email currentUser) "unknown@example.com" /\
    AttendeeProfile.currentStatus p = IN /\
    AttendeeProfile.lastEntry p = Some (Time (profile_time cap)) /\
    AttendeeProfile.lastExit p = None) \/
   (exists existing,
      In existing (profiles store) /\
      AttendeeProfile.id p = AttendeeProfile.id existing /\
      AttendeeProfile.name p = AttendeeProfile.name existing /\
      AttendeeProfile.email p = AttendeeProfile.email existing /\
      match AttendanceRecord.type r with
      | ENTRY =>
          AttendeeProfile.currentStatus existing = OUT /\
          AttendeeProfile.currentStatus p = IN /\
          AttendeeProfile.lastEntry p = Some (Time (profile_time cap)) /\
          AttendeeProfile.lastExit p = AttendeeProfile.lastExit existing
      | EXIT =>
          AttendeeProfile.currentStatus existing = IN /\
          AttendeeProfile.currentStatus p = OUT /\
          AttendeeProfile.lastExit p = Some (Time (profile_time cap)) /\
          AttendeeProfile.lastEntry p = AttendeeProfile.lastEntry existing
      end)).
Proof.
  intros E.
  destruct (processAttendance_transition _ _ _ _ _ _ _ E)
    as (t & imageFeatures & faceDescriptor & matchResult & -> & R & _ & _ & _).
  cbn [AttendanceRecord.type AttendanceRecord.image].
  destruct (resolve_transition _ _ _ _ _ _ _ R)
    as [[-> ->] | (existing & HIn & -> & ->)].
  - cbn. auto 10.
  - split; [reflexivity|]. split; [reflexivity|]. right. exists existing.
    split; [assumption|].
    destruct (AttendeeProfile.currentStatus existing) eqn:S; cbn; auto 10.
Qed.

Lemma completed_run_transition_witness :
  exists r p effects,
    processAttendance example_platform (state empty_world) None ann_form
      false false ann_arriving
    = (Complete r p, effects) /\
    AttendeeProfile.lastImage p = imageData ann_arriving /\
    AttendanceRecord.image r = imageData ann_arriving.
Proof.
  do 3 eexists. split; [reflexivity|].
  destruct (@completed_run_transition example_platform (state empty_world) None
              ann_form false false ann_arriving _ _ _ eq_refl) as (H1 & H2 & _).
  split; [exact H1 | exact H2].
Defined.

(** ** The store after a run *)

Lemma currentlyPresent_split rs (l1 l2 : list AttendeeProfile.t) x :
  currentlyPresent {| records := rs; profiles := l1 ++ x :: l2 |}
  = (currentlyPresent {| records := rs; profiles := l1 ++ l2 |}
     + match AttendeeProfile.currentStatus x with IN => 1 | OUT => 0 end)%nat.
Proof.
  unfold currentlyPresent. cbn [profiles].
  rewrite !filter_app, !length_app. cbn [filter].
  destruct (AttendeeProfile.currentStatus x); cbn [length]; lia.
Qed.

Lemma getProfile_unique (profiles : list AttendeeProfile.t) (x : AttendeeProfile.t) :
  NoDup (map AttendeeProfile.id profiles) -> In x profiles ->
  getProfile profiles (AttendeeProfile.id x) = Some x.
Proof.
  unfold getProfile. induction profiles as [|a l IH]; cbn [map find]; intros N HIn.
  - destruct HIn.
  - apply NoDup_cons_iff in N. destruct N as [Na N].
    destruct HIn as [-> | HIn].
    + rewrite String.eqb_refl. reflexivity.
    + destruct (String.eqb_spec (AttendeeProfile.id a) (AttendeeProfile.id x)) as [E|_].
      * exfalso. apply Na. rewrite E. apply in_map. assumption.
      * auto.
Qed.

Lemma updatedProfiles_NoDup (profiles : list AttendeeProfile.t) (pd : ProfileData.t) :
  NoDup (map AttendeeProfile.id profiles) ->
  NoDup (map AttendeeProfile.id (updatedProfiles profiles pd)).
Proof.
  intros N. rewrite updatedProfiles_ids.
  destruct (getProfile profiles (ProfileData.id pd)) eqn:E; [assumption|].
  apply getProfile_none_ids in E.
  apply NoDup_app; [assumption | repeat constructor; auto |].
  intros a HIn [<- | []]. auto.
Qed.

(** X20.  On a store whose profiles have distinct ids, and with an id
    drawn for a new attendee that no profile has, a completed run keeps
    the ids distinct and moves the number of attendees present (the
    component's [currentlyPresent]) by exactly one: up with an ENTRY
    record, down with an EXIT record. *)
Theorem completed_run_present_count (P : Platform) (w : World)
    (g : option (string -> option AttendanceRecord.t))
    (currentUser : CurrentUser) (fl il : bool) (cap : Capture)
    (r : AttendanceRecord.t) (p : AttendeeProfile.t) (effects : list Effect) :
  processAttendance P (state w) g currentUser fl il cap = (Complete r p, effects) ->
  NoDup (map AttendeeProfile.id (profiles (state w))) ->
  ~ In (new_userId cap) (map AttendeeProfile.id (profiles (state w))) ->
  NoDup (map AttendeeProfile.id (profiles (state (rerender w effects)))) /\
  match AttendanceRecord.type r with
  | ENTRY =>
      currentlyPresent (state (rerender w effects)) = S (currentlyPresent (state w))
  | EXIT =>
      S (currentlyPresent (state (rerender w effects))) = currentlyPresent (state w)
  end.
Proof.
  intros E N Fresh.
  destruct (processAttendance_transition _ _ _ _ _ _ _ E)
    as (t & imageFeatures & faceDescriptor & matchResult & -> & R & _ & _ & ->).
  rewrite !(proj1 (run_rerender P w _ _)). cbn [profiles records AttendanceRecord.type].
  split; [apply updatedProfiles_NoDup; assumption|].
  destruct w as [[rs ps] ls]. cbn [state profiles records] in *.
  destruct (resolve_transition _ _ _ _ _ _ _ R)
    as [[-> ->] | (existing & HIn & -> & ->)].
  - apply getProfile_none_ids in Fresh.
    rewrite updatedProfiles_new by exact Fresh. rewrite newProfile_whole.
    rewrite currentlyPresent_split, app_nil_r. cbn. lia.
  - pose proof (@getProfile_unique ps existing N HIn) as G.
    destruct (@updatedProfiles_split ps
                (whole (returning_profile existing cap
                          match AttendeeProfile.currentStatus existing with
                          | IN => EXIT
                          | OUT => ENTRY
                          end imageFeatures faceDescriptor)) existing G)
      as (l1 & l2 & -> & _ & _ & ->).
    rewrite merge_whole, !currentlyPresent_split.
    destruct (AttendeeProfile.currentStatus existing); cbn; lia.
Qed.

Lemma completed_run_present_count_witness :
  (currentlyPresent front_desk = 1%nat /\
   currentlyPresent (state (rerender front_desk_world cara_effects)) = 2%nat) /\
  (exists r p effects,
     processAttendance example_platform ann_present (Some lookup_today) ann_form
       false false (ann_leaving_with (75 / 100))
     = (Complete r p, effects) /\
     AttendanceRecord.type r = EXIT /\
     currentlyPresent ann_present = 1%nat /\
     currentlyPresent
       (state (rerender {| state := ann_present;
                           localStorage := persisted example_platform ann_present |}
                 effects))
     = 0%nat).
Proof.
  split.
  - assert (N : NoDup (map AttendeeProfile.id (profiles (state front_desk_world)))).
    { repeat constructor.
      - intros [E | []]. discriminate E.
      - intros []. }
    assert (F : ~ In (new_userId cara_arriving)
                  (map AttendeeProfile.id (profiles (state front_desk_world)))).
    { intros [E | [E | []]]; discriminate E. }
    split; [reflexivity|].
    exact (proj2 (@completed_run_present_count example_platform front_desk_world None
                    cara_form false true cara_arriving cara_entry cara_present
                    cara_effects cara_arrives N F)).
  - destruct gate_accepts_at_075 as (r & p & effects & E & T & _ & _).
    exists r, p, effects.
    assert (N : NoDup (map AttendeeProfile.id [ann])).
    { repeat constructor. intros []. }
    assert (F : ~ In (new_userId (ann_leaving_with (75 / 100)))
                  (map AttendeeProfile.id [ann])).
    { intros [E' | []]. discriminate E'. }
    pose proof (proj2 (@completed_run_present_count example_platform
                         {| state := ann_present;
                            localStorage := persisted example_platform ann_present |}
                         (Some lookup_today) ann_form false false
                         (ann_leaving_with (75 / 100)) r p effects E N F)) as H.
    rewrite T in H. injection H as H.
    repeat split; [exact E | exact T | exact H].
Defined.

(** X21.  A run either completes or asks nothing of the store.  When it
    completes, each of the two storage entries holds after the next
    render the serialisation of the new collection, or is left as it was
    when [setItem] throws on that write (the store catches and logs the
    error), and the record of the run is the first of the component's
    [recentRecords], before the nineteen most recent earlier ones. *)
Theorem processAttendance_all_or_nothing (P : Platform) (w : World)
    (g : option (string -> option AttendanceRecord.t))
    (currentUser : CurrentUser) (fl il : bool) (cap : Capture) :
  match fst (processAttendance P (state w) g currentUser fl il cap) with
  | Complete r p =>
      let w' :=
        rerender w (snd (processAttendance P (state w) g currentUser fl il cap)) in
      attendance_records (localStorage w')
      = (if setItem_throws P RECORDS
              (Json (JArr (map (stringify_record P) (records (state w')))))
         then attendance_records (localStorage w)
         else Some (Json (JArr (map (stringify_record P) (records (state w')))))) /\
      attendee_profiles (localStorage w')
      = (if setItem_throws P PROFILES
              (Json (JArr (map (stringify_profile P) (profiles (state w')))))
         then attendee_profiles (localStorage w)
         else Some (Json (JArr (map (stringify_profile P) (profiles (state w')))))) /\
      (written P (state w') -> localStorage w' = persisted P (state w')) /\
      recentRecords (state w') = r :: firstn 19 (records (state w))
  | _ => snd (processAttendance P (state w) g currentUser fl il cap) = []
  end.
Proof.
  destruct (processAttendance P (state w) g currentUser fl il cap) as [o effects] eqn:E.
  destruct o as [r p| | |e]; cbn [fst snd];
    try (eapply processAttendance_incomplete; [exact E | discriminate]).
  destruct (processAttendance_complete _ _ _ _ _ _ _ E)
    as (t & imageFeatures & faceDescriptor & _ & _ & ->).
  cbv zeta.
  destruct (run_rerender P w (r :: records (state w))
              (updatedProfiles (profiles (state w)) (whole p))) as (S & R1 & R2).
  rewrite S. cbn [records profiles].
  split; [exact R1|]. split; [exact R2|]. split; [|reflexivity].
  intros W. rewrite (persisted_written W). cbn [records profiles].
  destruct W as [Wr Wp]. cbn [records profiles] in Wr, Wp.
  rewrite Wr in R1. rewrite Wp in R2.
  apply LocalStorage_eta; assumption.
Qed.

Lemma processAttendance_all_or_nothing_witness :
  localStorage (rerender front_desk_world cara_effects)
  = persisted example_platform (state (rerender front_desk_world cara_effects)) /\
  recentRecords (state (rerender front_desk_world cara_effects))
  = [cara_entry; ann_entry; cara_visit].
Proof.
  pose proof (processAttendance_all_or_nothing example_platform front_desk_world
                None cara_form false true cara_arriving) as H.
  cbn [state front_desk_world] in H. rewrite cara_arrives in H.
  cbn [fst snd] in H. cbv zeta in H.
  destruct H as (_ & _ & H3 & H4).
  split; [apply H3; split; reflexivity | exact H4].
Defined.

(** ** The first capture on an empty store *)

Lemma face_stage_empty fl cap :
  face_stage fl [] cap = (detectFaceFromImage fl (detected cap), noMatch).
Proof.
  unfold face_stage. destruct fl; [|reflexivity].
  cbn [detectFaceFromImage negb]. destruct (detected cap); reflexivity.
Qed.

Lemma image_stage_empty il cap imageFeatures :
  extractImageFeatures il (extracted cap) = Ok imageFeatures ->
  image_stage il [] cap noMatch = Ok (imageFeatures, noMatch).
Proof.
  unfold image_stage. cbn [isMatch noMatch negb].
  destruct il.
  - intros ->. cbn [bind]. destruct imageFeatures as [v|]; [|reflexivity].
    unfold findMatchingImage. cbn [negb isMatch getImageFeatures flat_map].
    unfold forEach_best. cbn [fold_left best_confidence].
    unfold image_threshold. rewrite gt_zero_threshold by lra. reflexivity.
  - cbn [extractImageFeatures negb]. intros E. injection E as <-. reflexivity.
Qed.

(** X22.  On a store without profiles (a first use, or after the data
    were cleared), every capture whose image loads and whose feature
    extraction does not reject completes as the ENTRY of a new attendee:
    the profile gets the id drawn for it, the form's name and email (or
    'Unknown User' and 'unknown@example.com'), the status IN and the
    vectors of the capture, and becomes the only profile. *)
Theorem first_capture_enrolls (P : Platform) (w : World)
    (g : option (string -> option AttendanceRecord.t))
    (currentUser : CurrentUser) (fl il : bool) (cap : Capture)
    (imageFeatures : option Float32Array) :
  profiles (state w) = [] ->
  imageLoads cap = true ->
  extractImageFeatures il (extracted cap) = Ok imageFeatures ->
  exists r effects,
    processAttendance P (state w) g currentUser fl il cap
    = (Complete r
         (AttendeeProfile.mk (new_userId cap)
            (string_or (user_name currentUser) "Unknown User")
            (string_or (user_email currentUser) "unknown@example.com")
            (imageData cap) imageFeatures
            (detectFaceFromImage fl (detected cap)) IN
            (Some (Time (profile_time cap))) None),
       effects) /\
    AttendanceRecord.type r = ENTRY /\
    AttendanceRecord.name r = string_or (user_name currentUser) "Unknown User" /\
    records (state (rerender w effects)) = r :: records (state w) /\
    profiles (state (rerender w effects))
    = [AttendeeProfile.mk (new_userId cap)
         (string_or (user_name currentUser) "Unknown User")
         (string_or (user_email currentUser) "unknown@example.com")
         (imageData cap) imageFeatures
         (detectFaceFromImage fl (detected cap)) IN
         (Some (Time (profile_time cap))) None].
Proof.
  intros Ep L X. unfold processAttendance.
  rewrite L, Ep. cbn [negb]. rewrite face_stage_empty.
  rewrite (image_stage_empty il cap X).
  unfold simple_stage. cbn [isMatch noMatch negb length Nat.ltb Nat.leb andb].
  unfold resolve. cbn [isMatch noMatch find addRecord].
  do 2 eexists. split; [reflexivity|].
  unfold updateProfile. cbn [app].
  rewrite !(proj1 (run_rerender P w _ _)). cbn. auto.
Qed.

Lemma first_capture_enrolls_witness :
  exists r effects,
    processAttendance example_platform (state empty_world) None ann_form
      false false ann_arriving
    = (Complete r
         (AttendeeProfile.mk "uuid-profile" "Ann" "ann@x.com"
            "data:image/jpeg;base64,ann" None None IN (Some (Time 4)) None),
       effects) /\
    AttendanceRecord.type r = ENTRY.
Proof.
  destruct (@first_capture_enrolls example_platform empty_world None ann_form
              false false ann_arriving None eq_refl eq_refl eq_refl)
    as (r & effects & E & T & _).
  exists r, effects. split; [exact E | exact T].
Defined.

(** ** A completed run survives a reload *)







(** ** When the cosine confidence is not a number *)

Section CosineNaN.

Open Scope R_scope.

Lemma dot_zero_l xs : forall ys, Forall (fun x => x = 0) xs -> dot xs ys = 0.
Proof.
  induction xs as [|x xs IH]; intros [|y ys] F; simpl; try reflexivity.
  apply Forall_cons_iff in F. destruct F as [-> F]. rewrite (IH ys F). ring.
Qed.

Lemma dot_zero_r ys : forall xs, Forall (fun y => y = 0) ys -> dot xs ys = 0.
Proof.
  induction ys as [|y ys IH]; intros [|x xs] F; simpl; try reflexivity.
  apply Forall_cons_iff in F. destruct F as [-> F]. rewrite (IH xs F). ring.
Qed.

Lemma compareImages_zero_norm xs ys :
  length xs = length ys ->
  Forall (fun x => x = 0) xs \/ Forall (fun y => y = 0) ys ->
  compareImages (Some (map Num xs)) (Some (map Num ys)) = NaN.
Proof.
  intros L Z. unfold compareImages. rewrite !length_map, L, Nat.eqb_refl. cbn [negb].
  rewrite accumulate_finite by assumption. rewrite !Rplus_0_l.
  pose proof (dot_self_nonneg xs) as A.
  pose proof (dot_self_nonneg ys) as B.
  assert (D : dot xs ys = 0).
  { destruct Z as [Z | Z]; [apply dot_zero_l | apply dot_zero_r]; assumption. }
  assert (S : sqrt (dot xs xs) * sqrt (dot ys ys) = 0).
  { destruct Z as [Z | Z].
    - rewrite (@dot_zero_l xs xs Z), sqrt_0. ring.
    - rewrite (@dot_zero_r ys ys Z), sqrt_0. ring. }
  unfold JS.Math_sqrt, JS.sign_lt0.
  destruct (Rlt_dec (dot xs xs) 0); [lra|].
  destruct (Rlt_dec (dot ys ys) 0); [lra|].
  cbn [JS.mul]. rewrite D, S. unfold JS.div, JS.is_zero.
  destruct (Req_dec_T 0 0) as [_|N]; [reflexivity | exfalso; apply N; reflexivity].
Qed.

(** X24.  On vectors of finite numbers [compareImages] returns [NaN]
    exactly when the two lengths are equal and one of the vectors has
    only zeros (the empty vector included); in every other case it
    returns a number that is not negative. *)
Theorem compareImages_NaN_iff (xs ys : list R) :
  (compareImages (Some (map Num xs)) (Some (map Num ys)) = NaN <->
   length xs = length ys /\
   (Forall (fun x => x = 0) xs \/ Forall (fun y => y = 0) ys)) /\
  (compareImages (Some (map Num xs)) (Some (map Num ys)) = NaN \/
   exists c, compareImages (Some (map Num xs)) (Some (map Num ys)) = Num c /\
             0 <= c).
Proof.
  destruct (Nat.eq_dec (length xs) (length ys)) as [L|N].
  - destruct (Req_dec (dot xs xs) 0) as [Zx|Nx].
    { pose proof (@compareImages_zero_norm xs ys L (or_introl (@dot_self_zero xs Zx))) as E.
      split; [|left; exact E].
      split; [intros _|intros _; exact E].
      split; [assumption | left; apply dot_self_zero; assumption]. }
    destruct (Req_dec (dot ys ys) 0) as [Zy|Ny].
    { pose proof (@compareImages_zero_norm xs ys L (or_intror (@dot_self_zero ys Zy))) as E.
      split; [|left; exact E].
      split; [intros _|intros _; exact E].
      split; [assumption | right; apply dot_self_zero; assumption]. }
    destruct (@compareImages_cosine xs ys L Nx Ny) as [E B].
    split.
    + split.
      * intros H. exfalso. pose proof (eq_trans (eq_sym E) H) as C. discriminate C.
      * intros [_ [Z | Z]]; exfalso.
        -- apply Nx. apply dot_zero_l. assumption.
        -- apply Ny. apply dot_zero_r. assumption.
    + right. eexists. split; [exact E | exact (proj1 B)].
  - assert (E : compareImages (Some (map Num xs)) (Some (map Num ys)) = Num 0).
    { unfold compareImages. rewrite !length_map.
      apply Nat.eqb_neq in N. rewrite N. reflexivity. }
    split.
    + split; [intros H; exfalso; pose proof (eq_trans (eq_sym E) H) as C; discriminate C|].
      intros [L _]. contradiction.
    + right. exists 0. split; [exact E | lra].
Qed.

End CosineNaN.

(** ** The email fallback *)

Lemma resolve_new_attendee g (profiles : list AttendeeProfile.t) currentUser cap
    matchResult imageFeatures faceDescriptor t p :
  resolve g profiles currentUser cap matchResult imageFeatures faceDescriptor
  = Ok (Some (t, p)) ->
  (exists existing,
     In existing profiles /\ AttendeeProfile.id p = AttendeeProfile.id existing) \/
  find (fun q =>
          match user_email currentUser with
          | Some e => String.eqb (toLowerCase (AttendeeProfile.email q)) (toLowerCase e)
          | None => false
          end) profiles = None.
Proof.
  unfold resolve.
  destruct (if isMatch matchResult then _ else None) as [userId|].
  - destruct (getProfile profiles userId) as [existing|] eqn:G; [|discriminate].
    intros E. left. exists existing. split.
    + unfold getProfile in G. apply find_some in G. tauto.
    + eapply known_attendee_id; eauto.
  - destruct (find _ profiles) as [existing|] eqn:F.
    + intros E. left. exists existing. split.
      * apply find_some in F. tauto.
      * eapply known_attendee_id; eauto.
    + intros _. right. reflexivity.
Qed.

(** X25.  An email that is stored is not enrolled twice.  When the form's
    email equals, letter case aside, the email of a stored profile, a
    completed run is attributed to a stored profile: it creates no
    profile, and the number of profiles stays as it was. *)
Theorem known_email_not_enrolled_twice (P : Platform) (w : World)
    (g : option (string -> option AttendanceRecord.t))
    (currentUser : CurrentUser) (fl il : bool) (cap : Capture)
    (r : AttendanceRecord.t) (p : AttendeeProfile.t) (effects : list Effect)
    (e : string) (q : AttendeeProfile.t) :
  processAttendance P (state w) g currentUser fl il cap = (Complete r p, effects) ->
  user_email currentUser = Some e ->
  In q (profiles (state w)) ->
  toLowerCase (AttendeeProfile.email q) = toLowerCase e ->
  (exists existing,
     In existing (profiles (state w)) /\
     AttendeeProfile.id p = AttendeeProfile.id existing) /\
  length (profiles (state (rerender w effects))) = length (profiles (state w)).
Proof.
  intros E Hu Hq He.
  destruct (processAttendance_transition _ _ _ _ _ _ _ E)
    as (t & imageFeatures & faceDescriptor & matchResult & _ & R & _ & _ & ->).
  assert (X : exists existing,
             In existing (profiles (state w)) /\
             AttendeeProfile.id p = AttendeeProfile.id existing).
  { destruct (resolve_new_attendee _ _ _ _ _ _ _ R) as [X | F]; [exact X|].
    exfalso. rewrite Hu in F.
    pose proof (find_none _ _ F q Hq) as N. cbv beta in N.
    rewrite He, String.eqb_refl in N. discriminate. }
  split; [exact X|].
  rewrite (proj1 (run_rerender P w _ _)). cbn [profiles].
  destruct X as (existing & HIn & Hid).
  rewrite <- (length_map AttendeeProfile.id (updatedProfiles _ _)).
  rewrite updatedProfiles_ids. cbn [whole ProfileData.id].
  destruct (getProfile (profiles (state w)) (AttendeeProfile.id p)) eqn:G.
  - apply length_map.
  - apply getProfile_none_ids in G. exfalso. apply G.
    rewrite Hid. apply in_map. assumption.
Qed.

Lemma known_email_not_enrolled_twice_witness :
  exists r p effects,
    processAttendance example_platform ann_present (Some lookup_today) ann_form
      false false (ann_leaving_with (75 / 100))
    = (Complete r p, effects) /\
    length (profiles (state (rerender {| state := ann_present;
                                         localStorage := persisted example_platform
                                                           ann_present |}
                               effects)))
    = 1%nat.
Proof.
  destruct gate_accepts_at_075 as (r & p & effects & E & _).
  exists r, p, effects. split; [exact E|].
  exact (proj2 (@known_email_not_enrolled_twice example_platform
                  {| state := ann_present;
                     localStorage := persisted example_platform ann_present |}
                  (Some lookup_today) ann_form false false
                  (ann_leaving_with (75 / 100)) r p effects "ann@x.com" ann
                  E eq_refl (or_introl eq_refl) eq_refl)).
Defined.

(** ** Insertions made one per render *)

Lemma insert_each_render_app (P : Platform) (l1 l2 : list Insertion) (w : World) :
  insert_each_render P w (l1 ++ l2)
  = insert_each_render P (insert_each_render P w l1) l2.
Proof. unfold insert_each_render. apply fold_left_app. Qed.

Lemma insert_each_render_last (P : Platform) (l : list Insertion) (i : Insertion)
    (w : World) :
  insert_each_render P w (l ++ [i])
  = rerender (insert_each_render P w l)
      (snd (inserted P (insert_each_render P w l) i)).
Proof. rewrite insert_each_render_app. reflexivity. Qed.

Lemma insert_each_render_frame (P : Platform) (l : list Insertion) : forall w,
  profiles (state (insert_each_render P w l)) = profiles (state w) /\
  attendee_profiles (localStorage (insert_each_render P w l))
  = attendee_profiles (localStorage w).
Proof.
  induction l as [|i l IH]; intros w; [auto|].
  unfold insert_each_render in *. cbn [fold_left].
  destruct (IH (rerender w (snd (inserted P w i)))) as [H1 H2].
  rewrite H1, H2. destruct i as [[record uuid] now]. cbn [inserted].
  destruct (addRecord_rerender P w (records (state w)) record uuid now)
    as (S & A & _).
  rewrite S, A. auto.
Qed.

(** X26.  Records added one per render (each [addRecord] called on the
    hook as rendered after the previous call) are all kept: the store
    holds them most recent first in front of the earlier records, the
    records entry of the storage is the serialisation of that list (or,
    when [setItem] throws on the last write, what it was before the last
    call), the profiles and their entry are not touched, and
    [getRecentRecords(k)] returns the last [k] records added. *)
Theorem addRecord_each_render (P : Platform) (w : World)
    (l : list Insertion) (i : Insertion) :
  records (state (insert_each_render P w (l ++ [i])))
  = record_of i :: rev (map record_of l) ++ records (state w) /\
  attendance_records (localStorage (insert_each_render P w (l ++ [i])))
  = (if setItem_throws P RECORDS
          (Json (JArr (map (stringify_record P)
                         (records (state (insert_each_render P w (l ++ [i])))))))
     then attendance_records (localStorage (insert_each_render P w l))
     else Some (Json (JArr (map (stringify_record P)
                              (records (state (insert_each_render P w (l ++ [i])))))))) /\
  profiles (state (insert_each_render P w (l ++ [i]))) = profiles (state w) /\
  attendee_profiles (localStorage (insert_each_render P w (l ++ [i])))
  = attendee_profiles (localStorage w) /\
  forall k, (k <= S (length l))%nat ->
    getRecentRecords (records (state (insert_each_render P w (l ++ [i])))) (Some k)
    = firstn k (record_of i :: rev (map record_of l)).
Proof.
  assert (R : records (state (insert_each_render P w (l ++ [i])))
              = record_of i :: rev (map record_of l) ++ records (state w)).
  { rewrite insert_each_render_records, map_app, rev_app_distr. reflexivity. }
  split; [exact R|]. split; [|split; [|split]].
  - rewrite insert_each_render_last.
    destruct i as [[record uuid] now]. cbn [inserted].
    destruct (addRecord_rerender P (insert_each_render P w l)
                (records (state (insert_each_render P w l))) record uuid now)
      as (S & _ & A).
    rewrite S. cbn [records]. exact A.
  - apply insert_each_render_frame.
  - apply insert_each_render_frame.
  - intros k Hk. rewrite R. unfold getRecentRecords.
    change (record_of i :: rev (map record_of l) ++ records (state w))
      with ((record_of i :: rev (map record_of l)) ++ records (state w)).
    rewrite firstn_app.
    replace (k - length (record_of i :: rev (map record_of l)))%nat with 0%nat
      by (cbn [length]; rewrite length_rev, length_map; lia).
    cbn [firstn]. apply app_nil_r.
Qed.

(** ** From the form to the profile *)

Lemma truthy_trim (s : string) : truthy_string (trim s) = true -> s <> "".
Proof. intros T ->. discriminate T. Qed.

Lemma string_or_given (s d : string) : s <> "" -> string_or (Some s) d = s.
Proof.
  intros N. unfold string_or. apply String.eqb_neq in N. rewrite N. reflexivity.
Qed.

(** X6.  A write that [setItem] refuses is not reported: [addRecord]
    still returns the new record and puts it first in the state, while
    the storage is left as it was, so that a hook mounted afterwards
    loads what was stored before the call, without the record. *)
Theorem addRecord_write_refused (P : Platform) (w : World)
    (record : NewRecord.t) (uuid : string) (now : Z) :
  setItem_throws P RECORDS
    (Json (JArr (map (stringify_record P)
                   (record_of (record, uuid, now) :: records (state w))))) = true ->
  fst (addRecord P (records (state w)) record uuid now)
  = record_of (record, uuid, now) /\
  records (state (rerender w (snd (addRecord P (records (state w)) record uuid now))))
  = record_of (record, uuid, now) :: records (state w) /\
  localStorage (rerender w (snd (addRecord P (records (state w)) record uuid now)))
  = localStorage w /\
  load P (localStorage
            (rerender w (snd (addRecord P (records (state w)) record uuid now))))
  = load P (localStorage w).
Proof.
  intros H. cbn [record_of] in H.
  assert (L : localStorage
                (rerender w (snd (addRecord P (records (state w)) record uuid now)))
              = localStorage w).
  { unfold addRecord, saveRecords, rerender. cbv zeta. cbn [snd].
    rewrite H. reflexivity. }
  split; [reflexivity|]. split; [|split; [exact L | rewrite L; reflexivity]].
  rewrite (proj1 (addRecord_rerender P w (records (state w)) record uuid now)).
  reflexivity.
Qed.

Lemma addRecord_write_refused_witness :
  records
    (state (rerender front_desk_world
              (snd (addRecord full_storage_platform (records (state front_desk_world))
                      (fst (fst user0)) "uuid-0" 1000))))
  = [record_of user0; ann_entry; cara_visit] /\
  map as_AttendanceRecord
    (loaded_records
       (load full_storage_platform
          (localStorage
             (rerender front_desk_world
                (snd (addRecord full_storage_platform (records (state front_desk_world))
                        (fst (fst user0)) "uuid-0" 1000))))))
  = [Some ann_entry; Some cara_visit].
Proof.
  destruct (@addRecord_write_refused full_storage_platform front_desk_world
              (fst (fst user0)) "uuid-0" 1000%Z eq_refl) as (_ & H1 & _ & H2).
  split; [exact H1|].
  rewrite H2. reflexivity.
Defined.

(** X27.  A form that the button accepts ([isValid]) is submitted as it
    is, and a form that [handleSubmit] passes on has a name and an email
    that are not blank.  A run completed after such a submission
    therefore never writes the defaults 'Unknown User' and
    'unknown@example.com': its profile has the name and the email of a
    stored profile, or those of the form. *)
Theorem submitted_form_names_attendee :
  forall (formData : FormData),
    (isValid formData = true -> handleSubmit formData = Some formData) /\
    (forall submitted, handleSubmit formData = Some submitted ->
       submitted = formData /\
       trim (form_name formData) <> "" /\ trim (form_email formData) <> "" /\
       snd (handleFormSubmit submitted) = capture /\
       forall (P : Platform) (store : Store)
              (g : option (string -> option AttendanceRecord.t))
              (fl il : bool) (cap : Capture)
              (r : AttendanceRecord.t) (p : AttendeeProfile.t) (effects : list Effect),
         processAttendance P store g (fst (handleFormSubmit submitted)) fl il cap
         = (Complete r p, effects) ->
         (exists existing,
            In existing (profiles store) /\
            AttendeeProfile.name p = AttendeeProfile.name existing /\
            AttendeeProfile.email p = AttendeeProfile.email existing) \/
         (AttendeeProfile.name p = form_name formData /\
          AttendeeProfile.email p = form_email formData)).
Proof.
  intros formData. split.
  - unfold isValid, handleSubmit. intros V.
    apply andb_prop in V. destruct V as [V _]. rewrite V. reflexivity.
  - intros submitted. unfold handleSubmit.
    destruct (truthy_string (trim (form_name formData))) eqn:Tn; [|discriminate].
    destruct (truthy_string (trim (form_email formData))) eqn:Te; [|discriminate].
    intros E. injection E as <-.
    split; [reflexivity|].
    split; [intros Z; rewrite Z in Tn; discriminate|].
    split; [intros Z; rewrite Z in Te; discriminate|].
    split; [reflexivity|].
    intros P store g fl il cap r p effects Run.
    destruct (processAttendance_transition _ _ _ _ _ _ _ Run)
      as (t & imageFeatures & faceDescriptor & matchResult & _ & R & _).
    destruct (resolve_transition _ _ _ _ _ _ _ R)
      as [[_ ->] | (existing & HIn & -> & _)].
    + right. cbn [handleFormSubmit fst user_name user_email
                  AttendeeProfile.name AttendeeProfile.email].
      rewrite !string_or_given by (apply truthy_trim; assumption). auto.
    + left. exists existing. auto.
Qed.

Lemma submitted_form_names_attendee_witness :
  handleSubmit ann_submits = Some ann_submits.
Proof.
  apply (proj1 (submitted_form_names_attendee ann_submits)). reflexivity.
Defined.

(** ** The input tensor *)

Section InputTensor.

Open Scope R_scope.

Lemma typed_store_at (l1 : Float32Array) : forall x l2 v k,
  k = length l1 -> typed_store (l1 ++ x :: l2) k v = l1 ++ v :: l2.
Proof.
  induction l1 as [|y l1 IH]; intros x l2 v k ->; [reflexivity|].
  cbn [app length typed_store]. rewrite IH by reflexivity. reflexivity.
Qed.

Lemma typed_store_app_l (l1 : Float32Array) : forall l2 k v,
  (k < length l1)%nat -> typed_store (l1 ++ l2) k v = typed_store l1 k v ++ l2.
Proof.
  induction l1 as [|y l1 IH]; intros l2 k v H; cbn [length] in H; [lia|].
  destruct k as [|k]; [reflexivity|].
  cbn [app typed_store]. rewrite IH by lia. reflexivity.
Qed.

Lemma typed_store_app_r (l1 : Float32Array) : forall l2 j i v,
  i = (length l1 + j)%nat -> typed_store (l1 ++ l2) i v = l1 ++ typed_store l2 j v.
Proof.
  induction l1 as [|y l1 IH]; intros l2 j i v ->; [reflexivity|].
  cbn [app length Nat.add typed_store]. rewrite (IH l2 j) by reflexivity. reflexivity.
Qed.

(** One pixel: the three writes of an iteration land behind the [k]
    values already in each plane. *)
Lemma store_pixel (rd gd bd zeros : Float32Array) (x y z vr vg vb : number)
    (k plane : nat) :
  length rd = k -> length gd = k -> length bd = k ->
  plane = (k + S (length zeros))%nat ->
  typed_store
    (typed_store
       (typed_store ((rd ++ x :: zeros) ++ (gd ++ y :: zeros) ++ (bd ++ z :: zeros))
          k vr)
       (k + plane) vg)
    (k + plane * 2) vb
  = (rd ++ vr :: zeros) ++ (gd ++ vg :: zeros) ++ (bd ++ vb :: zeros).
Proof.
  intros Lr Lg Lb ->.
  rewrite (typed_store_app_l (rd ++ x :: zeros))
    by (rewrite length_app; cbn [length]; lia).
  rewrite (typed_store_at rd) by (symmetry; assumption).
  rewrite (typed_store_app_r (rd ++ vr :: zeros) _ k)
    by (rewrite length_app; cbn [length]; lia).
  rewrite (typed_store_app_l (gd ++ y :: zeros))
    by (rewrite length_app; cbn [length]; lia).
  rewrite (typed_store_at gd) by (symmetry; assumption).
  rewrite (typed_store_app_r (rd ++ vr :: zeros) _ (k + (k + S (length zeros))))
    by (rewrite length_app; cbn [length]; lia).
  rewrite (typed_store_app_r (gd ++ vg :: zeros) _ k)
    by (rewrite length_app; cbn [length]; lia).
  rewrite (typed_store_at bd) by (symmetry; assumption).
  reflexivity.
Qed.

(** The loop fills the three planes from the left: with [k] pixels done
    and [m] to go, the next pixel lands behind the [k] values of each
    plane. *)
Lemma normalise_planes (m : nat) : forall data k (rd gd bd : Float32Array),
  length data = (4 * m)%nat ->
  length rd = k -> length gd = k -> length bd = k ->
  normalise (k + m) data k
    ((rd ++ repeat (Num 0) m) ++ (gd ++ repeat (Num 0) m) ++ (bd ++ repeat (Num 0) m))
  = (rd ++ channel 0 data) ++ (gd ++ channel 1 data) ++ (bd ++ channel 2 data).
Proof.
  induction m as [|m IH]; intros data k rd gd bd L Lr Lg Lb.
  - destruct data; [reflexivity | discriminate].
  - replace (4 * S m)%nat with (S (S (S (S (4 * m))))) in L by lia.
    destruct data as [|r [|g [|b [|a data]]]]; try discriminate L.
    injection L as L.
    cbn [normalise element nth_error channel repeat].
    unfold JS.div, JS.is_zero.
    destruct (Req_dec_T 255 0) as [Z|_]; [lra|].
    rewrite (@store_pixel rd gd bd (repeat (Num 0) m))
      by (rewrite ?repeat_length; auto).
    replace (k + S m)%nat with (S k + m)%nat by lia.
    change (rd ++ Num (IZR r / 255) :: repeat (Num 0) m)
      with (rd ++ [Num (IZR r / 255)] ++ repeat (Num 0) m).
    change (gd ++ Num (IZR g / 255) :: repeat (Num 0) m)
      with (gd ++ [Num (IZR g / 255)] ++ repeat (Num 0) m).
    change (bd ++ Num (IZR b / 255) :: repeat (Num 0) m)
      with (bd ++ [Num (IZR b / 255)] ++ repeat (Num 0) m).
    rewrite !(app_assoc _ [_]).
    rewrite IH by (rewrite ?length_app; cbn [length]; lia).
    rewrite <- !(app_assoc _ [_]). reflexivity.
Qed.

Lemma channel_range (c : nat) (n : nat) : forall data,
  length data = (4 * n)%nat ->
  Forall (fun byte => (0 <= byte <= 255)%Z) data ->
  length (channel c data) = n /\
  Forall (fun v => exists x, v = Num x /\ 0 <= x <= 1) (channel c data).
Proof.
  induction n as [|n IH]; intros data L F.
  - destruct data; [split; [reflexivity | constructor] | discriminate].
  - replace (4 * S n)%nat with (S (S (S (S (4 * n))))) in L by lia.
    destruct data as [|r [|g [|b [|a data]]]]; try discriminate L.
    injection L as L.
    repeat match goal with
           | H : Forall _ (_ :: _) |- _ =>
               apply Forall_cons_iff in H; destruct H
           end.
    destruct (IH data L) as [Hl Hf]; [assumption|].
    cbn [channel length]. split; [rewrite Hl; reflexivity|].
    constructor; [|assumption].
    eexists. split; [reflexivity|].
    assert (B : forall z, (0 <= z <= 255)%Z -> 0 <= IZR z / 255 <= 1).
    { intros z [Z0 Z1]. apply IZR_le in Z0, Z1. split.
      - apply Rmult_le_pos; [assumption|]. apply Rlt_le, Rinv_0_lt_compat. lra.
      - apply Rmult_le_reg_r with 255; [lra|].
        unfold Rdiv. rewrite Rmult_assoc, Rinv_l by lra. lra. }
    destruct c as [|[|c]]; apply B; assumption.
Qed.

(** X28.  From the bytes of the 224 x 224 canvas [extractImageFeatures]
    builds a tensor of [3 * 224 * 224] numbers in planar order: all red
    values, then all green values, then all blue values, each the byte
    divided by 255 and so between 0 and 1; the alpha bytes are not
    used. *)
Theorem input_tensor_planar (data : Uint8ClampedArray) :
  length data = (4 * (224 * 224))%nat ->
  Forall (fun byte => (0 <= byte <= 255)%Z) data ->
  input_tensor data = channel 0 data ++ channel 1 data ++ channel 2 data /\
  length (input_tensor data) = (3 * (224 * 224))%nat /\
  Forall (fun v => exists x, v = Num x /\ 0 <= x <= 1) (input_tensor data).
Proof.
  intros L F.
  assert (E : input_tensor data = channel 0 data ++ channel 1 data ++ channel 2 data).
  { unfold input_tensor.
    replace (224 * 224 * 3)%nat with (224 * 224 + (224 * 224 + 224 * 224))%nat by lia.
    rewrite !repeat_app.
    exact (@normalise_planes (224 * 224) data 0 [] [] [] L eq_refl eq_refl eq_refl). }
  destruct (@channel_range 0 (224 * 224) data L F) as [L0 F0].
  destruct (@channel_range 1 (224 * 224) data L F) as [L1 F1].
  destruct (@channel_range 2 (224 * 224) data L F) as [L2 F2].
  rewrite E. split; [reflexivity|]. split.
  - rewrite !length_app, L0, L1, L2. lia.
  - apply Forall_app. split; [assumption|]. apply Forall_app. split; assumption.
Qed.

Lemma input_tensor_planar_witness :
  length (input_tensor (repeat 255%Z (4 * (224 * 224)))) = (3 * (224 * 224))%nat.
Proof.
  assert (F : Forall (fun byte => (0 <= byte <= 255)%Z) (repeat 255%Z (4 * (224 * 224)))).
  { apply Forall_forall. intros b Hb. apply repeat_spec in Hb. subst b. lia. }
  exact (proj1 (proj2 (@input_tensor_planar (repeat 255%Z (4 * (224 * 224)))
                         (repeat_length 255%Z (4 * (224 * 224))) F))).
Defined.

End InputTensor.

(** ** The pixel stage *)

Section PixelStage.

Variable cap : Capture.

Let similarity (p : AttendeeProfile.t) : number :=
  simpleImageCompare cap (imageData cap) (AttendeeProfile.lastImage p).

Let pixel_step (best : BestMatch) (profile : AttendeeProfile.t) : BestMatch :=
  if negb (String.eqb (AttendeeProfile.lastImage profile) "") then
    let similarity :=
      simpleImageCompare cap (imageData cap) (AttendeeProfile.lastImage profile) in
    if JS.gt similarity (best_confidence best)
    then {| best_id := AttendeeProfile.id profile; best_confidence := similarity |}
    else best
  else best.

Lemma pixel_step_not_NaN (b : BestMatch) p :
  JS.is_NaN (best_confidence b) = false ->
  JS.is_NaN (best_confidence (pixel_step b p)) = false.
Proof.
  unfold pixel_step. destruct (negb _); [|auto].
  destruct (JS.gt _ _) eqn:G; cbn [best_confidence]; auto.
  intros _. unfold JS.gt in G.
  destruct (simpleImageCompare cap _ _); simpl in *; auto.
  destruct (best_confidence b) as [|[]|]; discriminate.
Qed.

(** The final confidence of the pixel scan exceeds [t] exactly when the
    initial one does or some profile with a last image has a similarity
    that does. *)
Lemma pixel_fold_exceeds (l : list AttendeeProfile.t) t : forall (b : BestMatch),
  JS.is_NaN (best_confidence b) = false ->
  (JS.gt (best_confidence (fold_left pixel_step l b)) t = true <->
   JS.gt (best_confidence b) t = true \/
   exists p, In p l /\ AttendeeProfile.lastImage p <> "" /\
             JS.gt (similarity p) t = true).
Proof.
  induction l as [|p l IH]; cbn [fold_left]; intros b Hb.
  - split; [auto | intros [H | (x & [] & _)]; auto].
  - rewrite (IH _ (pixel_step_not_NaN b p Hb)).
    unfold pixel_step at 1.
    destruct (String.eqb_spec (AttendeeProfile.lastImage p) "") as [E|N]; cbn [negb].
    + split.
      * intros [H | (x & HIn & H)]; [auto|]. right. exists x. cbn [In]. tauto.
      * intros [H | (x & [<- | HIn] & Hx & H)]; [auto | contradiction |].
        right. exists x. auto.
    + fold (similarity p).
      destruct (JS.gt (similarity p) (best_confidence b)) eqn:G; cbn [best_confidence].
      * split.
        -- intros [H | (x & HIn & H)]; right; [exists p | exists x];
             cbn [In]; tauto.
        -- intros [H | (x & [<- | HIn] & Hx & H)].
           ++ left. unfold JS.gt in *. eapply lt_trans; eauto.
           ++ auto.
           ++ right. exists x. auto.
      * split.
        -- intros [H | (x & HIn & H)]; [auto|]. right. exists x. cbn [In]. tauto.
        -- intros [H | (x & [<- | HIn] & Hx & H)].
           ++ auto.
           ++ left. unfold JS.gt in *. eapply not_above_below; eauto.
           ++ right. exists x. auto.
Qed.

(** X29.  The pixel stage.  A match found by an earlier stage is kept
    as it is.  Without one, the stage reports a match exactly when some
    stored profile with a last image has a pixel similarity to the
    capture strictly above 0.8; profiles without a last image are not
    compared, and a similarity of exactly 0.8 is not a match. *)
Theorem pixel_stage_threshold (profiles : list AttendeeProfile.t)
    (matchResult : MatchResult) :
  (isMatch matchResult = true -> simple_stage profiles cap matchResult = matchResult) /\
  (isMatch matchResult = false ->
   (isMatch (simple_stage profiles cap matchResult) = true <->
    exists p, In p profiles /\ AttendeeProfile.lastImage p <> "" /\
              JS.gt (simpleImageCompare cap (imageData cap) (AttendeeProfile.lastImage p))
                    simple_threshold = true)).
Proof.
  split.
  - intros M. unfold simple_stage. rewrite M. reflexivity.
  - intros M. unfold simple_stage. rewrite M. cbn [negb andb].
    pose proof (pixel_fold_exceeds profiles simple_threshold
                  {| best_id := ""; best_confidence := Num 0 |} eq_refl) as X.
    unfold pixel_step, similarity in X. cbn [best_confidence] in X.
    destruct profiles as [|p0 l].
    + cbn [length Nat.ltb Nat.leb]. rewrite M. split; [discriminate|].
      intros (p & [] & _).
    + cbn [length Nat.ltb Nat.leb].
      match goal with
      | |- context [JS.gt (best_confidence ?best) simple_threshold] =>
          destruct (JS.gt (best_confidence best) simple_threshold) eqn:G
      end.
      * cbn [isMatch]. split; [intros _ | reflexivity].
        destruct (proj1 X eq_refl) as [Z | H]; [|exact H].
        unfold simple_threshold in Z. rewrite gt_zero_threshold in Z by lra.
        discriminate.
      * rewrite M. split; [discriminate|]. intros H.
        apply (proj2 X). right. exact H.
Qed.

End PixelStage.

Lemma pixel_stage_threshold_witness :
  isMatch (simple_stage (profiles ann_present) ann_leaving noMatch) = true <->
  exists p, In p (profiles ann_present) /\ AttendeeProfile.lastImage p <> "" /\
            JS.gt (simpleImageCompare ann_leaving (imageData ann_leaving)
                     (AttendeeProfile.lastImage p))
                  simple_threshold = true.
Proof.
  apply (proj2 (@pixel_stage_threshold ann_leaving (profiles ann_present) noMatch)).
  reflexivity.
Defined.

(** ** A refused check-out *)

Lemma known_attendee_refused g cap existing userId imageFeatures faceDescriptor :
  known_attendee g cap existing userId imageFeatures faceDescriptor = Ok None ->
  exists lookup todayEntry,
    g = Some lookup /\
    AttendeeProfile.currentStatus existing = IN /\
    lookup userId = Some todayEntry /\
    JS.lt (simpleImageCompare cap (imageData cap) (AttendanceRecord.image todayEntry))
          sameDay_threshold = true.
Proof.
  unfold known_attendee, sameDay_validation.
  destruct (AttendeeProfile.currentStatus existing); cbn [bind]; [|discriminate].
  destruct g as [lookup|]; cbn [bind]; [|discriminate].
  destruct (lookup userId) as [todayEntry|] eqn:L; cbn [bind]; [|discriminate].
  destruct (JS.lt _ _) eqn:C; cbn [bind]; [|discriminate].
  intros _. exists lookup, todayEntry. auto.
Qed.

(** X30.  A check-out is refused only on a mismatch.  When a run ends
    with 'Check-out Failed', the store provides the lookup of today's
    entry, the attendee resolved is a stored profile that is IN, the
    lookup has an entry of today for that profile's id, and the pixel
    similarity between the capture and that entry's image is strictly
    below 0.7; nothing is written. *)
Theorem checkout_refused_only_when (P : Platform) (store : Store)
    (g : option (string -> option AttendanceRecord.t))
    (currentUser : CurrentUser) (fl il : bool) (cap : Capture)
    (effects : list Effect) :
  processAttendance P store g currentUser fl il cap = (CheckoutFailed, effects) ->
  effects = [] /\
  exists lookup existing todayEntry,
    g = Some lookup /\
    In existing (profiles store) /\
    AttendeeProfile.currentStatus existing = IN /\
    lookup (AttendeeProfile.id existing) = Some todayEntry /\
    JS.lt (simpleImageCompare cap (imageData cap) (AttendanceRecord.image todayEntry))
          sameDay_threshold = true.
Proof.
  unfold processAttendance.
  destruct (imageLoads cap); cbn [negb]; [|discriminate].
  destruct (face_stage fl (profiles store) cap) as [faceDescriptor m1].
  destruct (image_stage il (profiles store) cap m1) as [[imageFeatures m2]|];
    [|discriminate].
  destruct (resolve g (profiles store) currentUser cap
              (simple_stage (profiles store) cap m2) imageFeatures faceDescriptor)
    as [[[t q]|]|] eqn:R; try discriminate.
  intros E. injection E as <-. split; [reflexivity|].
  unfold resolve in R.
  destruct (if isMatch (simple_stage (profiles store) cap m2) then _ else None)
    as [userId|].
  - destruct (getProfile (profiles store) userId) as [existing|] eqn:G; [|discriminate].
    unfold getProfile in G. apply find_some in G. destruct G as [HIn Hid].
    apply String.eqb_eq in Hid. subst userId.
    destruct (known_attendee_refused _ _ _ _ _ _ R) as (lookup & todayEntry & H).
    exists lookup, existing, todayEntry. tauto.
  - destruct (find _ (profiles store)) as [existing|] eqn:F; [|discriminate].
    apply find_some in F. destruct F as [HIn _].
    destruct (known_attendee_refused _ _ _ _ _ _ R) as (lookup & todayEntry & H).
    exists lookup, existing, todayEntry. tauto.
Qed.

Lemma checkout_refused_only_when_witness :
  (@nil Effect) = [] /\
  exists lookup existing todayEntry,
    Some lookup_today = Some lookup /\
    In existing (profiles ann_present) /\
    AttendeeProfile.currentStatus existing = IN /\
    lookup (AttendeeProfile.id existing) = Some todayEntry /\
    JS.lt (simpleImageCompare (ann_leaving_with (65 / 100))
             (imageData (ann_leaving_with (65 / 100)))
             (AttendanceRecord.image todayEntry))
          sameDay_threshold = true.
Proof.
  exact (@checkout_refused_only_when example_platform ann_present (Some lookup_today)
           ann_form false false (ann_leaving_with (65 / 100)) []
           gate_rejects_at_065).
Defined.

(** ** The range of the reported confidence *)

Section ConfidenceRange.

Open Scope R_scope.

(** A sum of squares: a number that is not negative, [+Infinity] or
    [NaN]. *)
Let sum_of_squares (a : number) : Prop :=
  match a with
  | NaN => True
  | Inf negative => negative = false
  | Num x => 0 <= x
  end.

Lemma squares_fold (l : list number) : forall acc,
  sum_of_squares acc ->
  sum_of_squares (fold_left (fun res diff => JS.add res (JS.mul diff diff)) l acc).
Proof.
  induction l as [|d l IH]; intros acc H; [exact H|].
  cbn [fold_left]. apply IH.
  destruct acc as [|s|x], d as [|t|y]; cbn in *; subst; auto.
  - destruct t; reflexivity.
  - destruct t; reflexivity.
  - pose proof (Rle_0_sqr y) as S. unfold Rsqr in S. lra.
Qed.

Lemma compareFaces_NaN_or_unit (d1 d2 : option Float32Array) :
  compareFaces d1 d2 = NaN \/ in_unit_interval (compareFaces d1 d2).
Proof.
  assert (Z : in_unit_interval (Num 0)) by (exists 0; split; [reflexivity | lra]).
  unfold compareFaces, euclideanDistance.
  destruct d1 as [a|], d2 as [b|]; auto.
  destruct (negb _); auto.
  pose proof (squares_fold
                (map (fun '(val, d2) => JS.sub val d2) (combine a b)) (Num 0)
                (Rle_refl 0)) as S.
  destruct (fold_left _ _ (Num 0)) as [|s|x]; cbn in S.
  - left. reflexivity.
  - subst s. right. exact Z.
  - right. unfold JS.Math_sqrt, JS.sign_lt0.
    destruct (Rlt_dec x 0); [lra|].
    cbn [JS.sub JS.neg JS.add]. unfold JS.Math_max, JS.lt.
    pose proof (sqrt_pos x).
    destruct (Rlt_dec 0 (1 + - sqrt x)).
    + eexists. split; [reflexivity | lra].
    + exact Z.
Qed.

Lemma fold_unit compare query (catalog : list (string * Float32Array)) :
  (forall entry, In entry catalog ->
     compare (Some query) (Some (snd entry)) = NaN \/
     in_unit_interval (compare (Some query) (Some (snd entry)))) ->
  forall (b : BestMatch),
    in_unit_interval (best_confidence b) ->
    in_unit_interval
      (best_confidence (fold_left (forEach_step compare query) catalog b)).
Proof.
  induction catalog as [|e l IH]; intros H b Hb; [exact Hb|].
  cbn [fold_left]. apply IH; [intros entry HIn; apply H; right; assumption|].
  unfold forEach_step. destruct e as [id v].
  destruct (JS.gt _ _) eqn:G; [|exact Hb].
  cbn [best_confidence].
  destruct (H (id, v) (or_introl eq_refl)) as [E | U]; [|exact U].
  cbn [snd] in E. rewrite E in G. unfold JS.gt, JS.lt in G.
  destruct (best_confidence b); discriminate G.
Qed.

(** X15.  The confidence reported by [findMatchingFace] is a number
    between 0 and 1 for every query and every catalog, whatever their
    elements are. *)
Theorem matchers_confidence_range :
  forall (isLoaded : bool) (query : option Float32Array)
         (catalog : list (string * Float32Array)),
    in_unit_interval (confidence (findMatchingFace isLoaded query catalog)).
Proof.
  intros isLoaded query catalog.
  assert (Z : in_unit_interval (Num 0)) by (exists 0; split; [reflexivity | lra]).
  unfold findMatchingFace.
  destruct query as [q|]; [destruct isLoaded|]; cbn [negb confidence noMatch]; auto.
  unfold forEach_best. apply fold_unit; [|exact Z].
  intros entry _. apply compareFaces_NaN_or_unit.
Qed.

End ConfidenceRange.
